(** * Creator Node: sync executor, job queue, identity bootstrap

    A shallow embedding of the replica-set synchronisation code of the
    creator node:

    - [FileProcessingQueue]  src/creator-node/src/FileProcessingQueue.js
    - [ServiceRegistry]      the service registry (identity bootstrap loops)
    - [Utils]                src/creator-node/src/utils.js (findCIDInNetwork)
    - [ProcessSync]          src/creator-node/src/services/sync/processSync.js
    - [AsyncProcessingQueue] the queue with one processor for all tasks
    - [ServiceRegistryInit]  the service registry (initServicesThatRequireServer)
    - [UtilsImageDir]        src/creator-node/src/utils.js (image directories)
    - [ProcessSyncPeers]     processSync.js (_initBootstrapAndRefreshPeers)

    Asynchronous functions are embedded as state transformers that either
    throw or return: every [await] is a sequencing point of one sequential
    run, the external services (redis, the database, the peers, the chain)
    are explicit state or oracles. *)

From stdpp Require Import base gmap strings list.
From Stdlib Require Import ZArith Lia.

Set Warnings "-clear-no-such-hyp".

Open Scope Z_scope.
Open Scope string_scope.
Open Scope list_scope.

(** ** A state-and-exception monad for [async] functions

    [M S E A]: a computation over a store [S] that throws an [E] or
    returns an [A]; the store survives a throw, as writes made before a
    JavaScript exception do. *)
Module Eff.

Definition M (S E A : Type) : Type := S -> (E + A) * S.

Definition ret {S E A} (a : A) : M S E A := fun s => (inr a, s).

Definition throw {S E A} (e : E) : M S E A := fun s => (inl e, s).

Definition bind {S E A B} (m : M S E A) (k : A -> M S E B) : M S E B :=
  fun s => match m s with
           | (inl e, s') => (inl e, s')
           | (inr a, s') => k a s'
           end.

(** [try { m } catch (e) { h e }] *)
Definition tryCatch {S E A} (m : M S E A) (h : E -> M S E A) : M S E A :=
  fun s => match m s with
           | (inl e, s') => h e s'
           | (inr a, s') => (inr a, s')
           end.

Definition gets {S E A} (f : S -> A) : M S E A := fun s => (inr (f s), s).

Definition modify {S E} (f : S -> S) : M S E unit := fun s => (inr tt, f s).

(** [for (const x of xs) { body x }]: stops at the first throw. *)
Fixpoint forEach {S E A} (body : A -> M S E unit) (xs : list A) : M S E unit :=
  match xs with
  | [] => ret tt
  | x :: rest => bind (body x) (fun _ => forEach body rest)
  end.

End Eff.

Declare Scope eff_scope.
Delimit Scope eff_scope with eff.
Notation "x <~ m ;; k" := (Eff.bind m (fun x => k))
  (at level 100, m at next level, right associativity) : eff_scope.
Notation "m ;;; k" := (Eff.bind m (fun _ => k))
  (at level 100, right associativity) : eff_scope.

(** ** FileProcessingQueue.js *)
Module FileProcessingQueue.

Definition MAX_CONCURRENCY : Z := 100.
Definition EXPIRATION : Z := 86400. (* 24 hours in seconds *)

Module PROCESS_NAMES.
Definition trackContentUpload : string := "trackContentUpload".
Definition transcodeAndSegment : string := "transcodeAndSegment".
Definition processTranscodeAndSegments : string := "processTranscodeAndSegments".
End PROCESS_NAMES.

Module PROCESS_STATES.
Definition IN_PROGRESS : string := "IN_PROGRESS".
Definition DONE : string := "DONE".
Definition FAILED : string := "FAILED".
End PROCESS_STATES.

Definition constructProcessKey (taskType uuid : string) : string :=
  taskType +:+ ":::" +:+ uuid.

(** A thrown error object with its [name] ("Error", "TypeError", ...)
    and [message]; [e.toString()] follows [Error.prototype.toString]. *)
Record JsError := { name : string; message : string }.

Definition toString (e : JsError) : string :=
  if decide (name e = "") then message e
  else if decide (message e = "") then name e
  else name e +:+ ": " +:+ message e.

Section Queue.

(** What a processing function returns, and the request it is given. *)
Variables Response Req : Type.

(** The [resp] field of a status record: the handler's response when the
    job is done, the error's message when it failed. *)
Inductive RespField :=
| RespValue (r : Response)
| RespMessage (m : string).

(** [state = { status, resp }], stored with [JSON.stringify]; the record
    is kept in place of its serialisation. *)
Record ProcessState := { status : string; resp : option RespField }.

(** One redis entry written by [redisClient.set(key, value, 'EX', seconds)]. *)
Record RedisEntry := { value : ProcessState; EX : Z }.

Definition Redis := gmap string RedisEntry.

(** The entry that holds a status record with the queue's expiry. *)
Definition statusEntry (status : string) (resp : option RespField) : RedisEntry :=
  {| value := {| status := status; resp := resp |}; EX := EXPIRATION |}.

Definition redisClient_set (key : string) (v : ProcessState) (seconds : Z)
  : Eff.M Redis JsError unit :=
  Eff.modify (fun r : gmap string RedisEntry => <[key := {| value := v; EX := seconds |}]> r).

Record LogContext := { requestID : string }.

(** The [{ logContext, req }] object a task is added with. *)
Record TaskParams := { logContext : LogContext; req : Req }.

(** A processing function [func({ logContext }, req)]: it runs on the
    store it finds, may write to it, and returns or throws. *)
Definition ProcessingFn := LogContext -> Req -> Eff.M Redis JsError Response.

(** The processing functions the module imports. *)
Record ProcessingFns := {
  trackContentUpload : ProcessingFn;           (* handleTrackContentRoute *)
  transcodeAndSegment : ProcessingFn;          (* handleTranscodeAndSegment *)
  processTrackTranscodeAndSegments : ProcessingFn
}.

(** [async monitorProgress(taskType, func, { logContext, req })].
    [logStatus] and [logError] only write to the logger. *)
Definition monitorProgress (taskType : string) (func : ProcessingFn)
    (params : TaskParams) : Eff.M Redis JsError Response :=
  (let uuid := requestID (logContext params) in
   let redisKey := constructProcessKey taskType uuid in
   let state := {| status := PROCESS_STATES.IN_PROGRESS; resp := None |} in
   redisClient_set redisKey state EXPIRATION ;;;
   Eff.tryCatch
     (response <~ func (logContext params) (req params) ;;
      let state := {| status := PROCESS_STATES.DONE; resp := Some (RespValue response) |} in
      redisClient_set redisKey state EXPIRATION ;;;
      Eff.ret response)
     (fun e =>
        let state := {| status := PROCESS_STATES.FAILED; resp := Some (RespMessage (message e)) |} in
        redisClient_set redisKey state EXPIRATION ;;;
        Eff.throw e))%eff.

(** [job.data] as the processors read it: they destructure
    [trackContentUploadParams], which is [undefined] when the payload has
    no such property. *)
Record JobData := { trackContentUploadParams : option TaskParams }.

(** How a processor run ends: [done(null, { response })], [done(string)],
    or a rejection of the processor's own promise (an exception that
    escapes it). *)
Inductive JobOutcome :=
| DoneResponse (response : Response)
| DoneError (err : string)
| Rejected.

Definition Processor := JobData -> Redis -> JobOutcome * Redis.

Variable fns : ProcessingFns.

(** The processor registered with
    [queue.process(PROCESS_NAMES.trackContentUpload, MAX_CONCURRENCY, ...)].
    With [trackContentUploadParams] undefined, [monitorProgress] rejects
    while destructuring it and the [catch] block dereferences it again. *)
Definition process_trackContentUpload : Processor :=
  fun job r =>
    match trackContentUploadParams job with
    | None => (Rejected, r)
    | Some params =>
        match monitorProgress PROCESS_NAMES.trackContentUpload
                (trackContentUpload fns) params r with
        | (inr response, r') => (DoneResponse response, r')
        | (inl e, r') => (DoneError (toString e), r')
        end
    end.

(** The processor registered with
    [queue.process(PROCESS_NAMES.transcodeAndSegment, MAX_CONCURRENCY, ...)]. *)
Definition process_transcodeAndSegment : Processor :=
  fun job r =>
    match trackContentUploadParams job with
    | None => (Rejected, r)
    | Some params =>
        match monitorProgress PROCESS_NAMES.trackContentUpload
                (trackContentUpload fns) params r with
        | (inr response, r') => (DoneResponse response, r')
        | (inl e, r') => (DoneError (toString e), r')
        end
    end.

(** The constructor's [this.queue.process(name, MAX_CONCURRENCY, handler)]
    calls, in order. *)
Definition registeredProcessors : list (string * Processor) :=
  [ (PROCESS_NAMES.trackContentUpload, process_trackContentUpload);
    (PROCESS_NAMES.transcodeAndSegment, process_transcodeAndSegment) ].

(** The handler a named job is dispatched to. *)
Fixpoint processorFor (name : string) (ps : list (string * Processor))
  : option Processor :=
  match ps with
  | [] => None
  | (n, p) :: rest => if decide (n = name) then Some p else processorFor name rest
  end.

(** [job.data] as [queue.add] stores it: the [{ logContext, req }] object
    itself, or an object that holds it under [trackContentUploadParams]. *)
Inductive Payload :=
| PayloadParams (params : TaskParams)
| PayloadWrapped (params : TaskParams).

(** [const { trackContentUploadParams } = job.data] *)
Definition destructure (data : Payload) : JobData :=
  match data with
  | PayloadParams _ => {| trackContentUploadParams := None |}
  | PayloadWrapped params => {| trackContentUploadParams := Some params |}
  end.

(** [async addTask(task, params)]: the name and the data of the job
    [this.queue.add(task, params)] creates. *)
Definition addTask (task : string) (params : TaskParams) : string * Payload :=
  (task, PayloadParams params).

Definition addTrackContentUploadTask (trackContentUploadParams : TaskParams) :=
  addTask PROCESS_NAMES.trackContentUpload trackContentUploadParams.

Definition addTranscodeAndSegmentTask (transcodeAndSegmentParams : TaskParams) :=
  addTask PROCESS_NAMES.transcodeAndSegment transcodeAndSegmentParams.

Definition addProcessTranscodeAndSegmentTask (processTranscodeAndSegmentsParams : TaskParams) :=
  addTask PROCESS_NAMES.processTranscodeAndSegments processTranscodeAndSegmentsParams.

(** A job taken from the queue: the processor registered under its name
    runs on its data; [None] when no processor is registered under it. *)
Definition runJob (job : string * Payload) (r : Redis) : option (JobOutcome * Redis) :=
  match processorFor job.1 registeredProcessors with
  | Some processor => Some (processor (destructure job.2) r)
  | None => None
  end.

End Queue.

Arguments RespValue {Response} r.
Arguments RespMessage {Response} m.
Arguments DoneResponse {Response} response.
Arguments DoneError {Response} err.
Arguments Rejected {Response}.
Arguments Build_TaskParams {Req} _ _.
Arguments logContext {Req} _.
Arguments req {Req} _.
Arguments Build_JobData {Req} _.
Arguments trackContentUploadParams {Req} _.
Arguments status {Response} _.
Arguments resp {Response} _.
Arguments value {Response} _.
Arguments EX {Response} _.
Arguments trackContentUpload {Response Req} _.
Arguments transcodeAndSegment {Response Req} _.
Arguments processTrackTranscodeAndSegments {Response Req} _.
Arguments statusEntry {Response} status resp.
Arguments monitorProgress {Response Req} taskType func params.
Arguments process_trackContentUpload {Response Req} fns.
Arguments process_transcodeAndSegment {Response Req} fns.
Arguments registeredProcessors {Response Req} fns.
Arguments processorFor {Response Req} name ps.
Arguments PayloadParams {Req} params.
Arguments PayloadWrapped {Req} params.
Arguments destructure {Req} data.
Arguments addTask {Req} task params.
Arguments addTrackContentUploadTask {Req} trackContentUploadParams.
Arguments addTranscodeAndSegmentTask {Req} transcodeAndSegmentParams.
Arguments addProcessTranscodeAndSegmentTask {Req} processTranscodeAndSegmentsParams.
Arguments runJob {Response Req} fns job r.

End FileProcessingQueue.

(** ** ServiceRegistry: the identity bootstrap loops *)
Module ServiceRegistry.

(** One call to the chain client: it throws, or returns a value. *)
Inductive Attempt (A : Type) :=
| Throws
| Returns (a : A).
Arguments Throws {A}.
Arguments Returns {A} a.

(** The chain client ([this.libs]) and the registration manager as
    oracles: the answer to the [k]-th call of each loop, counted from 0. *)
Record Libs := {
  (* ethContracts.ServiceProviderFactoryClient.getServiceProviderIdFromEndpoint(endpoint) *)
  getServiceProviderIdFromEndpoint : nat -> Attempt Z;
  (* contracts.initUserReplicaSetManagerClient(false); the value says
     whether contracts.UserReplicaSetManagerClient is set afterwards *)
  initUserReplicaSetManagerClient : nat -> Attempt bool;
  (* URSMRegistrationManager.run() *)
  URSMRegistrationManager_run : nat -> Attempt unit
}.

(** What the loops read and write: the [spID] entry of [nodeConfig], the
    [devMode] entry, and every [utils.timeout(ms, false)] awaited so far,
    oldest first. *)
Record Node := {
  spID : option Z;
  devMode : bool;
  timeouts : list Z
}.

Definition nodeConfig_set_spID (id : Z) (n : Node) : Node :=
  {| spID := Some id; devMode := devMode n; timeouts := timeouts n |}.

Definition utils_timeout (ms : Z) (n : Node) : Node :=
  {| spID := spID n; devMode := devMode n; timeouts := timeouts n ++ [ms] |}.

(** The node after [k] more rounds of [utils.timeout(ms, false)]. *)
Definition waited (ms : Z) (k : nat) (n : Node) : Node :=
  {| spID := spID n; devMode := devMode n; timeouts := timeouts n ++ replicate k ms |}.

(** A loop that has not left its [while] after the iterations it was
    given is still running; one that has is completed. *)
Inductive Run :=
| Completed (n : Node)
| StillRunning (n : Node).

(** The shape of the three loops:
    [while (!isInitialized) { try { body } catch (e) { }  await utils.timeout(retryTimeoutMs, false) }]
    where [body attempt n] is [Some n'] when the body reaches
    [isInitialized = true; break] leaving the node as [n'], and [None]
    when it falls through or throws. [fuel] bounds the iterations run. *)
Fixpoint retryLoop (fuel : nat) (retryTimeoutMs : Z)
    (body : nat -> Node -> option Node) (attempt : nat) (n : Node) : Run :=
  match fuel with
  | O => StillRunning n
  | S fuel' =>
      match body attempt n with
      | Some n' => Completed n'
      | None => retryLoop fuel' retryTimeoutMs body (S attempt) (utils_timeout retryTimeoutMs n)
      end
  end.

Section Bootstrap.

Variable libs : Libs.

(** A call that does not yield a non-zero id: it returns 0 or throws. *)
Definition unresolved (k : nat) : Prop :=
  getServiceProviderIdFromEndpoint libs k = Returns 0 \/
  getServiceProviderIdFromEndpoint libs k = Throws.

(** The [try] block of [_recoverNodeL1Identity]. *)
Definition recoverNodeL1Identity_body (attempt : nat) (n : Node) : option Node :=
  match getServiceProviderIdFromEndpoint libs attempt with
  | Returns spID => if decide (spID <> 0) then Some (nodeConfig_set_spID spID n) else None
  | Throws => None
  end.

(** [async _recoverNodeL1Identity()] *)
Definition _recoverNodeL1Identity (fuel : nat) (n : Node) : Run :=
  let retryTimeoutMs := 5000 in
  retryLoop fuel retryTimeoutMs recoverNodeL1Identity_body 0 n.

(** The [try] block of the first loop of [_registerNodeOnL2URSM]. *)
Definition initURSMClient_body (attempt : nat) (n : Node) : option Node :=
  match initUserReplicaSetManagerClient libs attempt with
  | Returns clientSet => if clientSet then Some n else None
  | Throws => None
  end.

(** The [try] block of its second loop. *)
Definition registerOnURSM_body (attempt : nat) (n : Node) : option Node :=
  match URSMRegistrationManager_run libs attempt with
  | Returns _ => Some n
  | Throws => None
  end.

(** [async _registerNodeOnL2URSM()]: each loop may run [fuel] iterations. *)
Definition _registerNodeOnL2URSM (fuel : nat) (n : Node) : Run :=
  let retryTimeoutMs := if devMode n then 10000 else 600000 in
  match retryLoop fuel retryTimeoutMs initURSMClient_body 0 n with
  | StillRunning n' => StillRunning n'
  | Completed n1 =>
      let retryTimeoutMs := 10000 in
      retryLoop fuel retryTimeoutMs registerOnURSM_body 0 n1
  end.

End Bootstrap.

(** A chain on which the endpoint resolves to 0 twice and then to 7, the
    registry contract appears at the second poll, and registration
    succeeds at the third attempt. *)
Definition slowChain : Libs :=
  {| getServiceProviderIdFromEndpoint := fun k => if (k <? 2)%nat then Returns 0 else Returns 7;
     initUserReplicaSetManagerClient := fun k => Returns (negb (k <? 1)%nat);
     URSMRegistrationManager_run := fun k => if (k <? 2)%nat then Throws else Returns tt |}.

Definition freshNode (devMode : bool) : Node :=
  {| spID := None; devMode := devMode; timeouts := [] |}.

End ServiceRegistry.

(** ** utils.js: findCIDInNetwork *)
Module Utils.

Import ServiceRegistry (Attempt, Throws, Returns).

(** A service-provider object [{ owner, endpoint, spID, ... }]; the code
    below reads its [endpoint] only. *)
Record ContentNode := { endpoint : string; spID : Z }.

(** One pass through the [try] block for a node. The request
    [GET <endpoint>/file_lookup] rejects (time-out, error status), or
    resolves with or without a body stream. With a body, either the
    stream is written, hashed and, on a mismatch, unlinked without a
    fault ([LookupData]), or one of these steps throws
    ([LookupDataFault]): the stream breaks, or [writeStreamToFileSystem],
    [generateNonImageMultihash] or [fs.unlink] fails. [onDisk] is what the
    file at [filePath] then holds: the bytes written so far, complete or
    not, or [None] when the fault came before the file was opened. *)
Inductive FileLookup :=
| LookupRejects
| LookupNoData
| LookupData (bytes : list Byte.byte)
| LookupDataFault (onDisk : option (list Byte.byte)).

(** The collaborators of the module. [generateNonImageMultihash] comes
    from ./ipfsAdd, which is not part of the sources: it is taken as a
    parameter, the content hash of a file's bytes. *)
Record Env := {
  creatorNodeEndpoint : string;                 (* config.get('creatorNodeEndpoint') *)
  getServiceProviderList : Attempt (list ContentNode);
  file_lookup : string -> string -> option Z -> FileLookup;
  generateNonImageMultihash : list Byte.byte -> string
}.

(** The file system, and the two redis keys the module uses: the cached
    list ['all_registered_cnodes'] and today's set [attempted_fs_fixes:<date>]. *)
Record State := {
  fs : gmap string (list Byte.byte);
  all_registered_cnodes : option (list ContentNode);
  attempted_fs_fixes : gset string
}.

Definition set_fs (f : gmap string (list Byte.byte)) (st : State) : State :=
  {| fs := f; all_registered_cnodes := all_registered_cnodes st;
     attempted_fs_fixes := attempted_fs_fixes st |}.

(** [async getAllRegisteredCNodes(libs, logger)] *)
Definition getAllRegisteredCNodes (env : Env) (st : State) : list ContentNode * State :=
  match all_registered_cnodes st with
  | Some cnodesList => (cnodesList, st)
  | None =>
      match getServiceProviderList env with
      | Returns creatorNodes =>
          let creatorNodes :=
            filter (fun node => endpoint node <> creatorNodeEndpoint env) creatorNodes in
          (creatorNodes,
           {| fs := fs st; all_registered_cnodes := Some creatorNodes;
              attempted_fs_fixes := attempted_fs_fixes st |})
      | Throws => ([], st)
      end
  end.

(** [async getIfAttemptedStateFix(filePath)]: [sadd] answers 1 for a new
    member and 0 for one already in the set. *)
Definition getIfAttemptedStateFix (filePath : string) (st : State) : bool * State :=
  let firstTime := bool_decide (filePath ∉ attempted_fs_fixes st) in
  (negb firstTime,
   {| fs := fs st; all_registered_cnodes := all_registered_cnodes st;
      attempted_fs_fixes := {[filePath]} ∪ attempted_fs_fixes st |}).

(** [writeStreamToFileSystem(inputStream, expectedStoragePath, true)] *)
Definition writeStreamToFileSystem (inputStream : list Byte.byte)
    (expectedStoragePath : string) (st : State) : State :=
  set_fs (<[expectedStoragePath := inputStream]> (fs st)) st.

(** [fs.unlink(filePath)] *)
Definition fs_unlink (filePath : string) (st : State) : State :=
  set_fs (delete filePath (fs st)) st.

(** The [for] loop of [findCIDInNetwork] over [creatorNodesFiltered],
    returning the final value of [found]. An exception inside the [try]
    is logged and the loop continues with the next node. *)
Fixpoint lookupLoop (env : Env) (filePath cid : string) (trackId : option Z)
    (creatorNodesFiltered : list ContentNode) (st : State) : bool * State :=
  match creatorNodesFiltered with
  | [] => (false, st)
  | node :: rest =>
      match file_lookup env (endpoint node) filePath trackId with
      | LookupRejects => lookupLoop env filePath cid trackId rest st
      | LookupNoData => lookupLoop env filePath cid trackId rest st
      | LookupDataFault onDisk =>
          let st := match onDisk with
                    | Some bytes => writeStreamToFileSystem bytes filePath st
                    | None => st
                    end in
          (* catch (e): continue *)
          lookupLoop env filePath cid trackId rest st
      | LookupData data =>
          let st := writeStreamToFileSystem data filePath st in
          (* Verify that the file written matches the hash expected *)
          match fs st !! filePath with
          | None => lookupLoop env filePath cid trackId rest st
          | Some written =>
              let ipfsHashOnly := generateNonImageMultihash env written in
              let st := if decide (cid <> ipfsHashOnly) then fs_unlink filePath st else st in
              (* found = true; break *)
              (true, st)
          end
      end
  end.

(** [async findCIDInNetwork(filePath, cid, logger, libs, trackId, excludeList)].
    The result is [None] where the function returns without a value. *)
Definition findCIDInNetwork (env : Env) (filePath cid : string)
    (trackId : option Z) (excludeList : list string) (st : State)
  : option bool * State :=
  let '(attemptedStateFix, st) := getIfAttemptedStateFix filePath st in
  if attemptedStateFix then (None, st) else
  let '(creatorNodes, st) := getAllRegisteredCNodes env st in
  if decide (length creatorNodes = 0%nat) then (None, st) else
  let creatorNodesFiltered :=
    filter (fun c => endpoint c ∉ excludeList) creatorNodes in
  let '(found, st) := lookupLoop env filePath cid trackId creatorNodesFiltered st in
  (Some found, st).

(** A peer that serves other bytes than the ones asked for: the only
    registered node answers every lookup with the bytes of "xx", and the
    stand-in hash of a file is "Qm" followed by its bytes. *)
Definition corruptPeer : Env :=
  {| creatorNodeEndpoint := "http://cn1";
     getServiceProviderList := Returns [{| endpoint := "http://cn2"; spID := 2 |}];
     file_lookup := fun _ _ _ => LookupData [Byte.x78; Byte.x78];
     generateNonImageMultihash := fun bytes => "Qm" +:+ String.string_of_list_byte bytes |}.

Definition emptyDisk : State :=
  {| fs := ∅;
     all_registered_cnodes := Some [{| endpoint := "http://cn2"; spID := 2 |}];
     attempted_fs_fixes := ∅ |}.

(** A peer whose answer breaks off: the only registered node sends a
    body, and the stream fails after the byte "a" has been written. *)
Definition brokenStreamPeer : Env :=
  {| creatorNodeEndpoint := "http://cn1";
     getServiceProviderList := Returns [{| endpoint := "http://cn2"; spID := 2 |}];
     file_lookup := fun _ _ _ => LookupDataFault (Some [Byte.x61]);
     generateNonImageMultihash := fun bytes => "Qm" +:+ String.string_of_list_byte bytes |}.

End Utils.

(** ** services/sync/processSync.js *)
Module ProcessSync.

(** *** The tables ([models]) *)

Module CNodeUser.
(** Modelled from the spec: the CNodeUser model is not part of the
    sources; the fields are those of the spec's User Record, under the
    names the function uses. *)
Record t := {
  cnodeUserUUID : string;
  walletPublicKey : string;
  lastLogin : string;
  latestBlockNumber : Z;
  clock : Z;
  createdAt : string
}.
End CNodeUser.

Module ClockRecord.
(** Modelled from the spec: the ClockRecord model is not part of the
    sources; the fields are those of the spec's Clock Log Row. *)
Record t := {
  cnodeUserUUID : string;
  clock : Z;
  sourceTable : string;
  createdAt : string
}.
End ClockRecord.

Module File.
(** The spec's [type ∈ {track, image, metadata, copy320, dir}]. *)
Inductive FileType := track | copy320 | image | metadata | dir.

#[global] Instance FileType_eq_dec : EqDecision FileType.
Proof. solve_decision. Defined.

(** Modelled from the spec: the File model is not part of the sources;
    the fields are those of the spec's File Descriptor. *)
Record t := {
  fileUUID : string;
  cnodeUserUUID : string;
  trackBlockchainId : option Z;
  multihash : string;
  fileName : option string;
  dirMultihash : option string;
  storagePath : string;
  type : FileType;
  skipped : bool
}.

(** Modelled from the spec: [models.File.TrackTypes] is declared in the
    File model, which is not part of the sources; the spec's track files
    are the files whose type is a track-audio variant. *)
Definition TrackTypes : list FileType := [track; copy320].

(** Modelled from the spec: [models.File.NonTrackTypes] is declared in
    the File model, which is not part of the sources; the spec's
    non-track files are those of the other three types. *)
Definition NonTrackTypes : list FileType := [dir; image; metadata].
End File.

Module Track.
(** Modelled from the spec: the Track model is not part of the sources;
    the fields follow the spec's Track Record. *)
Record t := {
  cnodeUserUUID : string;
  trackBlockchainId : Z;
  metadataMultihash : string;
  coverArtMultihash : option string;
  createdAt : string
}.
End Track.

Module AudiusUser.
(** Modelled from the spec: the AudiusUser model is not part of the
    sources; the fields follow the spec's AudiusUser Record. *)
Record t := {
  cnodeUserUUID : string;
  metadataMultihash : string;
  coverPhoto : option string;
  profilePicture : option string
}.
End AudiusUser.

(** The database: one list of rows per table, oldest row first. *)
Record DB := {
  CNodeUsers : list CNodeUser.t;
  ClockRecords : list ClockRecord.t;
  Files : list File.t;
  Tracks : list Track.t;
  AudiusUsers : list AudiusUser.t
}.

(** *** The export received from the primary *)

(** One entry of [body.data.cnodeUsers]. [walletPublicKey] is [None] when
    the object has no such property. *)
Module Fetched.
Record t := {
  walletPublicKey : option string;
  clock : Z;
  latestBlockNumber : Z;
  lastLogin : string;
  createdAt : string;
  clockRecords : list ClockRecord.t;
  files : list File.t;
  tracks : list Track.t;
  audiusUsers : list AudiusUser.t
}.
End Fetched.

(** [exportQueryParams] *)
Record ExportQueryParams := {
  wallet_public_key : list string;
  clock_range_min : Z;
  source_endpoint : option string
}.

(** [resp.data.data] when it has [cnodeUsers] and [ipfsIDObj.addresses]. *)
Record ExportData := {
  cnodeUsers : list Fetched.t;       (* Object.values(body.data.cnodeUsers) *)
  ipfsIDObj_addresses : list string
}.

(** The axios response: [export] is [None] when [resp.data] is missing
    and cannot be parsed from the response text, or lacks a property. *)
Record AxiosResponse := {
  status : Z;
  data_error : string;               (* resp.data.error *)
  export : option ExportData
}.

(** *** Errors

    One constructor per [throw new Error(...)] of the file, carrying the
    values its message interpolates; [ErrAxios] and [ErrSequelize] are
    rejections of the HTTP client and of the database. *)
Inductive SyncError :=
| ErrSyncInProgress (wallet : string)
    (* Cannot change state of wallet ... Node sync currently in progress. *)
| ErrAxios (msg : string)
| ErrExportStatus (error : string)                   (* throw new Error(resp.data.error) *)
| ErrMalformedResponse                               (* Malformed response from ... *)
| ErrNoWalletPublicKey                               (* "walletPublicKey" property not found *)
| ErrWalletNotRequested
    (* Returned data for walletPublicKey that was not requested. *)
| ErrClockRegression (localMaxClockVal fetchedLatestClockVal : Z)
    (* Cannot sync for localMaxClockVal ... - imported data has max clock val ... *)
| ErrNonContiguous (localMaxClockVal importedMinClockVal : Z)
    (* Cannot sync - imported data is not contiguous. *)
| ErrUpdateFailed (wallet : string)                  (* Failed to update cnodeUser row *)
| ErrSaveFileFailed (numCIDsThatFailedSaveFileOp userSyncFailureCount
                     SyncRequestMaxUserFailureCountBeforeSkip : nat)
    (* User Sync failed due to ... failing saveFileForMultihashToFS op. *)
| ErrSequelize (msg : string)
| ErrTransaction (e : SyncError).                    (* throw new Error(e) after rollback *)

(** *** Everything the function reaches outside itself *)

Inductive AxiosResult :=
| AxiosRejects (msg : string)
| AxiosResolves (resp : AxiosResponse).

Record Env := {
  (* nodeConfig *)
  nodeSyncFileSaveMaxConcurrency : positive;
  syncRequestMaxUserFailureCountBeforeSkip : nat;
  creatorNodeEndpoint : string;
  (* axios({ method: 'get', baseURL, url: '/export', params }) *)
  axios_export : string -> ExportQueryParams -> AxiosResult;
  (* getOwnEndpoint(serviceRegistry); None when it throws *)
  getOwnEndpoint : option string;
  (* getCreatorNodeEndpoints({ wallet, blockNumber, myCnodeEndpoint }); None when it throws *)
  getCreatorNodeEndpoints : string -> option Z -> string -> option (list string);
  (* saveFileForMultihashToFS(serviceRegistry, logger, multihash, storagePath,
     gateways, fileName, trackBlockchainId): never rejects, answers success *)
  saveFileForMultihashToFS :
    string -> string -> list string -> option string -> option Z -> bool;
  (* the cnodeUserUUID the database generates for a new CNodeUser row *)
  defaultCNodeUserUUID : string -> string;
  (* a rejection of the first bulkCreate of a user's transaction, if any;
     the other database calls are taken to succeed *)
  sequelizeRejects : string -> option string
}.

Inductive Event :=
| EvSetLock (redisKey : string)
| EvRemoveLock (redisKey : string)
| EvDeleteAllCNodeUserData (lookupWallet : string)
| EvDeleteAllCNodeUserDataUndefined
| EvExport (baseURL : string) (params : ExportQueryParams)
| EvTransaction
| EvCommit
| EvRollback
| EvRecordSyncSuccess (wallet : string)
| EvRecordSyncFail (wallet : string).

(** The stores the function reads and writes: the database, the redis
    lock keys, the failure counters of [UserSyncFailureCountManager], and
    the calls made to the outside, oldest first. *)
Record State := {
  db : DB;
  redisLocks : gset string;
  walletToSyncFailureCount : gmap string nat;
  log : list Event
}.

Definition set_db (d : DB) (st : State) : State :=
  {| db := d; redisLocks := redisLocks st;
     walletToSyncFailureCount := walletToSyncFailureCount st; log := log st |}.

Definition set_redisLocks (l : gset string) (st : State) : State :=
  {| db := db st; redisLocks := l;
     walletToSyncFailureCount := walletToSyncFailureCount st; log := log st |}.

Definition set_walletToSyncFailureCount (c : gmap string nat) (st : State) : State :=
  {| db := db st; redisLocks := redisLocks st;
     walletToSyncFailureCount := c; log := log st |}.

Definition record (e : Event) (st : State) : State :=
  {| db := db st; redisLocks := redisLocks st;
     walletToSyncFailureCount := walletToSyncFailureCount st; log := log st ++ [e] |}.

Definition M (A : Type) : Type := Eff.M State SyncError A.

Definition emit (e : Event) : M unit := Eff.modify (record e).

(** *** The redis lock

    [redis.lock] and [redis.getNodeSyncRedisKey] live in the redis module,
    which is not part of the sources. *)

(** Modelled from the spec: [redis.getNodeSyncRedisKey] is missing; the
    spec gives the key space of the lock as [node_sync:{wallet}]. *)
Definition getNodeSyncRedisKey (wallet : string) : string := "node_sync:" +:+ wallet.

(** Modelled from the spec: [redis.lock.getLock] is missing; the spec's
    per-user lock is held when its key is in the coordination store. *)
Definition getLock (redisKey : string) (st : State) : bool :=
  bool_decide (redisKey ∈ redisLocks st).

(** Modelled from the spec: [redis.lock.setLock] is missing; it sets the
    lock's key (the spec's TTL is not counted down here). *)
Definition setLock (redisKey : string) (st : State) : State :=
  record (EvSetLock redisKey) (set_redisLocks ({[redisKey]} ∪ redisLocks st) st).

(** Modelled from the spec: [redis.lock.removeLock] is missing; it
    deletes the lock's key ([del(k)]). *)
Definition removeLock (redisKey : string) (st : State) : State :=
  record (EvRemoveLock redisKey) (set_redisLocks (redisLocks st ∖ {[redisKey]}) st).

(** [redisLock.removeLock(redisKey)] on the function-level variable
    [redisKey], which is [undefined] until the lock loop has assigned it. *)
Definition removeLock_var (redisKey : option string) (st : State) : State :=
  match redisKey with
  | Some k => removeLock k st
  | None => st
  end.

(** *** UserSyncFailureCountManager

    The manager is not part of the sources; the spec keeps a per-user
    [sync_failure_count] that is incremented on a failed content fetch
    and reset. *)

(** Modelled from the spec: [getFailureCount] is missing; a wallet never
    counted has count 0. *)
Definition getFailureCount (wallet : string) (st : State) : nat :=
  default 0%nat (walletToSyncFailureCount st !! wallet).

(** Modelled from the spec: [incrementFailureCount] is missing; it
    increments the per-user count and answers the incremented count, which
    its caller compares with the threshold. *)
Definition incrementFailureCount (wallet : string) : M nat :=
  fun st =>
    let newFailureCount := S (getFailureCount wallet st) in
    (inr newFailureCount,
     set_walletToSyncFailureCount
       (<[wallet := newFailureCount]> (walletToSyncFailureCount st)) st).

(** Modelled from the spec: [resetFailureCount] is missing; it resets the
    per-user count to 0. *)
Definition resetFailureCount (wallet : string) : M unit :=
  Eff.modify (fun st =>
    set_walletToSyncFailureCount (<[wallet := 0%nat]> (walletToSyncFailureCount st)) st).

(** *** Database operations *)

(** [models.CNodeUser.findOne({ where: { walletPublicKey } })]; the
    wallet is [None] for [walletPublicKeys[0]] of an empty list, which no
    row matches. *)
Definition CNodeUser_findOne (wallet : option string) (d : DB) : option CNodeUser.t :=
  match wallet with
  | Some w => List.find (fun u => bool_decide (CNodeUser.walletPublicKey u = w)) (CNodeUsers d)
  | None => None
  end.

(** Modelled from the spec: [DBManager.deleteAllCNodeUserDataFromDB] is
    not part of the sources. The spec's [truncate(user)] deletes all rows
    of the user, in every table. *)
Definition deleteAllCNodeUserDataFromDB (lookupWallet : string) (d : DB) : DB :=
  let uuids :=
    map CNodeUser.cnodeUserUUID
      (filter (fun u => CNodeUser.walletPublicKey u = lookupWallet) (CNodeUsers d)) in
  {| CNodeUsers := filter (fun u => CNodeUser.walletPublicKey u <> lookupWallet) (CNodeUsers d);
     ClockRecords := filter (fun r => ClockRecord.cnodeUserUUID r ∉ uuids) (ClockRecords d);
     Files := filter (fun f => File.cnodeUserUUID f ∉ uuids) (Files d);
     Tracks := filter (fun t => Track.cnodeUserUUID t ∉ uuids) (Tracks d);
     AudiusUsers := filter (fun a => AudiusUser.cnodeUserUUID a ∉ uuids) (AudiusUsers d) |}.

(** The row [models.CNodeUser.update] leaves for a matching row. *)
Definition updatedCNodeUser (fetchedCNodeUser : Fetched.t) (u : CNodeUser.t) : CNodeUser.t :=
  {| CNodeUser.cnodeUserUUID := CNodeUser.cnodeUserUUID u;
     CNodeUser.walletPublicKey := CNodeUser.walletPublicKey u;
     CNodeUser.lastLogin := Fetched.lastLogin fetchedCNodeUser;
     CNodeUser.latestBlockNumber := Fetched.latestBlockNumber fetchedCNodeUser;
     CNodeUser.clock := Fetched.clock fetchedCNodeUser;
     CNodeUser.createdAt := Fetched.createdAt fetchedCNodeUser |}.

(** [models.CNodeUser.update(values, { where: { walletPublicKey }, returning: true })]:
    the rows that matched, updated, with the table after the update. *)
Definition CNodeUser_update (fetchedCNodeUser : Fetched.t) (fetchedWalletPublicKey : string)
    (d : DB) : list CNodeUser.t * DB :=
  let matches u := bool_decide (CNodeUser.walletPublicKey u = fetchedWalletPublicKey) in
  let respObj := map (updatedCNodeUser fetchedCNodeUser) (List.filter matches (CNodeUsers d)) in
  (respObj,
   {| CNodeUsers :=
        map (fun u => if matches u then updatedCNodeUser fetchedCNodeUser u else u) (CNodeUsers d);
      ClockRecords := ClockRecords d; Files := Files d; Tracks := Tracks d;
      AudiusUsers := AudiusUsers d |}).

(** [models.CNodeUser.create(values, { returning: true })] *)
Definition CNodeUser_create (env : Env) (fetchedCNodeUser : Fetched.t)
    (fetchedWalletPublicKey : string) (d : DB) : CNodeUser.t * DB :=
  let cnodeUser :=
    {| CNodeUser.cnodeUserUUID := defaultCNodeUserUUID env fetchedWalletPublicKey;
       CNodeUser.walletPublicKey := fetchedWalletPublicKey;
       CNodeUser.lastLogin := Fetched.lastLogin fetchedCNodeUser;
       CNodeUser.latestBlockNumber := Fetched.latestBlockNumber fetchedCNodeUser;
       CNodeUser.clock := Fetched.clock fetchedCNodeUser;
       CNodeUser.createdAt := Fetched.createdAt fetchedCNodeUser |} in
  (cnodeUser,
   {| CNodeUsers := CNodeUsers d ++ [cnodeUser];
      ClockRecords := ClockRecords d; Files := Files d; Tracks := Tracks d;
      AudiusUsers := AudiusUsers d |}).

(** The rows the five [bulkCreate] calls insert. *)
Definition clockRecordRow (cnodeUserUUID : string) (clockRecord : ClockRecord.t) : ClockRecord.t :=
  {| ClockRecord.cnodeUserUUID := cnodeUserUUID;
     ClockRecord.clock := ClockRecord.clock clockRecord;
     ClockRecord.sourceTable := ClockRecord.sourceTable clockRecord;
     ClockRecord.createdAt := ClockRecord.createdAt clockRecord |}.

(** [if (CIDsThatFailedSaveFileOp.has(file.multihash)) file.skipped = true] *)
Definition markSkipped (CIDsThatFailedSaveFileOp : gset string) (file : File.t) : File.t :=
  if decide (File.multihash file ∈ CIDsThatFailedSaveFileOp) then
    {| File.fileUUID := File.fileUUID file; File.cnodeUserUUID := File.cnodeUserUUID file;
       File.trackBlockchainId := File.trackBlockchainId file;
       File.multihash := File.multihash file; File.fileName := File.fileName file;
       File.dirMultihash := File.dirMultihash file; File.storagePath := File.storagePath file;
       File.type := File.type file; File.skipped := true |}
  else file.

(** [{ ...file, trackBlockchainId: null, cnodeUserUUID }] *)
Definition nonTrackFileRow (CIDs : gset string) (cnodeUserUUID : string) (file : File.t) : File.t :=
  let file := markSkipped CIDs file in
  {| File.fileUUID := File.fileUUID file; File.cnodeUserUUID := cnodeUserUUID;
     File.trackBlockchainId := None;
     File.multihash := File.multihash file; File.fileName := File.fileName file;
     File.dirMultihash := File.dirMultihash file; File.storagePath := File.storagePath file;
     File.type := File.type file; File.skipped := File.skipped file |}.

(** [{ ...trackFile, cnodeUserUUID }] *)
Definition trackFileRow (CIDs : gset string) (cnodeUserUUID : string) (trackFile : File.t) : File.t :=
  let trackFile := markSkipped CIDs trackFile in
  {| File.fileUUID := File.fileUUID trackFile; File.cnodeUserUUID := cnodeUserUUID;
     File.trackBlockchainId := File.trackBlockchainId trackFile;
     File.multihash := File.multihash trackFile; File.fileName := File.fileName trackFile;
     File.dirMultihash := File.dirMultihash trackFile;
     File.storagePath := File.storagePath trackFile;
     File.type := File.type trackFile; File.skipped := File.skipped trackFile |}.

Definition trackRow (cnodeUserUUID : string) (track : Track.t) : Track.t :=
  {| Track.cnodeUserUUID := cnodeUserUUID;
     Track.trackBlockchainId := Track.trackBlockchainId track;
     Track.metadataMultihash := Track.metadataMultihash track;
     Track.coverArtMultihash := Track.coverArtMultihash track;
     Track.createdAt := Track.createdAt track |}.

Definition audiusUserRow (cnodeUserUUID : string) (audiusUser : AudiusUser.t) : AudiusUser.t :=
  {| AudiusUser.cnodeUserUUID := cnodeUserUUID;
     AudiusUser.metadataMultihash := AudiusUser.metadataMultihash audiusUser;
     AudiusUser.coverPhoto := AudiusUser.coverPhoto audiusUser;
     AudiusUser.profilePicture := AudiusUser.profilePicture audiusUser |}.

(** The five [bulkCreate] calls of one transaction, in the order
    ClockRecord, non-track File, Track, track File, AudiusUser. *)
Definition bulkCreateAll (fetchedCNodeUser : Fetched.t) (cnodeUserUUID : string)
    (nonTrackFiles trackFiles : list File.t) (CIDs : gset string) (d : DB) : DB :=
  {| CNodeUsers := CNodeUsers d;
     ClockRecords :=
       ClockRecords d ++ map (clockRecordRow cnodeUserUUID) (Fetched.clockRecords fetchedCNodeUser);
     Files :=
       (Files d ++ map (nonTrackFileRow CIDs cnodeUserUUID) nonTrackFiles)
         ++ map (trackFileRow CIDs cnodeUserUUID) trackFiles;
     Tracks := Tracks d ++ map (trackRow cnodeUserUUID) (Fetched.tracks fetchedCNodeUser);
     AudiusUsers :=
       AudiusUsers d ++ map (audiusUserRow cnodeUserUUID) (Fetched.audiusUsers fetchedCNodeUser) |}.

(** *** Saving the files of an export *)

(** The slices [files.slice(i, i + n)] taken by
    [for (let i = 0; i < files.length; i += n)]; [fuel] bounds the
    iterations, and [length files] of them are enough as [n] is positive. *)
Fixpoint slicesFrom {A} (fuel n i : nat) (files : list A) : list (list A) :=
  match fuel with
  | O => []
  | S fuel' =>
      if decide (i < length files)%nat
      then take n (drop i files) :: slicesFrom fuel' n (i + n) files
      else []
  end.

Definition slices {A} (FileSaveMaxConcurrency : positive) (files : list A) : list (list A) :=
  slicesFrom (length files) (Pos.to_nat FileSaveMaxConcurrency) 0 files.

(** One [trackFilesSlice.map(async (trackFile) => ...)] callback, on the
    set [CIDsThatFailedSaveFileOp]. *)
Definition saveTrackFile (env : Env) (userReplicaSet : list string)
    (CIDsThatFailedSaveFileOp : gset string) (trackFile : File.t) : gset string :=
  let success :=
    saveFileForMultihashToFS env (File.multihash trackFile) (File.storagePath trackFile)
      userReplicaSet None (File.trackBlockchainId trackFile) in
  if success then CIDsThatFailedSaveFileOp
  else {[File.multihash trackFile]} ∪ CIDsThatFailedSaveFileOp.

(** One [nonTrackFilesSlice.map(async (nonTrackFile) => ...)] callback. *)
Definition saveNonTrackFile (env : Env) (userReplicaSet : list string)
    (CIDsThatFailedSaveFileOp : gset string) (nonTrackFile : File.t) : gset string :=
  if decide (File.type nonTrackFile <> File.dir) then
    let multihash := File.multihash nonTrackFile in
    let success :=
      if decide (File.type nonTrackFile = File.image /\ File.fileName nonTrackFile <> None)
      then saveFileForMultihashToFS env multihash (File.storagePath nonTrackFile)
             userReplicaSet (File.fileName nonTrackFile) None
      else saveFileForMultihashToFS env multihash (File.storagePath nonTrackFile)
             userReplicaSet None None in
    if success then CIDsThatFailedSaveFileOp
    else {[multihash]} ∪ CIDsThatFailedSaveFileOp
  else CIDsThatFailedSaveFileOp.

(** A batched save loop: the slices in order, every file of a slice. *)
Definition saveInBatches (env : Env) (save : gset string -> File.t -> gset string)
    (files : list File.t) (CIDs : gset string) : gset string :=
  foldl (fun CIDs filesSlice => foldl save CIDs filesSlice) CIDs
        (slices (nodeSyncFileSaveMaxConcurrency env) files).

Definition trackFilesOf (fetchedCNodeUser : Fetched.t) : list File.t :=
  filter (fun file => File.type file ∈ File.TrackTypes) (Fetched.files fetchedCNodeUser).

Definition nonTrackFilesOf (fetchedCNodeUser : Fetched.t) : list File.t :=
  filter (fun file => File.type file ∈ File.NonTrackTypes) (Fetched.files fetchedCNodeUser).

(** [CIDsThatFailedSaveFileOp] after both save loops. *)
Definition CIDsThatFailedSaveFileOp (env : Env) (userReplicaSet : list string)
    (fetchedCNodeUser : Fetched.t) : gset string :=
  saveInBatches env (saveNonTrackFile env userReplicaSet) (nonTrackFilesOf fetchedCNodeUser)
    (saveInBatches env (saveTrackFile env userReplicaSet) (trackFilesOf fetchedCNodeUser) ∅).

(** [[...new Set(urls)]]: the first occurrence of each url, in order. *)
Fixpoint uniq (seen urls : list string) : list string :=
  match urls with
  | [] => []
  | url :: rest =>
      if decide (url ∈ seen) then uniq seen rest else url :: uniq (url :: seen) rest
  end.

(** The user's replica set without this node, [[]] when it cannot be read. *)
Definition userReplicaSetOf (env : Env) (wallet : string) (blockNumber : option Z) : list string :=
  match getOwnEndpoint env with
  | None => []
  | Some myCnodeEndpoint =>
      match getCreatorNodeEndpoints env wallet blockNumber myCnodeEndpoint with
      | None => []
      | Some userReplicaSet =>
          uniq [] (filter (fun url => url <> myCnodeEndpoint) userReplicaSet)
      end
  end.

(** *** The transaction of one fetched user

    The [try] block that follows [models.sequelize.transaction()]. The
    writes made with [{ transaction }] go to [d], the transaction's view
    of the database; [transaction.commit()] makes it the database. *)
Definition transactionBody (env : Env) (redisKey : option string)
    (fetchedCNodeUser : Fetched.t) (fetchedWalletPublicKey : string)
    (userReplicaSet : list string) : M unit :=
  (d <~ Eff.gets db ;;
   created <~
     match CNodeUser_findOne (Some fetchedWalletPublicKey) d with
     | Some cnodeUserRecord =>
         let '(respObj, d) := CNodeUser_update fetchedCNodeUser fetchedWalletPublicKey d in
         match respObj with
         | [cnodeUser] => Eff.ret (cnodeUser, d)
         | _ => Eff.throw (ErrUpdateFailed fetchedWalletPublicKey)
         end
     | None => Eff.ret (CNodeUser_create env fetchedCNodeUser fetchedWalletPublicKey d)
     end ;;
   let '(cnodeUser, d) := created in
   let cnodeUserUUID := CNodeUser.cnodeUserUUID cnodeUser in
   let trackFiles := trackFilesOf fetchedCNodeUser in
   let nonTrackFiles := nonTrackFilesOf fetchedCNodeUser in
   let CIDs := CIDsThatFailedSaveFileOp env userReplicaSet fetchedCNodeUser in
   let numCIDsThatFailedSaveFileOp := size CIDs in
   (if decide (0 < numCIDsThatFailedSaveFileOp)%nat then
      userSyncFailureCount <~ incrementFailureCount fetchedWalletPublicKey ;;
      if decide (userSyncFailureCount < syncRequestMaxUserFailureCountBeforeSkip env)%nat
      then Eff.throw (ErrSaveFileFailed numCIDsThatFailedSaveFileOp userSyncFailureCount
                        (syncRequestMaxUserFailureCountBeforeSkip env))
      else resetFailureCount fetchedWalletPublicKey
    else resetFailureCount fetchedWalletPublicKey) ;;;
   match sequelizeRejects env fetchedWalletPublicKey with
   | Some msg => Eff.throw (ErrSequelize msg)
   | None => Eff.ret tt
   end ;;;
   let d := bulkCreateAll fetchedCNodeUser cnodeUserUUID nonTrackFiles trackFiles CIDs d in
   Eff.modify (set_db d) ;;;
   emit EvCommit ;;;
   Eff.modify (removeLock_var redisKey) ;;;
   emit (EvRecordSyncSuccess fetchedWalletPublicKey))%eff.

(** [const transaction = await models.sequelize.transaction()] and the
    [try { ... } catch (e) { ... }] around the user's updates. *)
Definition syncTransaction (env : Env) (redisKey : option string)
    (fetchedCNodeUser : Fetched.t) (fetchedWalletPublicKey : string)
    (userReplicaSet : list string) : M unit :=
  (emit EvTransaction ;;;
   Eff.tryCatch
     (transactionBody env redisKey fetchedCNodeUser fetchedWalletPublicKey userReplicaSet)
     (fun e =>
        emit EvRollback ;;;
        Eff.modify (removeLock_var redisKey) ;;;
        Eff.throw (ErrTransaction e)))%eff.

(** The body of [for (const fetchedCNodeUser of Object.values(body.data.cnodeUsers))]. *)
Definition syncCNodeUser (env : Env) (walletPublicKeys : list string)
    (blockNumber : option Z) (redisKey : option string) (localMaxClockVal : Z)
    (fetchedCNodeUser : Fetched.t) : M unit :=
  match Fetched.walletPublicKey fetchedCNodeUser with
  | None => Eff.throw ErrNoWalletPublicKey
  | Some fetchedWalletPublicKey =>
      let userReplicaSet := userReplicaSetOf env fetchedWalletPublicKey blockNumber in
      if decide (fetchedWalletPublicKey ∉ walletPublicKeys) then Eff.throw ErrWalletNotRequested
      else
        let fetchedLatestClockVal := Fetched.clock fetchedCNodeUser in
        let fetchedClockRecords := Fetched.clockRecords fetchedCNodeUser in
        if decide (fetchedLatestClockVal < localMaxClockVal) then
          Eff.throw (ErrClockRegression localMaxClockVal fetchedLatestClockVal)
        else if decide (fetchedLatestClockVal = localMaxClockVal) then
          Eff.ret tt (* continue *)
        else
          match head fetchedClockRecords with
          | Some first =>
              if decide (localMaxClockVal <> -1 /\
                         ClockRecord.clock first <> localMaxClockVal + 1)
              then Eff.throw (ErrNonContiguous localMaxClockVal (ClockRecord.clock first))
              else syncTransaction env redisKey fetchedCNodeUser fetchedWalletPublicKey
                     userReplicaSet
          | None =>
              (* fetchedClockRecords[0] is undefined: the test is false *)
              syncTransaction env redisKey fetchedCNodeUser fetchedWalletPublicKey
                userReplicaSet
          end
  end.

(** *** processSync *)

(** The lock loop, [for (const wallet of walletPublicKeys)]: the error it
    returns early with, if any, and the variable [redisKey] as it leaves it. *)
Fixpoint acquireLocks (walletPublicKeys : list string) (redisKey : option string)
    (st : State) : option SyncError * option string * State :=
  match walletPublicKeys with
  | [] => (None, redisKey, st)
  | wallet :: rest =>
      let redisKey := getNodeSyncRedisKey wallet in
      let lockHeld := getLock redisKey st in
      if lockHeld then (Some (ErrSyncInProgress wallet), Some redisKey, st)
      else acquireLocks rest (Some redisKey) (setLock redisKey st)
  end.

(** The clock baseline [localMaxClockVal] (first statements of the outer
    [try]). [walletPublicKeys[0]] is [None] for an empty list: no row is
    found for it, and a forced resync calls the deletion with
    [lookupWallet] undefined. *)
Definition clockBaseline (walletPublicKeys : list string) (forceResync : bool) : M Z :=
  let wallet := head walletPublicKeys in
  if forceResync then
    (match wallet with
     | Some lookupWallet =>
         Eff.modify (fun st =>
           record (EvDeleteAllCNodeUserData lookupWallet)
                  (set_db (deleteAllCNodeUserDataFromDB lookupWallet (db st)) st))
     | None =>
         (* lookupWallet is undefined: the call is made and names no user *)
         emit EvDeleteAllCNodeUserDataUndefined
     end ;;;
     Eff.ret (-1))%eff
  else
    (cnodeUser <~ Eff.gets (fun st => CNodeUser_findOne wallet (db st)) ;;
     Eff.ret match cnodeUser with
             | Some cnodeUser => CNodeUser.clock cnodeUser
             | None => -1
             end)%eff.

(** [exportQueryParams]; [source_endpoint] is set when the configured
    endpoint is a non-empty string. *)
Definition exportQueryParamsOf (env : Env) (walletPublicKeys : list string)
    (localMaxClockVal : Z) : ExportQueryParams :=
  {| wallet_public_key := walletPublicKeys;
     clock_range_min := localMaxClockVal + 1;
     source_endpoint :=
       if decide (creatorNodeEndpoint env = "") then None
       else Some (creatorNodeEndpoint env) |}.

(** The outer [try] block. The call that peers with the primary's IPFS
    node runs in the background and is not awaited; it is left out. *)
Definition syncOperations (env : Env) (walletPublicKeys : list string)
    (creatorNodeEndpoint : string) (blockNumber : option Z) (forceResync : bool)
    (redisKey : option string) : M unit :=
  (localMaxClockVal <~ clockBaseline walletPublicKeys forceResync ;;
   let exportQueryParams := exportQueryParamsOf env walletPublicKeys localMaxClockVal in
   emit (EvExport creatorNodeEndpoint exportQueryParams) ;;;
   match axios_export env creatorNodeEndpoint exportQueryParams with
   | AxiosRejects msg => Eff.throw (ErrAxios msg)
   | AxiosResolves resp =>
       if decide (status resp <> 200) then Eff.throw (ErrExportStatus (data_error resp))
       else
         match export resp with
         | None => Eff.throw ErrMalformedResponse
         | Some data =>
             Eff.forEach
               (syncCNodeUser env walletPublicKeys blockNumber redisKey localMaxClockVal)
               (cnodeUsers data)
         end
   end)%eff.

(** [SyncHistoryAggregator.recordSyncFail(wallet)] for every wallet (the
    outer [catch]). *)
Definition recordSyncFails (walletPublicKeys : list string) (st : State) : State :=
  foldl (fun st wallet => record (EvRecordSyncFail wallet) st) st walletPublicKeys.

(** The [finally] block: release all redis locks. *)
Definition releaseLocks (walletPublicKeys : list string) (st : State) : State :=
  foldl (fun st wallet => removeLock (getNodeSyncRedisKey wallet) st) st walletPublicKeys.

(** [async function processSync(serviceRegistry, walletPublicKeys,
    creatorNodeEndpoint, blockNumber = null, forceResync = false)]: the
    [errorObj] it returns ([None] for [null]) and the stores it leaves. *)
Definition processSync (env : Env) (walletPublicKeys : list string)
    (creatorNodeEndpoint : string) (blockNumber : option Z) (forceResync : bool)
    (st : State) : option SyncError * State :=
  match acquireLocks walletPublicKeys None st with
  | (Some errorObj, _, st) => (Some errorObj, st) (* return errorObj *)
  | (None, redisKey, st) =>
      let '(errorObj, st) :=
        match syncOperations env walletPublicKeys creatorNodeEndpoint blockNumber
                forceResync redisKey st with
        | (inl e, st) => (Some e, recordSyncFails walletPublicKeys st)
        | (inr _, st) => (None, st)
        end in
      (errorObj, releaseLocks walletPublicKeys st)
  end.

(** *** Notions used to state what a run leaves *)

(** The state after the lock loop has set the lock of every wallet. *)
Definition lockAll (walletPublicKeys : list string) (st : State) : State :=
  foldl (fun st wallet => setLock (getNodeSyncRedisKey wallet) st) st walletPublicKeys.

(** Every wallet of the job is named once and none of their locks is held. *)
Definition locksFree (walletPublicKeys : list string) (st : State) : Prop :=
  NoDup walletPublicKeys /\
  forall wallet, wallet ∈ walletPublicKeys -> getNodeSyncRedisKey wallet ∉ redisLocks st.

(** [walletPublicKey] is a unique key of the CNodeUsers table. *)
Definition walletsUnique (d : DB) : Prop :=
  NoDup (CNodeUser.walletPublicKey <$> CNodeUsers d).

(** The update-or-create step that opens a user's transaction: the local
    row of the user and the transaction's view of the database, or the
    error thrown when the update does not return exactly one row. *)
Definition upsertCNodeUser (env : Env) (fetchedCNodeUser : Fetched.t)
    (fetchedWalletPublicKey : string) (d : DB) : SyncError + CNodeUser.t * DB :=
  match CNodeUser_findOne (Some fetchedWalletPublicKey) d with
  | Some _ =>
      match CNodeUser_update fetchedCNodeUser fetchedWalletPublicKey d with
      | ([cnodeUser], d') => inr (cnodeUser, d')
      | _ => inl (ErrUpdateFailed fetchedWalletPublicKey)
      end
  | None => inr (CNodeUser_create env fetchedCNodeUser fetchedWalletPublicKey d)
  end.

Definition withFailureCount (wallet : string) (count : nat) (st : State) : State :=
  set_walletToSyncFailureCount (<[wallet := count]> (walletToSyncFailureCount st)) st.

(** The state the [catch] block of a user's transaction leaves. *)
Definition rolledBack (redisKey : option string) (st : State) : State :=
  removeLock_var redisKey (record EvRollback (record EvTransaction st)).

(** The state a committed transaction leaves, [d] being its view. *)
Definition committed (redisKey : option string) (wallet : string) (d : DB) (st : State) : State :=
  record (EvRecordSyncSuccess wallet)
    (removeLock_var redisKey (record EvCommit (set_db d (record EvTransaction st)))).

(** The clock baseline a job computes on database [d], and the state the
    baseline step leaves. *)
Definition localMaxClockValOf (walletPublicKeys : list string) (forceResync : bool)
    (d : DB) : Z :=
  if forceResync then -1
  else match CNodeUser_findOne (head walletPublicKeys) d with
       | Some cnodeUser => CNodeUser.clock cnodeUser
       | None => -1
       end.

Definition afterBaseline (walletPublicKeys : list string) (forceResync : bool)
    (st : State) : State :=
  if forceResync then
    match head walletPublicKeys with
    | Some lookupWallet =>
        record (EvDeleteAllCNodeUserData lookupWallet)
               (set_db (deleteAllCNodeUserDataFromDB lookupWallet (db st)) st)
    | None => record EvDeleteAllCNodeUserDataUndefined st
    end
  else st.

(** The calls a fetched user's step can make: those of its transaction. *)
Definition isTransactionEvent (e : Event) : Prop :=
  match e with
  | EvTransaction | EvCommit | EvRollback | EvRemoveLock _ | EvRecordSyncSuccess _ => True
  | _ => False
  end.

(** Calls made after the export request: no lock is set, no user data
    is deleted and no export is requested by them. *)
Definition isAfterExportEvent (e : Event) : Prop :=
  match e with
  | EvSetLock _ | EvDeleteAllCNodeUserData _ | EvDeleteAllCNodeUserDataUndefined
  | EvExport _ _ => False
  | _ => True
  end.

(** The fetch of a file's content fails: the call the save loops make
    for it answers [false]. Directories are not fetched. *)
Definition trackFetchFails (env : Env) (userReplicaSet : list string) (file : File.t) : bool :=
  negb (saveFileForMultihashToFS env (File.multihash file) (File.storagePath file)
          userReplicaSet None (File.trackBlockchainId file)).

Definition nonTrackFetchFails (env : Env) (userReplicaSet : list string) (file : File.t) : bool :=
  if decide (File.type file <> File.dir) then
    negb (if decide (File.type file = File.image /\ File.fileName file <> None)
          then saveFileForMultihashToFS env (File.multihash file) (File.storagePath file)
                 userReplicaSet (File.fileName file) None
          else saveFileForMultihashToFS env (File.multihash file) (File.storagePath file)
                 userReplicaSet None None)
  else false.

Definition fetchFails (env : Env) (userReplicaSet : list string) (file : File.t) : Prop :=
  (File.type file ∈ File.TrackTypes /\ trackFetchFails env userReplicaSet file = true) \/
  (File.type file ∈ File.NonTrackTypes /\ nonTrackFetchFails env userReplicaSet file = true).

(** The export passes the contiguity test against [localMaxClockVal]. *)
Definition contiguous (localMaxClockVal : Z) (fetchedCNodeUser : Fetched.t) : Prop :=
  match head (Fetched.clockRecords fetchedCNodeUser) with
  | Some first =>
      ~ (localMaxClockVal <> -1 /\ ClockRecord.clock first <> localMaxClockVal + 1)
  | None => True
  end.

(** *** Scenarios

    A secondary with the default configuration, a primary that answers
    every export request with [users], and peers from which the content
    of the multihashes in [unavailable] cannot be fetched. *)
Definition exportOf (users : list Fetched.t) : AxiosResult :=
  AxiosResolves {| status := 200; data_error := "";
                   export := Some {| cnodeUsers := users; ipfsIDObj_addresses := [] |} |}.

Definition secondaryEnv (users : list Fetched.t) (unavailable : list string) : Env :=
  {| nodeSyncFileSaveMaxConcurrency := 10;
     syncRequestMaxUserFailureCountBeforeSkip := 3;
     creatorNodeEndpoint := "http://secondary";
     axios_export := fun _ _ => exportOf users;
     getOwnEndpoint := Some "http://secondary";
     getCreatorNodeEndpoints :=
       fun _ _ _ => Some ["http://primary"; "http://secondary"; "http://tertiary"];
     saveFileForMultihashToFS := fun multihash _ _ _ _ => bool_decide (multihash ∉ unavailable);
     defaultCNodeUserUUID := fun wallet => "uuid-" +:+ wallet;
     sequelizeRejects := fun _ => None |}.

Definition localUser (wallet : string) (clock : Z) : CNodeUser.t :=
  {| CNodeUser.cnodeUserUUID := "uuid-" +:+ wallet; CNodeUser.walletPublicKey := wallet;
     CNodeUser.lastLogin := "2021-01-01"; CNodeUser.latestBlockNumber := 100;
     CNodeUser.clock := clock; CNodeUser.createdAt := "2021-01-01" |}.

Definition secondaryState (users : list CNodeUser.t) (locks : list string) : State :=
  {| db := {| CNodeUsers := users; ClockRecords := []; Files := []; Tracks := [];
              AudiusUsers := [] |};
     redisLocks := list_to_set locks;
     walletToSyncFailureCount := ∅;
     log := [] |}.

Definition exportedClockRecord (clock : Z) : ClockRecord.t :=
  {| ClockRecord.cnodeUserUUID := "uuid-on-primary"; ClockRecord.clock := clock;
     ClockRecord.sourceTable := "File"; ClockRecord.createdAt := "2021-06-01" |}.

Definition exportedFile (multihash : string) (type : File.FileType) : File.t :=
  {| File.fileUUID := "file-" +:+ multihash; File.cnodeUserUUID := "uuid-on-primary";
     File.trackBlockchainId := None; File.multihash := multihash; File.fileName := None;
     File.dirMultihash := None; File.storagePath := "/file_storage/" +:+ multihash;
     File.type := type; File.skipped := false |}.

Definition exportedUser (wallet : string) (clock : Z) (clocks : list Z)
    (files : list File.t) : Fetched.t :=
  {| Fetched.walletPublicKey := Some wallet; Fetched.clock := clock;
     Fetched.latestBlockNumber := 200; Fetched.lastLogin := "2021-06-01";
     Fetched.createdAt := "2021-01-01";
     Fetched.clockRecords := exportedClockRecord <$> clocks;
     Fetched.files := files; Fetched.tracks := []; Fetched.audiusUsers := [] |}.

(** Ten exported files; the content of Qm03 and Qm08 cannot be fetched. *)
Definition tenFiles : list File.t :=
  [ exportedFile "Qm01" File.track; exportedFile "Qm02" File.copy320;
    exportedFile "Qm03" File.track; exportedFile "Qm04" File.metadata;
    exportedFile "Qm05" File.image; exportedFile "Qm06" File.dir;
    exportedFile "Qm07" File.metadata; exportedFile "Qm08" File.image;
    exportedFile "Qm09" File.copy320; exportedFile "Qm10" File.metadata ].

Definition tenFilesUser : Fetched.t :=
  exportedUser "0xAA" 10 [4; 5; 6; 7; 8; 9; 10] tenFiles.

End ProcessSync.

(** ** AsyncProcessingQueue

    The second class of src/creator-node/src/FileProcessingQueue.js: the
    queue with one processor for all tasks, which picks the processing
    function from the [task] property of the job. The status records and
    the job outcomes are those of [FileProcessingQueue]. *)
Module AsyncProcessingQueue.
Import FileProcessingQueue.

(** A thrown error object with its [name] ("Error", "TypeError", ...);
    [e.toString()] follows [Error.prototype.toString]. *)
Record JsError := { name : string; message : string }.

Definition toString (e : JsError) : string :=
  if decide (name e = "") then message e
  else if decide (message e = "") then name e
  else name e +:+ ": " +:+ message e.

(** The error thrown by calling [func] when it is [null], with the
    message V8 gives it. *)
Definition notAFunction : JsError :=
  {| name := "TypeError"; message := "func is not a function" |}.

Definition constructProcessKey (taskType uuid : string) : string :=
  taskType +:+ ":::" +:+ uuid.

Section Queue.

Variables Response Req : Type.

Definition ProcessingFn := LogContext -> Req -> Eff.M (Redis Response) JsError Response.

Record ProcessingFns := {
  trackContentUpload : ProcessingFn;           (* handleTrackContentRoute *)
  transcodeAndSegment : ProcessingFn;          (* handleTranscodeAndSegment *)
  processTranscodeAndSegments : ProcessingFn
}.

(** [job.data]: the [params] object a task was added with, which carries
    the [task] set by the [add...Task] method. *)
Record JobData := { logContext : LogContext; task : string; req : Req }.

Variable fns : ProcessingFns.

(** [getFn(task)]; [None] is [null]. *)
Definition getFn (task : string) : option ProcessingFn :=
  if decide (task = PROCESS_NAMES.trackContentUpload) then Some (trackContentUpload fns)
  else if decide (task = PROCESS_NAMES.transcodeAndSegment) then Some (transcodeAndSegment fns)
  else if decide (task = PROCESS_NAMES.processTranscodeAndSegments)
  then Some (processTranscodeAndSegments fns)
  else None.

Definition redisClient_set (key : string) (v : ProcessState Response) (seconds : Z)
  : Eff.M (Redis Response) JsError unit :=
  Eff.modify (fun r : gmap string (RedisEntry Response) =>
                <[key := {| value := v; EX := seconds |}]> r).

(** [async monitorProgress(task, func, { logContext, req })] *)
Definition monitorProgress (task : string) (func : option ProcessingFn)
    (data : JobData) : Eff.M (Redis Response) JsError Response :=
  (let uuid := requestID (logContext data) in
   let redisKey := constructProcessKey task uuid in
   let state := {| status := PROCESS_STATES.IN_PROGRESS; resp := None |} in
   redisClient_set redisKey state EXPIRATION ;;;
   Eff.tryCatch
     (response <~ match func with
                  | Some func => func (logContext data) (req data)
                  | None => Eff.throw notAFunction
                  end ;;
      let state := {| status := PROCESS_STATES.DONE; resp := Some (RespValue response) |} in
      redisClient_set redisKey state EXPIRATION ;;;
      Eff.ret response)
     (fun e =>
        let state := {| status := PROCESS_STATES.FAILED; resp := Some (RespMessage (message e)) |} in
        redisClient_set redisKey state EXPIRATION ;;;
        Eff.throw e))%eff.

(** The processor registered with [queue.process(MAX_CONCURRENCY, ...)]. *)
Definition process (job : JobData) (r : Redis Response) : JobOutcome Response * Redis Response :=
  let func := getFn (task job) in
  match monitorProgress (task job) func job r with
  | (inr response, r') => (DoneResponse response, r')
  | (inl e, r') => (DoneError (toString e), r')
  end.

(** [async addTask(params)]: the data of the job [queue.add(params)] creates. *)
Definition addTask (params : JobData) : JobData := params.

(** The three [add...Task(params)] methods: [params.task = ...] on the
    [{ logContext, req }] object, then [addTask]. *)
Definition addTrackContentUploadTask (params : TaskParams Req) : JobData :=
  addTask {| logContext := FileProcessingQueue.logContext params;
             task := PROCESS_NAMES.trackContentUpload;
             req := FileProcessingQueue.req params |}.

Definition addTranscodeAndSegmentTask (params : TaskParams Req) : JobData :=
  addTask {| logContext := FileProcessingQueue.logContext params;
             task := PROCESS_NAMES.transcodeAndSegment;
             req := FileProcessingQueue.req params |}.

Definition addProcessTranscodeAndSegmentTask (params : TaskParams Req) : JobData :=
  addTask {| logContext := FileProcessingQueue.logContext params;
             task := PROCESS_NAMES.processTranscodeAndSegments;
             req := FileProcessingQueue.req params |}.

End Queue.

Arguments trackContentUpload {Response Req} _.
Arguments transcodeAndSegment {Response Req} _.
Arguments processTranscodeAndSegments {Response Req} _.
Arguments Build_JobData {Req} _ _ _.
Arguments logContext {Req} _.
Arguments task {Req} _.
Arguments req {Req} _.
Arguments getFn {Response Req} fns task.
Arguments monitorProgress {Response Req} task func data.
Arguments process {Response Req} fns job r.
Arguments addTask {Req} params.
Arguments addTrackContentUploadTask {Req} params.
Arguments addTranscodeAndSegmentTask {Req} params.
Arguments addProcessTranscodeAndSegmentTask {Req} params.

End AsyncProcessingQueue.

(** ** The service registry: services that require the server *)
Module ServiceRegistryInit.
Import ServiceRegistry.

(** The services the registry starts, as oracles: the chain client, the
    answer of the [k]-th call of [snapbackSM.init()], and the answer of
    [skippedCIDsRetryQueue.init()]. *)
Record Services := {
  libs : Libs;
  snapbackSM_init : nat -> Attempt unit;
  skippedCIDsRetryQueue_init : Attempt unit
}.

(** The fields of the registry the function assigns ([true] once the
    service object has been constructed), with the node's configuration
    and the time-outs awaited. *)
Record Registry := {
  node : Node;
  snapbackSM : bool;
  syncQueue : bool;
  skippedCIDsRetryQueue : bool;
  servicesThatRequireServerInitialized : bool
}.

Definition set_node (n : Node) (reg : Registry) : Registry :=
  {| node := n; snapbackSM := snapbackSM reg; syncQueue := syncQueue reg;
     skippedCIDsRetryQueue := skippedCIDsRetryQueue reg;
     servicesThatRequireServerInitialized := servicesThatRequireServerInitialized reg |}.

Definition set_snapbackSM (reg : Registry) : Registry :=
  {| node := node reg; snapbackSM := true; syncQueue := syncQueue reg;
     skippedCIDsRetryQueue := skippedCIDsRetryQueue reg;
     servicesThatRequireServerInitialized := servicesThatRequireServerInitialized reg |}.

Definition set_syncQueue (reg : Registry) : Registry :=
  {| node := node reg; snapbackSM := snapbackSM reg; syncQueue := true;
     skippedCIDsRetryQueue := skippedCIDsRetryQueue reg;
     servicesThatRequireServerInitialized := servicesThatRequireServerInitialized reg |}.

Definition set_skippedCIDsRetryQueue (reg : Registry) : Registry :=
  {| node := node reg; snapbackSM := snapbackSM reg; syncQueue := syncQueue reg;
     skippedCIDsRetryQueue := true;
     servicesThatRequireServerInitialized := servicesThatRequireServerInitialized reg |}.

Definition set_servicesThatRequireServerInitialized (reg : Registry) : Registry :=
  {| node := node reg; snapbackSM := snapbackSM reg; syncQueue := syncQueue reg;
     skippedCIDsRetryQueue := skippedCIDsRetryQueue reg;
     servicesThatRequireServerInitialized := true |}.

(** How a call of [initServicesThatRequireServer] stands: it has
    returned, it is still in one of its retry loops, or it has thrown. *)
Inductive InitRun :=
| InitCompleted (reg : Registry)
| InitStillRunning (reg : Registry)
| InitThrew (reg : Registry).

(** A retry loop of the registry, run on the registry's node. *)
Definition onNode (loop : Node -> Run) (reg : Registry) : InitRun :=
  match loop (node reg) with
  | Completed n => InitCompleted (set_node n reg)
  | StillRunning n => InitStillRunning (set_node n reg)
  end.

(** [await step; rest]: [rest] runs once [step] has returned. *)
Definition andThen (step : InitRun) (rest : Registry -> InitRun) : InitRun :=
  match step with
  | InitCompleted reg => rest reg
  | InitStillRunning reg => InitStillRunning reg
  | InitThrew reg => InitThrew reg
  end.

Section Init.

Variable services : Services.

(** The [try] block of [_initSnapbackSM]. *)
Definition initSnapbackSM_body (attempt : nat) (n : Node) : option Node :=
  match snapbackSM_init services attempt with
  | Returns _ => Some n
  | Throws => None
  end.

(** [async _initSnapbackSM()] *)
Definition _initSnapbackSM (fuel : nat) (reg : Registry) : InitRun :=
  let reg := set_snapbackSM reg in
  let retryTimeoutMs := 10000 in
  onNode (retryLoop fuel retryTimeoutMs initSnapbackSM_body 0) reg.

(** [async initServicesThatRequireServer()]: each retry loop may run
    [fuel] iterations. *)
Definition initServicesThatRequireServer (fuel : nat) (reg : Registry) : InitRun :=
  andThen (onNode (_recoverNodeL1Identity (libs services) fuel) reg) (fun reg =>
  andThen (_initSnapbackSM fuel reg) (fun reg =>
  let reg := set_syncQueue reg in
  andThen (onNode (_registerNodeOnL2URSM (libs services) fuel) reg) (fun reg =>
  let reg := set_skippedCIDsRetryQueue reg in
  match skippedCIDsRetryQueue_init services with
  | Throws => InitThrew reg
  | Returns _ => InitCompleted (set_servicesThatRequireServerInitialized reg)
  end))).

End Init.

(** The registry before [initServicesThatRequireServer]. *)
Definition freshRegistry (devMode : bool) : Registry :=
  {| node := freshNode devMode; snapbackSM := false; syncQueue := false;
     skippedCIDsRetryQueue := false; servicesThatRequireServerInitialized := false |}.

(** [slowChain] with a SnapbackSM that starts at its second attempt. *)
Definition slowServices : Services :=
  {| libs := slowChain;
     snapbackSM_init := fun k => if (k <? 1)%nat then Throws else Returns tt;
     skippedCIDsRetryQueue_init := Returns tt |}.

End ServiceRegistryInit.

(** ** utils.js: validation of an image directory *)
Module UtilsImageDir.
Import ProcessSync.

Inductive ValidationError :=
| ErrNoDirFileInDB (imageDirCID : string)
| ErrNoDirOnDisk (imageDirCID storagePath : string)
| ErrNoImageFileOnDisk (imageDirCID : string).

(** [models.File.findOne({ where: { multihash, cnodeUserUUID, type: 'dir' } })] *)
Definition File_findOne_dir (imageDirCID cnodeUserUUID : string) (files : list File.t)
  : option File.t :=
  List.find (fun file => bool_decide (File.multihash file = imageDirCID /\
                                      File.cnodeUserUUID file = cnodeUserUUID /\
                                      File.type file = File.dir)) files.

(** [models.File.findAll({ where: { dirMultihash, cnodeUserUUID, type: 'image' } })] *)
Definition File_findAll_images (imageDirCID cnodeUserUUID : string) (files : list File.t)
  : list File.t :=
  List.filter (fun file => bool_decide (File.dirMultihash file = Some imageDirCID /\
                                        File.cnodeUserUUID file = cnodeUserUUID /\
                                        File.type file = File.image)) files.

(** [async function validateStateForImageDirCIDAndReturnFileUUID(req, imageDirCID)]
    over the Files table [files], the session's [cnodeUserUUID] and
    [fs.pathExists]. [imageDirCID] is [None] for [null] or [undefined];
    the result is [None] for [null]. The array [findAll] returns is
    never falsy, so the test [!imageFiles] never throws. *)
Definition validateStateForImageDirCIDAndReturnFileUUID
    (files : list File.t) (pathExists : string -> bool) (cnodeUserUUID : string)
    (imageDirCID : option string) : ValidationError + option string :=
  match imageDirCID with
  | None => inr None
  | Some imageDirCID =>
      if decide (imageDirCID = "") then inr None
      else
        match File_findOne_dir imageDirCID cnodeUserUUID files with
        | None => inl (ErrNoDirFileInDB imageDirCID)
        | Some dirFile =>
            if negb (pathExists (File.storagePath dirFile))
            then inl (ErrNoDirOnDisk imageDirCID (File.storagePath dirFile))
            else
              let imageFiles := File_findAll_images imageDirCID cnodeUserUUID files in
              if forallb (fun imageFile => pathExists (File.storagePath imageFile)) imageFiles
              then inr (Some (File.fileUUID dirFile))
              else inl (ErrNoImageFileOnDisk imageDirCID)
        end
  end.

(** A Files table with an image directory of one image, and one
    directory without images. *)
Definition emptyDirFile : File.t :=
  {| File.fileUUID := "uuid-empty"; File.cnodeUserUUID := "cnode-user-1";
     File.trackBlockchainId := None; File.multihash := "QmEmpty"; File.fileName := None;
     File.dirMultihash := None; File.storagePath := "/file_storage/QmEmpty";
     File.type := File.dir; File.skipped := false |}.

Definition imageDirTable : list File.t :=
  [ {| File.fileUUID := "uuid-dir"; File.cnodeUserUUID := "cnode-user-1";
       File.trackBlockchainId := None; File.multihash := "QmDir"; File.fileName := None;
       File.dirMultihash := None; File.storagePath := "/file_storage/QmDir";
       File.type := File.dir; File.skipped := false |};
    {| File.fileUUID := "uuid-img"; File.cnodeUserUUID := "cnode-user-1";
       File.trackBlockchainId := None; File.multihash := "QmImg";
       File.fileName := Some "150x150.jpg";
       File.dirMultihash := Some "QmDir"; File.storagePath := "/file_storage/QmDir/QmImg";
       File.type := File.image; File.skipped := false |};
    emptyDirFile ].

End UtilsImageDir.

(** ** processSync.js: peering with the primary's IPFS node *)
Module ProcessSyncPeers.
Import ServiceRegistry (Attempt, Throws, Returns).

(** [String.prototype.includes(searchString)]: [searchString] occurs
    somewhere in [s]. *)
Fixpoint includes (searchString s : string) : bool :=
  String.prefix searchString s ||
  match s with
  | EmptyString => false
  | String _ rest => includes searchString rest
  end.

(** The local IPFS node: [ipfs.id()] throws or returns an object, of
    which [addresses] is read ([None] when it has no such property);
    [ipfs.bootstrap.add] and [ipfs.swarm.connect] throw or return. *)
Record Ipfs := {
  ipfs_id : Attempt (option (list string));
  ipfs_bootstrap_add : string -> Attempt unit;
  ipfs_swarm_connect : string -> Attempt unit
}.

(** The calls made on the IPFS node, oldest first. *)
Inductive IpfsCall :=
| BootstrapAdd (address : string)
| SwarmConnect (address : string).

Definition address (call : IpfsCall) : string :=
  match call with
  | BootstrapAdd address => address
  | SwarmConnect address => address
  end.

Inductive PeerError :=
| ErrIpfsId                            (* ipfs.id() threw *)
| ErrNoAddresses                       (* failed to retrieve ipfs node addresses *)
| ErrBootstrapAdd (address : string)
| ErrSwarmConnect (address : string).

Definition call (c : IpfsCall) : Eff.M (list IpfsCall) PeerError unit :=
  Eff.modify (fun calls => calls ++ [c]).

(** The test that lets a target address through the two [continue]s. *)
Definition dialled (ipfsPeerAddresses : list string) (targetPeerAddress : string) : bool :=
  negb (includes "ip6" targetPeerAddress || includes "127.0.0.1" targetPeerAddress)
  && negb (bool_decide (targetPeerAddress ∈ ipfsPeerAddresses)).

(** The body of [for (const targetPeerAddress of targetIPFSPeerAddresses)]. *)
Definition connectPeer (ipfs : Ipfs) (ipfsPeerAddresses : list string)
    (targetPeerAddress : string) : Eff.M (list IpfsCall) PeerError unit :=
  if includes "ip6" targetPeerAddress || includes "127.0.0.1" targetPeerAddress
  then Eff.ret tt (* continue *)
  else if bool_decide (targetPeerAddress ∈ ipfsPeerAddresses)
  then Eff.ret tt (* continue *)
  else
    (call (BootstrapAdd targetPeerAddress) ;;;
     match ipfs_bootstrap_add ipfs targetPeerAddress with
     | Throws => Eff.throw (ErrBootstrapAdd targetPeerAddress)
     | Returns _ =>
         call (SwarmConnect targetPeerAddress) ;;;
         match ipfs_swarm_connect ipfs targetPeerAddress with
         | Throws => Eff.throw (ErrSwarmConnect targetPeerAddress)
         | Returns _ => Eff.ret tt
         end
     end)%eff.

(** [async function _initBootstrapAndRefreshPeers({ ipfs }, logger,
    targetIPFSPeerAddresses, redisKey)] *)
Definition _initBootstrapAndRefreshPeers (ipfs : Ipfs)
    (targetIPFSPeerAddresses : list string) : Eff.M (list IpfsCall) PeerError unit :=
  match ipfs_id ipfs with
  | Throws => Eff.throw ErrIpfsId
  | Returns None => Eff.throw ErrNoAddresses
  | Returns (Some ipfsPeerAddresses) =>
      Eff.forEach (connectPeer ipfs ipfsPeerAddresses) targetIPFSPeerAddresses
  end.

(** A node that announces two addresses and dials without error. *)
Definition localIpfs : Ipfs :=
  {| ipfs_id := Returns (Some ["/ip4/10.0.0.5/tcp/4001/p2p/QmSelf";
                                "/ip4/127.0.0.1/tcp/4001/p2p/QmSelf"]);
     ipfs_bootstrap_add := fun _ => Returns tt;
     ipfs_swarm_connect := fun _ => Returns tt |}.

End ProcessSyncPeers.

(** * Properties *)

(** ** The job queue *)
Module QueueFacts.
Import FileProcessingQueue.

Section Facts.
Context {Response Req : Type}.
Implicit Types (func : ProcessingFn Response Req) (params : TaskParams Req).
Implicit Types (r : gmap string (RedisEntry Response)).

(** [monitorProgress] is the processing function run on the store that
    already holds the IN_PROGRESS record, followed by one more write. *)
Lemma monitorProgress_unfold taskType func params r :
  let redisKey := constructProcessKey taskType (requestID (logContext params)) in
  monitorProgress taskType func params r =
    match func (logContext params) (req params)
            (<[redisKey := statusEntry PROCESS_STATES.IN_PROGRESS None]> r) with
    | (inr response, r1) =>
        (inr response,
         <[redisKey := statusEntry PROCESS_STATES.DONE (Some (RespValue response))]> r1)
    | (inl e, r1) =>
        (inl e,
         <[redisKey := statusEntry PROCESS_STATES.FAILED (Some (RespMessage (message e)))]> r1)
    end.
Proof.
  intros redisKey. unfold monitorProgress, Eff.bind, Eff.tryCatch, redisClient_set, Eff.modify.
  cbn. fold redisKey.
  destruct (func _ _ _) as [[e | response] r1]; reflexivity.
Qed.

(** C6 (the code departs from the claim). Given the [{ logContext, req }]
    object of a task, [monitorProgress] keeps the status record as the
    claim says: under the key [{task}:::{request_id}] with a TTL of 86400
    seconds, IN_PROGRESS on the store the processing function runs on,
    then DONE with its response, or FAILED with the error's message and
    the exception thrown on; and a processor that finds the object under
    [trackContentUploadParams] in the job's data turns that exception
    into a job completed with the error's string. But the jobs the queue
    itself enqueues do not carry it there: [addTask] passes the object as
    the job's data, the processors read [trackContentUploadParams] from
    it and find nothing, [monitorProgress] rejects before it writes, and
    the [catch] block throws again. Such a job ends with the processor's
    promise rejected, not completed with an error, and no status record
    is written; a [processTranscodeAndSegments] job has no processor at
    all. *)
Theorem enqueued_job_keeps_no_status_record (fns : ProcessingFns Response Req) params r :
  let uuid := requestID (logContext params) in
  (forall taskType func,
     let redisKey := constructProcessKey taskType uuid in
     let inProgress := <[redisKey := statusEntry PROCESS_STATES.IN_PROGRESS None]> r in
     redisKey = taskType +:+ ":::" +:+ uuid /\
     inProgress !! redisKey =
       Some {| value := {| status := "IN_PROGRESS"; resp := None |}; EX := 86400 |} /\
     match func (logContext params) (req params) inProgress with
     | (inr response, _) =>
         exists r', monitorProgress taskType func params r = (inr response, r') /\
           r' !! redisKey =
             Some {| value := {| status := "DONE"; resp := Some (RespValue response) |};
                     EX := 86400 |}
     | (inl e, _) =>
         exists r', monitorProgress taskType func params r = (inl e, r') /\
           r' !! redisKey =
             Some {| value := {| status := "FAILED"; resp := Some (RespMessage (message e)) |};
                     EX := 86400 |}
     end) /\
  runJob fns (PROCESS_NAMES.trackContentUpload, PayloadWrapped params) r =
    Some match monitorProgress PROCESS_NAMES.trackContentUpload (trackContentUpload fns)
                 params r with
         | (inl e, r1) => (DoneError (toString e), r1)
         | (inr response, r1) => (DoneResponse response, r1)
         end /\
  runJob fns (addTrackContentUploadTask params) r = Some (Rejected, r) /\
  runJob fns (addTranscodeAndSegmentTask params) r = Some (Rejected, r) /\
  runJob fns (addProcessTranscodeAndSegmentTask params) r = None.
Proof.
  intros uuid. split; [| split; [| by repeat split]].
  - intros taskType func redisKey inProgress.
    split; [reflexivity |]. split; [apply lookup_insert_eq |].
    pose proof (monitorProgress_unfold taskType func params r) as Hrun.
    cbv zeta in Hrun. fold uuid redisKey inProgress in Hrun.
    destruct (func (logContext params) (req params) inProgress) as [[e | response] r1];
      unfold Redis in *; eexists; (split; [exact Hrun | apply lookup_insert_eq]).
  - unfold runJob. cbn [fst snd processorFor registeredProcessors destructure].
    rewrite decide_True by done. unfold process_trackContentUpload.
    cbn [trackContentUploadParams].
    by destruct (monitorProgress _ _ params r) as [[e | response] r1].
Qed.

(** C7. The processor registered under [transcodeAndSegment] runs
    [trackContentUpload], monitored under the [trackContentUpload] label,
    as the processor registered under [trackContentUpload] does: on every
    job payload and store the two give the same outcome and leave the
    same store, whatever function [transcodeAndSegment] is. *)
Theorem transcodeAndSegment_runs_trackContentUpload
    (f g g' h h' : ProcessingFn Response Req) :
  let fns := {| trackContentUpload := f; transcodeAndSegment := g;
                processTrackTranscodeAndSegments := h |} in
  let fns' := {| trackContentUpload := f; transcodeAndSegment := g';
                 processTrackTranscodeAndSegments := h' |} in
  processorFor "trackContentUpload" (registeredProcessors fns)
    = Some (process_trackContentUpload fns) /\
  processorFor "transcodeAndSegment" (registeredProcessors fns)
    = Some (process_transcodeAndSegment fns) /\
  (forall job r,
     process_transcodeAndSegment fns job r = process_trackContentUpload fns job r) /\
  (forall job r,
     process_transcodeAndSegment fns job r = process_transcodeAndSegment fns' job r) /\
  (forall params r,
     process_transcodeAndSegment fns {| trackContentUploadParams := Some params |} r =
       match monitorProgress "trackContentUpload" f params r with
       | (inr response, r') => (DoneResponse response, r')
       | (inl e, r') => (DoneError (toString e), r')
       end).
Proof.
  intros fns fns'.
  split; [reflexivity |]. split; [reflexivity |].
  split; [| split].
  - intros job r. unfold process_transcodeAndSegment, process_trackContentUpload.
    destruct (trackContentUploadParams job) as [params |]; reflexivity.
  - intros job r. unfold process_transcodeAndSegment.
    destruct (trackContentUploadParams job) as [params |]; reflexivity.
  - intros params r. reflexivity.
Qed.

End Facts.

(** A processing function that throws a TypeError "disk full", on an
    empty store. Run on a job that carries the task's object under
    [trackContentUploadParams], it gives a job done with the error's
    string and a FAILED record; run on the job [addTrackContentUploadTask]
    enqueues, it gives a rejected processor and no record. *)
Example monitorProgress_failed_job :
  let fns := {| trackContentUpload := fun _ (_ : unit) =>
                  Eff.throw {| name := "TypeError"; message := "disk full" |};
                transcodeAndSegment := fun _ _ => Eff.ret 1%nat;
                processTrackTranscodeAndSegments := fun _ _ => Eff.ret 2%nat |} in
  let params := {| logContext := {| requestID := "r-42" |}; req := tt |} in
  let job := {| trackContentUploadParams := Some params |} in
  let run := process_trackContentUpload fns job ∅ in
  run.1 = DoneError "TypeError: disk full" /\
  run.2 !! "trackContentUpload:::r-42" =
    Some {| value := {| status := "FAILED"; resp := Some (RespMessage "disk full") |};
            EX := 86400 |} /\
  process_transcodeAndSegment fns job ∅ = run /\
  process_trackContentUpload fns {| trackContentUploadParams := None |} ∅ = (Rejected, ∅) /\
  runJob fns (addTrackContentUploadTask params) ∅ = Some (Rejected, ∅).
Proof. vm_compute. repeat split. Qed.

End QueueFacts.

(** ** The identity bootstrap *)
Module BootstrapFacts.
Import ServiceRegistry.

Lemma waited_0 ms n : waited ms 0 n = n.
Proof. destruct n. unfold waited. cbn. by rewrite app_nil_r. Qed.

Lemma waited_S ms k n : waited ms k (utils_timeout ms n) = waited ms (S k) n.
Proof.
  unfold waited, utils_timeout. cbn. f_equal.
  rewrite <- app_assoc. reflexivity.
Qed.

Section Loop.
Variables (ms : Z) (body : nat -> Node -> option Node).

(** While every round so far has failed, the loop is still running and
    has waited once per round. *)
Lemma retryLoop_failing k : forall a n,
  (forall j, (j < k)%nat -> body (a + j) (waited ms j n) = None) ->
  retryLoop k ms body a n = StillRunning (waited ms k n).
Proof.
  induction k as [| k IH]; intros a n Hfail.
  - cbn. by rewrite waited_0.
  - cbn. specialize (Hfail 0%nat ltac:(lia)) as H0.
    rewrite Nat.add_0_r, waited_0 in H0. rewrite H0.
    rewrite IH.
    + by rewrite waited_S.
    + intros j Hj. rewrite waited_S.
      replace (S a + j)%nat with (a + S j)%nat by lia. apply Hfail. lia.
Qed.

(** The first round that succeeds ends the loop, given fuel to reach it. *)
Lemma retryLoop_succeeds k : forall a n n' fuel,
  (forall j, (j < k)%nat -> body (a + j) (waited ms j n) = None) ->
  body (a + k) (waited ms k n) = Some n' ->
  (k < fuel)%nat ->
  retryLoop fuel ms body a n = Completed n'.
Proof.
  induction k as [| k IH]; intros a n n' fuel Hfail Hk Hfuel.
  - destruct fuel as [| fuel]; [lia |]. cbn.
    rewrite Nat.add_0_r, waited_0 in Hk. by rewrite Hk.
  - destruct fuel as [| fuel]; [lia |]. cbn.
    specialize (Hfail 0%nat ltac:(lia)) as H0.
    rewrite Nat.add_0_r, waited_0 in H0. rewrite H0.
    apply IH; [| | lia].
    + intros j Hj. rewrite waited_S.
      replace (S a + j)%nat with (a + S j)%nat by lia. apply Hfail. lia.
    + rewrite waited_S. replace (S a + k)%nat with (a + S k)%nat by lia. exact Hk.
Qed.

(** A loop that has completed did so at a round that succeeded, after
    failing and waiting in every round before it. *)
Lemma retryLoop_completed fuel : forall a n n',
  retryLoop fuel ms body a n = Completed n' ->
  exists k, (k < fuel)%nat /\
    (forall j, (j < k)%nat -> body (a + j) (waited ms j n) = None) /\
    body (a + k) (waited ms k n) = Some n'.
Proof.
  induction fuel as [| fuel IH]; intros a n n' Hrun; [discriminate |].
  cbn in Hrun. destruct (body a n) as [n1 |] eqn:Hbody.
  - injection Hrun as ->. exists 0%nat. split; [lia |]. split; [intros j Hj; lia |].
    by rewrite Nat.add_0_r, waited_0.
  - apply IH in Hrun as (k & Hk & Hfail & Hsucc).
    exists (S k). split; [lia |]. split.
    + intros [| j] Hj.
      * by rewrite Nat.add_0_r, waited_0.
      * rewrite <- waited_S. replace (a + S j)%nat with (S a + j)%nat by lia.
        apply Hfail. lia.
    + rewrite <- waited_S. replace (a + S k)%nat with (S a + k)%nat by lia. exact Hsucc.
Qed.

End Loop.

Section Bootstrap.
Variables (libs : Libs) (n : Node).

Lemma recover_body_unresolved k n0 :
  unresolved libs k -> recoverNodeL1Identity_body libs k n0 = None.
Proof.
  unfold recoverNodeL1Identity_body. intros [-> | ->]; [| reflexivity].
  by rewrite decide_False by lia.
Qed.

Lemma recover_body_inv k n0 n' :
  recoverNodeL1Identity_body libs k n0 = Some n' ->
  exists id, getServiceProviderIdFromEndpoint libs k = Returns id /\ id <> 0 /\
             n' = nodeConfig_set_spID id n0.
Proof.
  unfold recoverNodeL1Identity_body.
  destruct (getServiceProviderIdFromEndpoint libs k) as [| id]; [discriminate |].
  case_decide; [| discriminate]. intros [= <-]. eauto.
Qed.

Lemma recover_body_None_inv k n0 :
  recoverNodeL1Identity_body libs k n0 = None -> unresolved libs k.
Proof.
  unfold recoverNodeL1Identity_body, unresolved.
  destruct (getServiceProviderIdFromEndpoint libs k) as [| id]; [by right |].
  case_decide as Hid; [discriminate |]. intros _. left. f_equal. lia.
Qed.

Lemma init_body_None k n0 :
  initURSMClient_body libs k n0 = None <->
  initUserReplicaSetManagerClient libs k <> Returns true.
Proof.
  unfold initURSMClient_body.
  destruct (initUserReplicaSetManagerClient libs k) as [| []]; split; congruence.
Qed.

Lemma init_body_Some k n0 n' :
  initURSMClient_body libs k n0 = Some n' <->
  initUserReplicaSetManagerClient libs k = Returns true /\ n' = n0.
Proof.
  unfold initURSMClient_body.
  destruct (initUserReplicaSetManagerClient libs k) as [| []];
    (split; [intros H; split; congruence | intros [H1 H2]; congruence]).
Qed.

Lemma register_body_None k n0 :
  registerOnURSM_body libs k n0 = None <-> URSMRegistrationManager_run libs k = Throws.
Proof.
  unfold registerOnURSM_body.
  destruct (URSMRegistrationManager_run libs k); split; congruence.
Qed.

Lemma register_body_Some k n0 n' :
  registerOnURSM_body libs k n0 = Some n' <->
  URSMRegistrationManager_run libs k = Returns tt /\ n' = n0.
Proof.
  unfold registerOnURSM_body.
  destruct (URSMRegistrationManager_run libs k) as [| []];
    (split; [intros H; split; congruence | intros [H1 H2]; congruence]).
Qed.

(** C8. The identity bootstrap. [_recoverNodeL1Identity] is still running
    after any number of rounds in which the endpoint resolved to 0 (or the
    call threw), having waited 5000 ms after each; it completes only at a
    call that returned a non-zero id, with that id stored as [spID], and
    it does complete at the first such call. [_registerNodeOnL2URSM]
    polls for the registry client every 10000 ms in dev mode and every
    600000 ms otherwise, then retries the registration every 10000 ms,
    and completes exactly at the first registration attempt that succeeds. *)
Theorem identity_bootstrap_retries :
  let pollMs := if devMode n then 10000 else 600000 in
  (forall fuel,
     (forall k, (k < fuel)%nat -> unresolved libs k) ->
     _recoverNodeL1Identity libs fuel n = StillRunning (waited 5000 fuel n)) /\
  (forall fuel n',
     _recoverNodeL1Identity libs fuel n = Completed n' ->
     exists k id, (k < fuel)%nat /\
       (forall j, (j < k)%nat -> unresolved libs j) /\
       getServiceProviderIdFromEndpoint libs k = Returns id /\ id <> 0 /\
       n' = nodeConfig_set_spID id (waited 5000 k n) /\ spID n' = Some id) /\
  (forall k id fuel,
     (forall j, (j < k)%nat -> unresolved libs j) ->
     getServiceProviderIdFromEndpoint libs k = Returns id -> id <> 0 ->
     (k < fuel)%nat ->
     _recoverNodeL1Identity libs fuel n
       = Completed (nodeConfig_set_spID id (waited 5000 k n))) /\
  (forall fuel n',
     _registerNodeOnL2URSM libs fuel n = Completed n' ->
     exists k1 k2,
       (forall j, (j < k1)%nat -> initUserReplicaSetManagerClient libs j <> Returns true) /\
       initUserReplicaSetManagerClient libs k1 = Returns true /\
       (forall j, (j < k2)%nat -> URSMRegistrationManager_run libs j = Throws) /\
       URSMRegistrationManager_run libs k2 = Returns tt /\
       n' = waited 10000 k2 (waited pollMs k1 n)) /\
  (forall k1 k2 fuel,
     (forall j, (j < k1)%nat -> initUserReplicaSetManagerClient libs j <> Returns true) ->
     initUserReplicaSetManagerClient libs k1 = Returns true ->
     (forall j, (j < k2)%nat -> URSMRegistrationManager_run libs j = Throws) ->
     URSMRegistrationManager_run libs k2 = Returns tt ->
     (k1 < fuel)%nat -> (k2 < fuel)%nat ->
     _registerNodeOnL2URSM libs fuel n = Completed (waited 10000 k2 (waited pollMs k1 n))) /\
  (forall fuel n1,
     retryLoop fuel pollMs (initURSMClient_body libs) 0 n = Completed n1 ->
     (forall j, (j < fuel)%nat -> URSMRegistrationManager_run libs j = Throws) ->
     _registerNodeOnL2URSM libs fuel n = StillRunning (waited 10000 fuel n1)).
Proof.
  intros pollMs. repeat apply conj.
  - intros fuel Hzero. unfold _recoverNodeL1Identity.
    apply retryLoop_failing. intros j Hj. apply recover_body_unresolved. cbn. auto.
  - intros fuel n' Hrun. unfold _recoverNodeL1Identity in Hrun.
    apply retryLoop_completed in Hrun as (k & Hk & Hfail & Hsucc).
    cbn in Hsucc. apply recover_body_inv in Hsucc as (id & Hid & Hne & ->).
    exists k, id. repeat split; try done.
    intros j Hj. apply (recover_body_None_inv j (waited 5000 j n)). by apply Hfail.
  - intros k id fuel Hzero Hid Hne Hfuel. unfold _recoverNodeL1Identity.
    apply retryLoop_succeeds with (k := k); [| | done].
    + intros j Hj. apply recover_body_unresolved. cbn. auto.
    + cbn. unfold recoverNodeL1Identity_body. rewrite Hid. by rewrite decide_True.
  - intros fuel n' Hrun. unfold _registerNodeOnL2URSM in Hrun. fold pollMs in Hrun.
    destruct (retryLoop fuel pollMs _ 0 n) as [n1 | n1] eqn:Hpoll; [| discriminate].
    apply retryLoop_completed in Hpoll as (k1 & Hk1 & Hfail1 & Hsucc1).
    apply retryLoop_completed in Hrun as (k2 & Hk2 & Hfail2 & Hsucc2).
    cbn in Hsucc1, Hsucc2.
    apply init_body_Some in Hsucc1 as [Hinit ->].
    apply register_body_Some in Hsucc2 as [Hreg ->].
    exists k1, k2. repeat split; try done.
    + intros j Hj. apply (init_body_None j (waited pollMs j n)). by apply Hfail1.
    + intros j Hj. apply (register_body_None j (waited 10000 j (waited pollMs k1 n))).
      by apply Hfail2.
  - intros k1 k2 fuel Hfail1 Hinit Hfail2 Hreg Hlt1 Hlt2.
    unfold _registerNodeOnL2URSM. fold pollMs.
    rewrite (retryLoop_succeeds pollMs _ k1 0%nat n (waited pollMs k1 n) fuel); try done.
    + apply retryLoop_succeeds with (k := k2); try done.
      * intros j Hj. apply register_body_None. by apply Hfail2.
      * by apply register_body_Some.
    + intros j Hj. apply init_body_None. by apply Hfail1.
    + by apply init_body_Some.
  - intros fuel n1 Hpoll Hthrows. unfold _registerNodeOnL2URSM. fold pollMs.
    rewrite Hpoll. apply retryLoop_failing.
    intros j Hj. apply register_body_None. by apply Hthrows.
Qed.

End Bootstrap.

(** The bootstrap on [slowChain]: two rounds are not enough to recover
    the identity, three are; registration completes after one poll and
    two failed attempts, with the production and the dev-mode intervals. *)
Lemma identity_bootstrap_on_slowChain :
  _recoverNodeL1Identity slowChain 2 (freshNode false)
    = StillRunning {| spID := None; devMode := false; timeouts := [5000; 5000] |} /\
  _recoverNodeL1Identity slowChain 3 (freshNode false)
    = Completed {| spID := Some 7; devMode := false; timeouts := [5000; 5000] |} /\
  _registerNodeOnL2URSM slowChain 3 (freshNode false)
    = Completed {| spID := None; devMode := false; timeouts := [600000; 10000; 10000] |} /\
  _registerNodeOnL2URSM slowChain 3 (freshNode true)
    = Completed {| spID := None; devMode := true; timeouts := [10000; 10000; 10000] |}.
Proof.
  destruct (identity_bootstrap_retries slowChain (freshNode false))
    as (Hrunning & _ & Hdone & _ & Hregister & _).
  destruct (identity_bootstrap_retries slowChain (freshNode true))
    as (_ & _ & _ & _ & HregisterDev & _).
  split; [| split; [| split]].
  - apply (Hrunning 2%nat). intros [| [| k]] Hk; (left; reflexivity) || lia.
  - apply (Hdone 2%nat 7 3%nat); [| reflexivity | lia | lia].
    intros [| [| k]] Hk; (left; reflexivity) || lia.
  - apply (Hregister 1%nat 2%nat 3%nat); try reflexivity; try lia.
    + intros [| j] Hj; [discriminate | lia].
    + intros [| [| j]] Hj; reflexivity || lia.
  - apply (HregisterDev 1%nat 2%nat 3%nat); try reflexivity; try lia.
    + intros [| j] Hj; [discriminate | lia].
    + intros [| [| j]] Hj; reflexivity || lia.
Defined.

End BootstrapFacts.

(** ** findCIDInNetwork *)
Module UtilsFacts.
Import Utils.

Section Facts.
Variable env : Env.
Implicit Types (st : State) (filePath cid : string) (data : list Byte.byte).

(** A node that answers with a body ends the loop: the bytes are written,
    and removed again unless they hash to [cid]; [found] is [true] in
    both cases. *)
Lemma lookupLoop_data filePath cid trackId node rest st data :
  file_lookup env (endpoint node) filePath trackId = LookupData data ->
  lookupLoop env filePath cid trackId (node :: rest) st =
    (true,
     if decide (cid <> generateNonImageMultihash env data)
     then fs_unlink filePath (writeStreamToFileSystem data filePath st)
     else writeStreamToFileSystem data filePath st).
Proof.
  intros Hresp. cbn [lookupLoop]. rewrite Hresp.
  unfold writeStreamToFileSystem at 1. cbn [fs set_fs].
  rewrite lookup_insert_eq. reflexivity.
Qed.

(** C5 (the code departs from the claim). When the first node asked
    answers with bytes that do not hash to [cid], [findCIDInNetwork]
    removes the file it wrote and still returns [true]. *)
Theorem findCIDInNetwork_reports_unverified_file
    filePath cid trackId excludeList st node rest data :
  filePath ∉ attempted_fs_fixes st ->
  all_registered_cnodes st = Some (node :: rest) ->
  endpoint node ∉ excludeList ->
  file_lookup env (endpoint node) filePath trackId = LookupData data ->
  generateNonImageMultihash env data <> cid ->
  exists st',
    findCIDInNetwork env filePath cid trackId excludeList st = (Some true, st') /\
    fs st' !! filePath = None.
Proof.
  intros Hfirst Hnodes Hincl Hresp Hhash.
  unfold findCIDInNetwork, getIfAttemptedStateFix.
  rewrite bool_decide_eq_true_2 by done. cbn [negb].
  unfold getAllRegisteredCNodes. cbn [all_registered_cnodes]. rewrite Hnodes.
  rewrite decide_False by (cbn; lia).
  rewrite filter_cons_True by done.
  rewrite (lookupLoop_data _ _ _ _ _ _ data) by done.
  rewrite decide_True by congruence.
  eexists. split; [reflexivity |].
  cbn. apply lookup_delete_eq.
Qed.

End Facts.

(** The corrupt peer: the lookup of "Qmab" is answered with bytes that
    hash to "Qmxx"; the function returns [true] and leaves no file. *)
Lemma findCIDInNetwork_corruptPeer :
  exists st',
    findCIDInNetwork corruptPeer "/file_storage/Qmab" "Qmab" None [] emptyDisk
      = (Some true, st') /\
    fs st' !! "/file_storage/Qmab" = None.
Proof.
  apply (findCIDInNetwork_reports_unverified_file corruptPeer "/file_storage/Qmab" "Qmab"
           None [] emptyDisk {| endpoint := "http://cn2"; spID := 2 |} []
           [Byte.x78; Byte.x78]).
  - apply not_elem_of_empty.
  - reflexivity.
  - apply not_elem_of_nil.
  - reflexivity.
  - discriminate.
Defined.

End UtilsFacts.

(** ** processSync *)
Module SyncFacts.
Import ProcessSync.

Implicit Types (st : State) (wallet w : string) (wallets ws : list string).
Implicit Types (env : Env) (u : Fetched.t) (d : DB).

(** *** Locks, and what the lock, catch and finally loops leave alone *)

#[global] Instance getNodeSyncRedisKey_inj : Inj (=) (=) getNodeSyncRedisKey.
Proof. intros w1 w2 H. unfold getNodeSyncRedisKey in H. cbn in H. by simplify_eq. Qed.

Lemma lockAll_cons w ws st :
  lockAll (w :: ws) st = lockAll ws (setLock (getNodeSyncRedisKey w) st).
Proof. reflexivity. Qed.

Lemma releaseLocks_cons w ws st :
  releaseLocks (w :: ws) st = releaseLocks ws (removeLock (getNodeSyncRedisKey w) st).
Proof. reflexivity. Qed.

Lemma recordSyncFails_cons w ws st :
  recordSyncFails (w :: ws) st = recordSyncFails ws (record (EvRecordSyncFail w) st).
Proof. reflexivity. Qed.

Lemma lockAll_db ws : forall st, db (lockAll ws st) = db st.
Proof.
  induction ws as [| w ws IH]; intros st; [done |].
  rewrite ?lockAll_cons, ?releaseLocks_cons, ?recordSyncFails_cons. by rewrite IH.
Qed.

Lemma lockAll_counts ws : forall st,
  walletToSyncFailureCount (lockAll ws st) = walletToSyncFailureCount st.
Proof.
  induction ws as [| w ws IH]; intros st; [done |].
  rewrite ?lockAll_cons, ?releaseLocks_cons, ?recordSyncFails_cons. by rewrite IH.
Qed.

Lemma lockAll_log ws : forall st,
  log (lockAll ws st) = log st ++ map (fun w => EvSetLock (getNodeSyncRedisKey w)) ws.
Proof.
  induction ws as [| w ws IH]; intros st.
  - cbn. by rewrite app_nil_r.
  - rewrite ?lockAll_cons, ?releaseLocks_cons, ?recordSyncFails_cons, IH.
    cbn. by rewrite <- app_assoc.
Qed.

Lemma lockAll_locks ws : forall st,
  redisLocks (lockAll ws st) = list_to_set (getNodeSyncRedisKey <$> ws) ∪ redisLocks st.
Proof.
  induction ws as [| w ws IH]; intros st.
  - cbn. set_solver.
  - rewrite ?lockAll_cons, ?releaseLocks_cons, IH. cbn. set_solver.
Qed.

(** With every lock free, the loop sets them all and returns no error. *)
Lemma acquireLocks_free ws : forall st redisKey,
  locksFree ws st ->
  acquireLocks ws redisKey st =
    (None, from_option (fun w => Some (getNodeSyncRedisKey w)) redisKey (last ws),
     lockAll ws st).
Proof.
  induction ws as [| w ws IH]; intros st redisKey [Hnodup Hfree]; [done |].
  cbn [acquireLocks]. unfold getLock.
  assert (Hw : getNodeSyncRedisKey w ∉ redisLocks st) by apply Hfree, list_elem_of_here.
  rewrite (bool_decide_eq_false_2 _ Hw).
  rewrite IH.
  - rewrite lockAll_cons. f_equal. f_equal.
    destruct ws as [| w' ws']; [done |]. rewrite last_cons_cons.
    destruct (last (w' :: ws')) eqn:Hlast; [done | by apply last_None in Hlast].
  - apply NoDup_cons in Hnodup as [Hnotin Hnodup]. split; [done |].
    intros w' Hw'. cbn. intros [Heq%elem_of_singleton | Hin]%elem_of_union.
    + apply (inj _) in Heq. subst. done.
    + apply (Hfree w'); [by apply list_elem_of_further | done].
Qed.

(** A lock found held stops the loop: the locks set so far stay set. *)
Lemma acquireLocks_held ws1 : forall w ws2 st redisKey,
  locksFree ws1 st ->
  getNodeSyncRedisKey w ∈ redisLocks (lockAll ws1 st) ->
  acquireLocks (ws1 ++ w :: ws2) redisKey st =
    (Some (ErrSyncInProgress w), Some (getNodeSyncRedisKey w), lockAll ws1 st).
Proof.
  induction ws1 as [| w1 ws1 IH]; intros w ws2 st redisKey [Hnodup Hfree] Hheld.
  - cbn in *. unfold getLock. by rewrite bool_decide_eq_true_2.
  - cbn [app acquireLocks]. unfold getLock.
    assert (Hw : getNodeSyncRedisKey w1 ∉ redisLocks st) by apply Hfree, list_elem_of_here.
    rewrite (bool_decide_eq_false_2 _ Hw).
    rewrite lockAll_cons in *.
    apply IH; [| done].
    apply NoDup_cons in Hnodup as [Hnotin Hnodup]. split; [done |].
    intros w' Hw'. cbn. intros [Heq%elem_of_singleton | Hin]%elem_of_union.
    + apply (inj _) in Heq. subst. done.
    + apply (Hfree w'); [by apply list_elem_of_further | done].
Qed.

Lemma releaseLocks_db ws : forall st, db (releaseLocks ws st) = db st.
Proof.
  induction ws as [| w ws IH]; intros st; [done |].
  rewrite ?lockAll_cons, ?releaseLocks_cons, ?recordSyncFails_cons. by rewrite IH.
Qed.

Lemma releaseLocks_counts ws : forall st,
  walletToSyncFailureCount (releaseLocks ws st) = walletToSyncFailureCount st.
Proof.
  induction ws as [| w ws IH]; intros st; [done |].
  rewrite ?lockAll_cons, ?releaseLocks_cons, ?recordSyncFails_cons. by rewrite IH.
Qed.

Lemma releaseLocks_log ws : forall st,
  log (releaseLocks ws st) = log st ++ map (fun w => EvRemoveLock (getNodeSyncRedisKey w)) ws.
Proof.
  induction ws as [| w ws IH]; intros st.
  - cbn. by rewrite app_nil_r.
  - rewrite ?lockAll_cons, ?releaseLocks_cons, ?recordSyncFails_cons, IH.
    cbn. by rewrite <- app_assoc.
Qed.

Lemma releaseLocks_locks ws : forall st,
  redisLocks (releaseLocks ws st) = redisLocks st ∖ list_to_set (getNodeSyncRedisKey <$> ws).
Proof.
  induction ws as [| w ws IH]; intros st.
  - cbn. set_solver.
  - rewrite ?lockAll_cons, ?releaseLocks_cons, IH. cbn. set_solver.
Qed.

Lemma recordSyncFails_db ws : forall st, db (recordSyncFails ws st) = db st.
Proof.
  induction ws as [| w ws IH]; intros st; [done |].
  rewrite ?lockAll_cons, ?releaseLocks_cons, ?recordSyncFails_cons. by rewrite IH.
Qed.

Lemma recordSyncFails_locks ws : forall st, redisLocks (recordSyncFails ws st) = redisLocks st.
Proof.
  induction ws as [| w ws IH]; intros st; [done |].
  rewrite ?lockAll_cons, ?releaseLocks_cons, ?recordSyncFails_cons. by rewrite IH.
Qed.


Lemma recordSyncFails_log ws : forall st,
  log (recordSyncFails ws st) = log st ++ map EvRecordSyncFail ws.
Proof.
  induction ws as [| w ws IH]; intros st.
  - cbn. by rewrite app_nil_r.
  - rewrite ?lockAll_cons, ?releaseLocks_cons, ?recordSyncFails_cons, IH.
    cbn. by rewrite <- app_assoc.
Qed.


(** *** One fetched user *)

(** The user's transaction, outcome by outcome. *)
Lemma syncTransaction_eq env redisKey u w urs st :
  syncTransaction env redisKey u w urs st =
    match upsertCNodeUser env u w (db st) with
    | inl e => (inl (ErrTransaction e), rolledBack redisKey st)
    | inr (cnodeUser, d) =>
        let CIDs := CIDsThatFailedSaveFileOp env urs u in
        let count := S (getFailureCount w st) in
        let threshold := syncRequestMaxUserFailureCountBeforeSkip env in
        if decide (0 < size CIDs /\ count < threshold)%nat then
          (inl (ErrTransaction (ErrSaveFileFailed (size CIDs) count threshold)),
           rolledBack redisKey (withFailureCount w count st))
        else
          match sequelizeRejects env w with
          | Some msg =>
              (inl (ErrTransaction (ErrSequelize msg)),
               rolledBack redisKey (withFailureCount w 0 st))
          | None =>
              (inr tt,
               committed redisKey w
                 (bulkCreateAll u (CNodeUser.cnodeUserUUID cnodeUser)
                    (nonTrackFilesOf u) (trackFilesOf u) CIDs d)
                 (withFailureCount w 0 st))
          end
    end.
Proof.
  unfold syncTransaction, transactionBody, upsertCNodeUser.
  unfold Eff.bind, Eff.tryCatch, Eff.gets, emit, Eff.modify, Eff.ret, Eff.throw.
  cbn [db record].
  destruct (CNodeUser_findOne (Some w) (db st)) as [cnodeUserRecord |].
  - destruct (CNodeUser_update u w (db st)) as [[| cnodeUser [| ? ?]] d]; [done | | done].
    unfold incrementFailureCount, resetFailureCount, Eff.modify, getFailureCount,
      rolledBack, committed, withFailureCount.
    cbn [walletToSyncFailureCount record set_walletToSyncFailureCount db redisLocks log].
    repeat case_decide;
      cbn [walletToSyncFailureCount record set_walletToSyncFailureCount] in *;
      try lia; destruct (sequelizeRejects env w); cbn;
      rewrite ?insert_insert_eq; reflexivity.
  - destruct (CNodeUser_create env u w (db st)) as [cnodeUser d].
    unfold incrementFailureCount, resetFailureCount, Eff.modify, getFailureCount,
      rolledBack, committed, withFailureCount.
    cbn [walletToSyncFailureCount record set_walletToSyncFailureCount db redisLocks log].
    repeat case_decide;
      cbn [walletToSyncFailureCount record set_walletToSyncFailureCount] in *;
      try lia; destruct (sequelizeRejects env w); cbn;
      rewrite ?insert_insert_eq; reflexivity.
Qed.

(** *** The save loops *)

(** The slices of a batched loop, put end to end, are the files. *)
Lemma slicesFrom_concat {A} (files : list A) n fuel : forall i,
  (0 < n)%nat -> (length files - i <= fuel)%nat ->
  concat (slicesFrom fuel n i files) = drop i files.
Proof.
  induction fuel as [| fuel IH]; intros i Hn Hfuel; cbn [slicesFrom].
  - rewrite drop_ge by lia. done.
  - case_decide as Hi.
    + cbn [concat]. rewrite IH by lia.
      rewrite <- drop_drop. apply take_drop.
    + rewrite drop_ge by lia. done.
Qed.

Lemma slices_concat {A} (files : list A) n : concat (slices n files) = files.
Proof. unfold slices. rewrite slicesFrom_concat; [done | lia | lia]. Qed.

Lemma foldl_concat {A B} (f : B -> A -> B) (ls : list (list A)) : forall b,
  foldl (fun b l => foldl f b l) b ls = foldl f b (concat ls).
Proof.
  induction ls as [| l ls IH]; intros b; [done |].
  cbn [foldl concat]. by rewrite foldl_app, IH.
Qed.

(** Batching does not change what a save loop computes. *)
Lemma saveInBatches_foldl env save files CIDs :
  saveInBatches env save files CIDs = foldl save CIDs files.
Proof. unfold saveInBatches. by rewrite foldl_concat, slices_concat. Qed.

Lemma saveTrackFile_eq env urs CIDs file :
  saveTrackFile env urs CIDs file =
    if trackFetchFails env urs file then {[File.multihash file]} ∪ CIDs else CIDs.
Proof.
  unfold saveTrackFile, trackFetchFails. by destruct (saveFileForMultihashToFS _ _ _ _ _ _).
Qed.

Lemma saveNonTrackFile_eq env urs CIDs file :
  saveNonTrackFile env urs CIDs file =
    if nonTrackFetchFails env urs file then {[File.multihash file]} ∪ CIDs else CIDs.
Proof.
  unfold saveNonTrackFile, nonTrackFetchFails.
  repeat case_decide; try done; by destruct (saveFileForMultihashToFS _ _ _ _ _ _).
Qed.

(** A loop that adds the multihash of every file whose fetch fails. *)
Lemma elem_of_foldl_save (fails : File.t -> bool) (save : gset string -> File.t -> gset string)
    (files : list File.t) :
  (forall CIDs file,
     save CIDs file = if fails file then {[File.multihash file]} ∪ CIDs else CIDs) ->
  forall CIDs multihash,
    multihash ∈ foldl save CIDs files <->
    multihash ∈ CIDs \/
    exists file, file ∈ files /\ fails file = true /\ File.multihash file = multihash.
Proof.
  intros Hsave. induction files as [| file files IH]; intros CIDs multihash; cbn [foldl].
  - split; [by left | intros [? | (file & Hin & _)]; [done | by apply elem_of_nil in Hin]].
  - rewrite IH, Hsave. split.
    + intros [Hin | (file' & Hin & Hfails & Heq)].
      * destruct (fails file) eqn:Hfile; [| by left].
        apply elem_of_union in Hin as [->%elem_of_singleton | Hin]; [| by left].
        right. exists file. split; [apply list_elem_of_here | done].
      * right. exists file'. split; [by apply list_elem_of_further | done].
    + intros [Hin | (file' & Hin & Hfails & Heq)].
      * left. destruct (fails file); set_solver.
      * apply elem_of_cons in Hin as [-> | Hin].
        -- left. rewrite Hfails. set_solver.
        -- right. by exists file'.
Qed.

(** [CIDsThatFailedSaveFileOp] holds the multihashes of the files whose
    fetch failed, and nothing else. *)
Lemma elem_of_CIDsThatFailedSaveFileOp env urs u multihash :
  multihash ∈ CIDsThatFailedSaveFileOp env urs u <->
  exists file, file ∈ Fetched.files u /\ fetchFails env urs file /\
               File.multihash file = multihash.
Proof.
  unfold CIDsThatFailedSaveFileOp. rewrite !saveInBatches_foldl.
  rewrite (elem_of_foldl_save (nonTrackFetchFails env urs)) by apply saveNonTrackFile_eq.
  rewrite (elem_of_foldl_save (trackFetchFails env urs)) by apply saveTrackFile_eq.
  unfold trackFilesOf, nonTrackFilesOf, fetchFails. split.
  - intros [[Hin | (file & Hin & Hfails & Heq)] | (file & Hin & Hfails & Heq)].
    + by apply not_elem_of_empty in Hin.
    + apply list_elem_of_filter in Hin as [Hty Hin]. exists file. auto.
    + apply list_elem_of_filter in Hin as [Hty Hin]. exists file. auto.
  - intros (file & Hin & [[Hty Hfails] | [Hty Hfails]] & Heq).
    + left. right. exists file. split; [apply list_elem_of_filter |]; done.
    + right. exists file. split; [apply list_elem_of_filter |]; done.
Qed.



(** *** The CNodeUsers table *)

Lemma find_head_filter {A} (p : A -> bool) (l : list A) :
  List.find p l = head (List.filter p l).
Proof. induction l as [| x l IH]; [done |]. cbn. by destruct (p x). Qed.

Lemma filter_wallet_unique w (users : list CNodeUser.t) :
  NoDup (CNodeUser.walletPublicKey <$> users) ->
  (length (List.filter (fun x => bool_decide (CNodeUser.walletPublicKey x = w)) users) <= 1)%nat.
Proof.
  induction users as [| x users IH]; intros Hnodup; cbn; [lia |].
  apply NoDup_cons in Hnodup as [Hnotin Hnodup].
  case_bool_decide as Hx; [| by apply IH].
  cbn. enough (List.filter (fun x => bool_decide (CNodeUser.walletPublicKey x = w)) users = [])
    as -> by (cbn; lia).
  clear IH Hnodup. induction users as [| y users IH]; [done |].
  cbn. apply not_elem_of_cons in Hnotin as [Hne Hnotin].
  rewrite bool_decide_eq_false_2 by congruence. by apply IH.
Qed.

Lemma find_map_updated {A} (p : A -> bool) (g : A -> A) (l : list A) :
  (forall x, p x = true -> p (g x) = true) ->
  List.find p (map (fun x => if p x then g x else x) l) = g <$> List.find p l.
Proof.
  intros Hg. induction l as [| x l IH]; [done |]. cbn.
  destruct (p x) eqn:Hx.
  - by rewrite (Hg x Hx).
  - by rewrite Hx.
Qed.

Lemma find_snoc {A} (p : A -> bool) (l : list A) (x : A) :
  List.find p l = None -> p x = true -> List.find p (l ++ [x]) = Some x.
Proof.
  induction l as [| y l IH]; cbn; intros Hnone Hx.
  - by rewrite Hx.
  - destruct (p y); [done | by apply IH].
Qed.

(** With [walletPublicKey] unique, the update-or-create step succeeds:
    it leaves one row for the wallet, carrying the fetched clock and the
    local [cnodeUserUUID], and touches no other table. *)
Lemma upsertCNodeUser_unique env u w d :
  walletsUnique d ->
  exists cnodeUser d',
    upsertCNodeUser env u w d = inr (cnodeUser, d') /\
    CNodeUser_findOne (Some w) d' = Some cnodeUser /\
    CNodeUser.walletPublicKey cnodeUser = w /\
    CNodeUser.clock cnodeUser = Fetched.clock u /\
    CNodeUser.cnodeUserUUID cnodeUser =
      match CNodeUser_findOne (Some w) d with
      | Some local => CNodeUser.cnodeUserUUID local
      | None => defaultCNodeUserUUID env w
      end /\
    ClockRecords d' = ClockRecords d /\ Files d' = Files d /\
    Tracks d' = Tracks d /\ AudiusUsers d' = AudiusUsers d.
Proof.
  intros Huniq. unfold upsertCNodeUser.
  destruct (CNodeUser_findOne (Some w) d) as [local |] eqn:Hfind.
  - unfold CNodeUser_update. cbn in Hfind.
    pose proof (filter_wallet_unique w (CNodeUsers d) Huniq) as Hlen.
    rewrite find_head_filter in Hfind.
    destruct (List.filter _ (CNodeUsers d)) as [| x [| y rest]] eqn:Hfilter;
      [done | | cbn in Hlen; lia].
    cbn in Hfind. injection Hfind as ->.
    assert (CNodeUser.walletPublicKey local = w) as Hw.
    { assert (In local (List.filter
                (fun x => bool_decide (CNodeUser.walletPublicKey x = w)) (CNodeUsers d)))
        as Hin by (rewrite Hfilter; by left).
      apply filter_In in Hin as [_ Hin]. by apply bool_decide_eq_true in Hin. }
    cbn [map]. eexists _, _. split; [reflexivity |].
    split.
    { cbn [CNodeUser_findOne CNodeUsers].
      rewrite (find_map_updated _ (updatedCNodeUser u)) by done.
      by rewrite find_head_filter, Hfilter. }
    repeat split; done.
  - unfold CNodeUser_create. eexists _, _. split; [reflexivity |].
    split.
    { cbn [CNodeUser_findOne CNodeUsers]. cbn in Hfind.
      apply find_snoc; [done |]. by apply bool_decide_eq_true. }
    repeat split; done.
Qed.


(** *** The run as a whole *)

Lemma syncCNodeUser_eq env wallets blockNumber redisKey localMaxClockVal u w st :
  Fetched.walletPublicKey u = Some w -> w ∈ wallets ->
  syncCNodeUser env wallets blockNumber redisKey localMaxClockVal u st =
    if decide (Fetched.clock u < localMaxClockVal) then
      (inl (ErrClockRegression localMaxClockVal (Fetched.clock u)), st)
    else if decide (Fetched.clock u = localMaxClockVal) then (inr tt, st)
    else
      match head (Fetched.clockRecords u) with
      | Some first =>
          if decide (localMaxClockVal <> -1 /\
                     ClockRecord.clock first <> localMaxClockVal + 1)
          then (inl (ErrNonContiguous localMaxClockVal (ClockRecord.clock first)), st)
          else syncTransaction env redisKey u w (userReplicaSetOf env w blockNumber) st
      | None => syncTransaction env redisKey u w (userReplicaSetOf env w blockNumber) st
      end.
Proof.
  intros Hw Hin. unfold syncCNodeUser. rewrite Hw.
  rewrite decide_False by (intros Hn; by apply Hn).
  destruct (decide (Fetched.clock u < localMaxClockVal)); [done |].
  destruct (decide (Fetched.clock u = localMaxClockVal)); [done |].
  destruct (head (Fetched.clockRecords u)) as [first |]; [| done].
  by destruct (decide (localMaxClockVal <> -1 /\ _)).
Qed.

Lemma clockBaseline_eq wallets forceResync st :
  clockBaseline wallets forceResync st =
    (inr (localMaxClockValOf wallets forceResync (db st)),
     afterBaseline wallets forceResync st).
Proof.
  unfold clockBaseline, localMaxClockValOf, afterBaseline.
  destruct forceResync; [destruct (head wallets) |]; reflexivity.
Qed.

(** The outer [try] block after the baseline: the export request, then
    the loop over the fetched users. *)
Lemma syncOperations_eq env wallets endpoint blockNumber forceResync redisKey st :
  syncOperations env wallets endpoint blockNumber forceResync redisKey st =
    let localMaxClockVal := localMaxClockValOf wallets forceResync (db st) in
    let exportQueryParams := exportQueryParamsOf env wallets localMaxClockVal in
    let st := record (EvExport endpoint exportQueryParams)
                (afterBaseline wallets forceResync st) in
    match axios_export env endpoint exportQueryParams with
    | AxiosRejects msg => (inl (ErrAxios msg), st)
    | AxiosResolves resp =>
        if decide (status resp <> 200) then (inl (ErrExportStatus (data_error resp)), st)
        else
          match export resp with
          | None => (inl ErrMalformedResponse, st)
          | Some data =>
              Eff.forEach
                (syncCNodeUser env wallets blockNumber redisKey localMaxClockVal)
                (cnodeUsers data) st
          end
    end.
Proof.
  unfold syncOperations, Eff.bind. rewrite clockBaseline_eq. cbv zeta.
  unfold emit, Eff.modify.
  destruct (axios_export env endpoint _) as [msg | resp]; [done |].
  case_decide; [done |]. by destruct (export resp).
Qed.

(** With every lock free, a run is the outer [try] block run under all
    the locks, the [catch] block if it threw, then the [finally] block. *)
Lemma processSync_eq env wallets endpoint blockNumber forceResync st :
  locksFree wallets st ->
  processSync env wallets endpoint blockNumber forceResync st =
    match syncOperations env wallets endpoint blockNumber forceResync
            (getNodeSyncRedisKey <$> last wallets) (lockAll wallets st) with
    | (inl e, st') => (Some e, releaseLocks wallets (recordSyncFails wallets st'))
    | (inr _, st') => (None, releaseLocks wallets st')
    end.
Proof.
  intros Hfree. unfold processSync. rewrite acquireLocks_free by done.
  replace (from_option (fun w => Some (getNodeSyncRedisKey w)) None (last wallets))
    with (getNodeSyncRedisKey <$> last wallets) by (by destruct (last wallets)).
  by destruct (syncOperations _ _ _ _ _ _ _) as [[e | []] st'].
Qed.

(** A run that found every lock free leaves every lock of the job
    released, however it ends. *)
Lemma processSync_releases_locks env wallets endpoint blockNumber forceResync st w :
  locksFree wallets st -> w ∈ wallets ->
  getNodeSyncRedisKey w ∉
    redisLocks (processSync env wallets endpoint blockNumber forceResync st).2.
Proof.
  intros Hfree Hw. rewrite processSync_eq by done.
  destruct (syncOperations _ _ _ _ _ _ _) as [[e | []] st']; cbn [snd];
    rewrite releaseLocks_locks; set_solver.
Qed.

(** *** What the log of a run shows *)

Lemma removeLock_var_log redisKey st :
  exists evs, log (removeLock_var redisKey st) = log st ++ evs /\
              Forall isTransactionEvent evs.
Proof.
  destruct redisKey as [k |]; cbn.
  - exists [EvRemoveLock k]. split; [done |]. by repeat constructor.
  - exists []. split; [by rewrite app_nil_r | constructor].
Qed.

Lemma syncTransaction_log env redisKey u w urs st r st' :
  syncTransaction env redisKey u w urs st = (r, st') ->
  exists evs, log st' = log st ++ evs /\ Forall isTransactionEvent evs.
Proof.
  rewrite syncTransaction_eq.
  destruct (upsertCNodeUser env u w (db st)) as [e | [cnodeUser d]].
  - intros [= <- <-]. unfold rolledBack.
    destruct (removeLock_var_log redisKey (record EvRollback (record EvTransaction st)))
      as (evs & -> & Hevs).
    exists ([EvTransaction; EvRollback] ++ evs). cbn. rewrite <- !app_assoc. split; [done |].
    by repeat constructor.
  - cbv zeta. case_decide.
    + intros [= <- <-]. unfold rolledBack.
      destruct (removeLock_var_log redisKey
                  (record EvRollback (record EvTransaction
                     (withFailureCount w (S (getFailureCount w st)) st))))
        as (evs & -> & Hevs).
      exists ([EvTransaction; EvRollback] ++ evs). cbn. rewrite <- !app_assoc. split; [done |].
      by repeat constructor.
    + destruct (sequelizeRejects env w) as [msg |]; intros [= <- <-].
      * unfold rolledBack.
        destruct (removeLock_var_log redisKey
                    (record EvRollback (record EvTransaction (withFailureCount w 0 st))))
          as (evs & -> & Hevs).
        exists ([EvTransaction; EvRollback] ++ evs). cbn. rewrite <- !app_assoc.
        split; [done |]. by repeat constructor.
      * unfold committed. cbn [log record].
        match goal with
        | |- context [removeLock_var redisKey ?s] =>
            destruct (removeLock_var_log redisKey s) as (evs & -> & Hevs)
        end.
        exists ([EvTransaction; EvCommit] ++ evs ++ [EvRecordSyncSuccess w]).
        cbn. rewrite <- !app_assoc. split; [done |].
        repeat constructor. apply Forall_app. split; [done |]. by repeat constructor.
Qed.

Lemma syncCNodeUser_log env wallets blockNumber redisKey local u st r st' :
  syncCNodeUser env wallets blockNumber redisKey local u st = (r, st') ->
  exists evs, log st' = log st ++ evs /\ Forall isTransactionEvent evs.
Proof.
  assert (forall e, (inl e, st) = (r, st') ->
            exists evs, log st' = log st ++ evs /\ Forall isTransactionEvent evs) as Hthrow.
  { intros e [= <- <-]. exists []. split; [by rewrite app_nil_r | constructor]. }
  unfold syncCNodeUser, Eff.throw, Eff.ret.
  destruct (Fetched.walletPublicKey u) as [w |]; [| apply Hthrow].
  case_decide; [apply Hthrow |]. case_decide; [apply Hthrow |].
  case_decide.
  { intros [= <- <-]. exists []. split; [by rewrite app_nil_r | constructor]. }
  destruct (head (Fetched.clockRecords u)); [case_decide; [apply Hthrow |] |];
    apply syncTransaction_log.
Qed.

Lemma forEach_syncCNodeUser_log env wallets blockNumber redisKey local users :
  forall st r st',
    Eff.forEach (syncCNodeUser env wallets blockNumber redisKey local) users st = (r, st') ->
    exists evs, log st' = log st ++ evs /\ Forall isTransactionEvent evs.
Proof.
  induction users as [| u users IH]; intros st r st'; cbn [Eff.forEach].
  - intros [= <- <-]. exists []. split; [by rewrite app_nil_r | constructor].
  - unfold Eff.bind.
    destruct (syncCNodeUser _ _ _ _ _ u st) as [[e | []] st1] eqn:Hu.
    + intros [= <- <-]. by eapply syncCNodeUser_log.
    + intros Hrest. apply syncCNodeUser_log in Hu as (evs1 & Hlog1 & Hevs1).
      apply IH in Hrest as (evs2 & Hlog2 & Hevs2).
      exists (evs1 ++ evs2). rewrite Hlog2, Hlog1, <- app_assoc.
      split; [done | by apply Forall_app].
Qed.

Lemma isTransactionEvent_after e : isTransactionEvent e -> isAfterExportEvent e.
Proof. by destruct e. Qed.

(** The log of a run that found every lock free: the locks are set, one
    for each wallet; with [forceResync], the data of the first wallet is
    deleted; one export is requested, from the baseline's successor; and
    nothing after it sets a lock, deletes user data or requests an export. *)
Lemma processSync_log env w ws endpoint blockNumber forceResync st :
  let wallets := w :: ws in
  locksFree wallets st ->
  exists evs,
    log (processSync env wallets endpoint blockNumber forceResync st).2 =
      log st
      ++ ((fun w => EvSetLock (getNodeSyncRedisKey w)) <$> wallets)
      ++ (if forceResync then [EvDeleteAllCNodeUserData w] else [])
      ++ EvExport endpoint
           (exportQueryParamsOf env wallets (localMaxClockValOf wallets forceResync (db st)))
         :: evs /\
    Forall isAfterExportEvent evs.
Proof.
  intros wallets Hfree. rewrite processSync_eq by done.
  rewrite syncOperations_eq. cbv zeta. rewrite lockAll_db.
  set (q := exportQueryParamsOf env wallets _).
  set (st1 := record (EvExport endpoint q) (afterBaseline wallets forceResync (lockAll wallets st))).
  assert (log st1 = log st
      ++ ((fun w => EvSetLock (getNodeSyncRedisKey w)) <$> wallets)
      ++ (if forceResync then [EvDeleteAllCNodeUserData w] else [])
      ++ [EvExport endpoint q]) as Hst1.
  { unfold st1, afterBaseline. destruct forceResync; cbn [head wallets log record set_db];
      rewrite lockAll_log; rewrite <- ?app_assoc; done. }
  assert (forall (r : SyncError + unit) st2 evs2,
            log st2 = log st1 ++ evs2 -> Forall isAfterExportEvent evs2 ->
            exists evs,
              log (match r with
                   | inl e => (Some e, releaseLocks wallets (recordSyncFails wallets st2))
                   | inr _ => (None, releaseLocks wallets st2)
                   end : option SyncError * State).2 =
                log st
                ++ ((fun w => EvSetLock (getNodeSyncRedisKey w)) <$> wallets)
                ++ (if forceResync then [EvDeleteAllCNodeUserData w] else [])
                ++ EvExport endpoint q :: evs /\
              Forall isAfterExportEvent evs) as Hend.
  { intros r st2 evs2 Hlog2 Hevs2.
    destruct r as [e | []]; cbn [snd].
    - exists (evs2 ++ (EvRecordSyncFail <$> wallets)
                ++ ((fun w => EvRemoveLock (getNodeSyncRedisKey w)) <$> wallets)).
      rewrite releaseLocks_log, recordSyncFails_log, Hlog2, Hst1.
      split.
      + rewrite <- !app_assoc. done.
      + repeat (apply Forall_app; split); try done; by apply Forall_fmap, Forall_true.
    - exists (evs2 ++ ((fun w => EvRemoveLock (getNodeSyncRedisKey w)) <$> wallets)).
      rewrite releaseLocks_log, Hlog2, Hst1.
      split.
      + rewrite <- !app_assoc. done.
      + apply Forall_app; split; [done |]. by apply Forall_fmap, Forall_true. }
  assert (forall e : SyncError, exists evs,
            log (Some e, releaseLocks wallets (recordSyncFails wallets st1)).2 =
              log st ++ ((fun w => EvSetLock (getNodeSyncRedisKey w)) <$> wallets)
              ++ (if forceResync then [EvDeleteAllCNodeUserData w] else [])
              ++ EvExport endpoint q :: evs /\
            Forall isAfterExportEvent evs) as Hthrow.
  { intros e. apply (Hend (inl e) st1 []); [by rewrite app_nil_r | constructor]. }
  destruct (axios_export env endpoint q) as [msg | resp]; [apply Hthrow |].
  case_decide; [apply Hthrow |].
  destruct (export resp) as [data |]; [| apply Hthrow].
  destruct (Eff.forEach _ (cnodeUsers data) st1) as [r st2] eqn:Hloop.
  apply forEach_syncCNodeUser_log in Hloop as (evs2 & Hlog2 & Hevs2).
  apply (Hend r st2 evs2 Hlog2).
  eapply Forall_impl; [exact Hevs2 | apply isTransactionEvent_after].
Qed.


(** *** Deleting a user's data *)

Lemma findOne_deleteAll w d :
  CNodeUser_findOne (Some w) (deleteAllCNodeUserDataFromDB w d) = None.
Proof.
  cbn. induction (CNodeUsers d) as [| x users IH]; [done |].
  rewrite filter_cons. case_decide as Hx; [| done].
  cbn. by rewrite bool_decide_eq_false_2.
Qed.

Lemma findOne_deleteAll_other w w' d :
  w' <> w ->
  CNodeUser_findOne (Some w') (deleteAllCNodeUserDataFromDB w d) = CNodeUser_findOne (Some w') d.
Proof.
  intros Hne. cbn. induction (CNodeUsers d) as [| x users IH]; [done |].
  rewrite filter_cons. case_decide as Hx; cbn.
  - by rewrite IH.
  - rewrite bool_decide_eq_false_2 by congruence. done.
Qed.

(** No row of any table belongs to a user of the wallet any more. *)
Lemma deleteAll_no_rows w d local :
  local ∈ CNodeUsers d -> CNodeUser.walletPublicKey local = w ->
  let d' := deleteAllCNodeUserDataFromDB w d in
  ((local ∉ CNodeUsers d') /\
   (forall r, r ∈ ClockRecords d' ->
      ClockRecord.cnodeUserUUID r <> CNodeUser.cnodeUserUUID local) /\
   (forall f, f ∈ Files d' -> File.cnodeUserUUID f <> CNodeUser.cnodeUserUUID local) /\
   (forall t, t ∈ Tracks d' -> Track.cnodeUserUUID t <> CNodeUser.cnodeUserUUID local) /\
   (forall a, a ∈ AudiusUsers d' ->
      AudiusUser.cnodeUserUUID a <> CNodeUser.cnodeUserUUID local)).
Proof.
  intros Hin Hw d'.
  assert (CNodeUser.cnodeUserUUID local ∈
            map CNodeUser.cnodeUserUUID
              (filter (fun x => CNodeUser.walletPublicKey x = w) (CNodeUsers d))) as Huuid.
  { apply (list_elem_of_fmap_2 CNodeUser.cnodeUserUUID). by apply list_elem_of_filter. }
  unfold d', deleteAllCNodeUserDataFromDB. cbn.
  split; [intros [? _]%list_elem_of_filter; done |].
  repeat split; intros r [Hr _]%list_elem_of_filter Heq; apply Hr; by rewrite Heq.
Qed.


(** *** What a transaction's end leaves *)

Lemma removeLock_var_db redisKey st : db (removeLock_var redisKey st) = db st.
Proof. by destruct redisKey. Qed.

Lemma removeLock_var_counts redisKey st :
  walletToSyncFailureCount (removeLock_var redisKey st) = walletToSyncFailureCount st.
Proof. by destruct redisKey. Qed.



Lemma committed_db redisKey w d st : db (committed redisKey w d st) = d.
Proof. unfold committed. cbn. by rewrite removeLock_var_db. Qed.

Lemma committed_count redisKey w d count st :
  getFailureCount w (committed redisKey w d (withFailureCount w count st)) = count.
Proof.
  unfold committed, getFailureCount. cbn. rewrite removeLock_var_counts. cbn.
  by rewrite lookup_insert_eq.
Qed.

Lemma committed_log redisKey w d st :
  exists evs, log (committed redisKey w d st) = log st ++ EvTransaction :: EvCommit :: evs.
Proof.
  unfold committed. cbn [log record].
  match goal with
  | |- context [removeLock_var redisKey ?s] =>
      destruct (removeLock_var_log redisKey s) as (evs & -> & _)
  end.
  exists (evs ++ [EvRecordSyncSuccess w]). cbn. by rewrite <- !app_assoc.
Qed.

Lemma rolledBack_log redisKey st :
  exists evs, log (rolledBack redisKey st) = log st ++ EvTransaction :: EvRollback :: evs.
Proof.
  unfold rolledBack.
  destruct (removeLock_var_log redisKey (record EvRollback (record EvTransaction st)))
    as (evs & -> & _).
  exists evs. cbn. by rewrite <- !app_assoc.
Qed.

(** A user whose export is ahead of the baseline and contiguous with it
    goes to the transaction. *)
Lemma syncCNodeUser_transaction env wallets blockNumber redisKey local u w st :
  Fetched.walletPublicKey u = Some w -> w ∈ wallets ->
  local < Fetched.clock u -> contiguous local u ->
  syncCNodeUser env wallets blockNumber redisKey local u st =
    syncTransaction env redisKey u w (userReplicaSetOf env w blockNumber) st.
Proof.
  intros Hw Hin Hahead Hcont. rewrite (syncCNodeUser_eq _ _ _ _ _ _ w) by done.
  rewrite !decide_False by lia. unfold contiguous in Hcont.
  destruct (head (Fetched.clockRecords u)); [| done]. by rewrite decide_False.
Qed.





(** The locks of a job, set and then released, leave the lock store as
    it was. *)
Lemma locks_set_and_released wallets st :
  locksFree wallets st ->
  (list_to_set (getNodeSyncRedisKey <$> wallets) ∪ redisLocks st)
    ∖ list_to_set (getNodeSyncRedisKey <$> wallets) = redisLocks st.
Proof.
  intros [_ Hfree].
  assert (forall k, k ∈ (list_to_set (getNodeSyncRedisKey <$> wallets) : gset string) ->
                    k ∉ redisLocks st) as Hdisj.
  { intros k [w [-> Hw]]%elem_of_list_to_set%list_elem_of_fmap. by apply Hfree. }
  set_solver.
Qed.

(** A run without [forceResync] whose first fetched user makes the loop
    body throw [e] before any write: the error is returned, the failure
    is recorded for every wallet and the locks are released. *)
Lemma processSync_first_user_throws env wallets endpoint blockNumber st resp data u rest e :
  locksFree wallets st ->
  let local := localMaxClockValOf wallets false (db st) in
  let exportQueryParams := exportQueryParamsOf env wallets local in
  axios_export env endpoint exportQueryParams = AxiosResolves resp ->
  status resp = 200 -> export resp = Some data -> cnodeUsers data = u :: rest ->
  (forall redisKey st1,
     syncCNodeUser env wallets blockNumber redisKey local u st1 = (inl e, st1)) ->
  processSync env wallets endpoint blockNumber false st =
    (Some e,
     releaseLocks wallets
       (recordSyncFails wallets
          (record (EvExport endpoint exportQueryParams) (lockAll wallets st)))).
Proof.
  intros Hfree local q Hresp Hstatus Hexport Husers Hthrow.
  rewrite processSync_eq by done. rewrite syncOperations_eq. cbv zeta.
  rewrite lockAll_db. fold local q. rewrite Hresp.
  rewrite decide_False by (rewrite Hstatus; intros Hn; by apply Hn). rewrite Hexport, Husers.
  cbn [Eff.forEach]. unfold Eff.bind. by rewrite Hthrow.
Qed.

(** *** The claims *)

(** C1. A run without [forceResync], with every lock free, whose local
    clock is [localMaxClockVal >= 0], and whose export is answered with
    user [u] first. If [u]'s clock is below the local clock the run
    returns the regression error; if [u]'s first clock record is not
    [localMaxClockVal + 1] (its clock being above) the run returns the
    non-contiguity error; in both cases the database is unchanged, the
    log shows no transaction, only the export request, the recorded
    failure and the locks set and released, and the lock store is as
    before. If the clocks are equal the loop body returns without
    touching any store, and a run with no further user returns no error
    and leaves the database unchanged. In each case the loop body does
    the same from any state: it throws, or returns, and leaves every
    store as it found it. *)
Theorem clock_checks env w0 ws endpoint blockNumber st localUser resp data u rest w :
  let walletPublicKeys := w0 :: ws in
  locksFree walletPublicKeys st ->
  CNodeUser_findOne (Some w0) (db st) = Some localUser ->
  let localMaxClockVal := CNodeUser.clock localUser in
  0 <= localMaxClockVal ->
  let exportQueryParams := exportQueryParamsOf env walletPublicKeys localMaxClockVal in
  axios_export env endpoint exportQueryParams = AxiosResolves resp ->
  status resp = 200 -> export resp = Some data -> cnodeUsers data = u :: rest ->
  Fetched.walletPublicKey u = Some w -> w ∈ walletPublicKeys ->
  let run := processSync env walletPublicKeys endpoint blockNumber false st in
  let failedLog :=
    log st
    ++ ((fun w => EvSetLock (getNodeSyncRedisKey w)) <$> walletPublicKeys)
    ++ [EvExport endpoint exportQueryParams]
    ++ (EvRecordSyncFail <$> walletPublicKeys)
    ++ ((fun w => EvRemoveLock (getNodeSyncRedisKey w)) <$> walletPublicKeys) in
  let body := syncCNodeUser env walletPublicKeys blockNumber in
  (Fetched.clock u < localMaxClockVal ->
     (forall redisKey st1,
        body redisKey localMaxClockVal u st1
          = (inl (ErrClockRegression localMaxClockVal (Fetched.clock u)), st1)) /\
     run.1 = Some (ErrClockRegression localMaxClockVal (Fetched.clock u)) /\
     db run.2 = db st /\ log run.2 = failedLog /\ redisLocks run.2 = redisLocks st) /\
  (Fetched.clock u = localMaxClockVal ->
     (forall redisKey st1, body redisKey localMaxClockVal u st1 = (inr tt, st1)) /\
     (rest = [] -> run.1 = None /\ db run.2 = db st)) /\
  (forall first others,
     localMaxClockVal < Fetched.clock u ->
     Fetched.clockRecords u = first :: others ->
     ClockRecord.clock first <> localMaxClockVal + 1 ->
     (forall redisKey st1,
        body redisKey localMaxClockVal u st1
          = (inl (ErrNonContiguous localMaxClockVal (ClockRecord.clock first)), st1)) /\
     run.1 = Some (ErrNonContiguous localMaxClockVal (ClockRecord.clock first)) /\
     db run.2 = db st /\ log run.2 = failedLog /\ redisLocks run.2 = redisLocks st).
Proof.
  intros walletPublicKeys Hfree Hlocal localMaxClockVal Hnonneg q Hresp Hstatus Hexport
    Husers Hw Hin run failedLog body. subst body.
  assert (localMaxClockValOf walletPublicKeys false (db st) = localMaxClockVal) as Hbase.
  { unfold localMaxClockValOf, walletPublicKeys. cbn [head]. by rewrite Hlocal. }
  assert (forall e,
            (forall redisKey st1,
               syncCNodeUser env walletPublicKeys blockNumber redisKey localMaxClockVal u st1
                 = (inl e, st1)) ->
            (forall redisKey st1,
               syncCNodeUser env walletPublicKeys blockNumber redisKey localMaxClockVal u st1
                 = (inl e, st1)) /\
            run.1 = Some e /\ db run.2 = db st /\ log run.2 = failedLog /\
            redisLocks run.2 = redisLocks st) as Hfails.
  { intros e Hthrow. split; [exact Hthrow |]. unfold run.
    rewrite (processSync_first_user_throws env walletPublicKeys endpoint blockNumber st
               resp data u rest e); try done; rewrite ?Hbase; try done.
    cbn [fst snd]. split; [done |]. split; [| split].
    - rewrite releaseLocks_db, recordSyncFails_db. cbn [db record]. by rewrite lockAll_db.
    - rewrite releaseLocks_log, recordSyncFails_log. cbn [log record].
      rewrite lockAll_log. unfold failedLog, q. by rewrite <- !app_assoc.
    - rewrite releaseLocks_locks, recordSyncFails_locks. cbn [redisLocks record].
      rewrite lockAll_locks. by apply locks_set_and_released. }
  split; [| split].
  - intros Hbelow. apply Hfails. intros redisKey st1.
    rewrite (syncCNodeUser_eq _ _ _ _ _ _ w) by done. by rewrite decide_True.
  - intros Heq. split.
    + intros redisKey st1. rewrite (syncCNodeUser_eq _ _ _ _ _ _ w) by done.
      rewrite decide_False by lia. by rewrite decide_True.
    + intros ->. unfold run. rewrite processSync_eq by done. rewrite syncOperations_eq.
      cbv zeta. rewrite lockAll_db, Hbase. fold q. rewrite Hresp.
      rewrite decide_False by (rewrite Hstatus; intros Hn; by apply Hn). rewrite Hexport, Husers.
      cbn [Eff.forEach]. unfold Eff.bind.
      rewrite (syncCNodeUser_eq _ _ _ _ _ _ w) by done.
      rewrite decide_False by lia. rewrite decide_True by done.
      unfold Eff.ret. cbn [fst snd]. split; [done |]. rewrite releaseLocks_db.
      cbn [db record afterBaseline]. by rewrite lockAll_db.
  - intros first others Habove Hrecords Hgap. apply Hfails. intros redisKey st1.
    rewrite (syncCNodeUser_eq _ _ _ _ _ _ w) by done.
    rewrite !decide_False by lia. rewrite Hrecords. cbn [head].
    rewrite decide_True; [done |]. split; [lia | done].
Qed.

(** *** A run whose first fetched user reaches its transaction *)

Lemma removeLock_var_locks redisKey st :
  redisLocks (removeLock_var redisKey st) =
    redisLocks st ∖ from_option singleton ∅ redisKey.
Proof. destruct redisKey as [k |]; cbn; set_solver. Qed.

(** The locks of a run are back as they were once [releaseLocks] has
    run, whatever lock of the job was released before. *)
Lemma releaseLocks_restores wallets st st' (released : gset string) :
  locksFree wallets st ->
  redisLocks st' = redisLocks (lockAll wallets st) ∖ released ->
  released ⊆ list_to_set (getNodeSyncRedisKey <$> wallets) ->
  redisLocks (releaseLocks wallets st') = redisLocks st.
Proof.
  intros Hfree Hlocks Hsub. rewrite releaseLocks_locks, Hlocks, lockAll_locks.
  pose proof (locks_set_and_released wallets st Hfree). set_solver.
Qed.

Lemma last_key_locked wallets :
  from_option singleton (∅ : gset string) (getNodeSyncRedisKey <$> last wallets)
    ⊆ list_to_set (getNodeSyncRedisKey <$> wallets).
Proof.
  destruct (last wallets) as [w |] eqn:Hw; cbn; [| set_solver].
  apply last_Some in Hw as [ws' ->]. rewrite fmap_app. set_solver.
Qed.

Lemma processSync_first_user env wallets endpoint blockNumber st resp data u rest :
  locksFree wallets st ->
  let local := localMaxClockValOf wallets false (db st) in
  let exportQueryParams := exportQueryParamsOf env wallets local in
  axios_export env endpoint exportQueryParams = AxiosResolves resp ->
  status resp = 200 -> export resp = Some data -> cnodeUsers data = u :: rest ->
  let st0 := record (EvExport endpoint exportQueryParams) (lockAll wallets st) in
  let step := syncCNodeUser env wallets blockNumber (getNodeSyncRedisKey <$> last wallets)
                local in
  processSync env wallets endpoint blockNumber false st =
    match step u st0 with
    | (inl e, st') => (Some e, releaseLocks wallets (recordSyncFails wallets st'))
    | (inr _, st') =>
        match Eff.forEach step rest st' with
        | (inl e, st'') => (Some e, releaseLocks wallets (recordSyncFails wallets st''))
        | (inr _, st'') => (None, releaseLocks wallets st'')
        end
    end.
Proof.
  intros Hfree local exportQueryParams Hresp Hstatus Hexport Husers st0 step.
  rewrite processSync_eq by done. rewrite syncOperations_eq. cbv zeta.
  rewrite lockAll_db. fold local exportQueryParams. rewrite Hresp.
  rewrite decide_False by (rewrite Hstatus; intros Hn; by apply Hn).
  rewrite Hexport, Husers. cbn [Eff.forEach afterBaseline]. unfold Eff.bind.
  fold st0 step. by destruct (step u st0) as [[e | []] st'].
Qed.

Section FirstUser.

Variables (env : Env) (wallets : list string) (endpoint : string) (blockNumber : option Z).
Variables (resp : AxiosResponse) (data : ExportData) (u : Fetched.t) (rest : list Fetched.t).
Variables (w : string) (local : Z).

Let exportQueryParams := exportQueryParamsOf env wallets local.
Let CIDs := CIDsThatFailedSaveFileOp env (userReplicaSetOf env w blockNumber) u.
Let threshold := syncRequestMaxUserFailureCountBeforeSkip env.

Hypothesis Hresp : axios_export env endpoint exportQueryParams = AxiosResolves resp.
Hypothesis Hstatus : status resp = 200.
Hypothesis Hexport : export resp = Some data.
Hypothesis Husers : cnodeUsers data = u :: rest.
Hypothesis Hw : Fetched.walletPublicKey u = Some w.
Hypothesis Hin : w ∈ wallets.
Hypothesis Hahead : local < Fetched.clock u.
Hypothesis Hcont : contiguous local u.


(** The run gets past the gate and its writes are accepted: with no
    further user in the export it returns no error, the database is the
    transaction's view after the five inserts, the count is 0 and the
    locks are as before the run. *)
Lemma processSync_gate_passes st :
  locksFree wallets st -> localMaxClockValOf wallets false (db st) = local ->
  walletsUnique (db st) ->
  let count := S (getFailureCount w st) in
  ~ ((0 < size CIDs)%nat /\ (count < threshold)%nat) ->
  sequelizeRejects env w = None -> rest = [] ->
  let run := processSync env wallets endpoint blockNumber false st in
  run.1 = None /\
  getFailureCount w run.2 = 0%nat /\
  redisLocks run.2 = redisLocks st /\
  EvCommit ∈ log run.2 /\
  exists cnodeUser d,
    upsertCNodeUser env u w (db st) = inr (cnodeUser, d) /\
    db run.2 = bulkCreateAll u (CNodeUser.cnodeUserUUID cnodeUser)
                 (nonTrackFilesOf u) (trackFilesOf u) CIDs d.
Proof.
  intros Hfree Hlocal Huniq count Hgate Hwrites Hrest run. subst run.
  rewrite (processSync_first_user env wallets endpoint blockNumber st resp data u rest);
    rewrite ?Hlocal; try done.
  rewrite (syncCNodeUser_transaction _ _ _ _ _ _ w) by done.
  rewrite syncTransaction_eq. cbn [db record]. rewrite lockAll_db.
  destruct (upsertCNodeUser_unique env u w (db st) Huniq) as (cnodeUser & d & Hupsert & _).
  rewrite Hupsert. cbv zeta. fold CIDs threshold.
  replace (getFailureCount w (record _ (lockAll wallets st))) with (getFailureCount w st)
    by (unfold getFailureCount; cbn [walletToSyncFailureCount record];
        by rewrite lockAll_counts).
  fold count. rewrite decide_False by done. rewrite Hwrites, Hrest.
  cbn [Eff.forEach fst snd]. unfold Eff.ret. cbn [fst snd].
  split; [done |]. split; [| split; [| split]].
  - unfold getFailureCount. rewrite releaseLocks_counts. apply committed_count.
  - apply (releaseLocks_restores _ _ _
             (from_option singleton ∅ (getNodeSyncRedisKey <$> last wallets)));
      [done | | apply last_key_locked].
    unfold committed. cbn [redisLocks record]. by rewrite removeLock_var_locks.
  - rewrite releaseLocks_log.
    match goal with
    | |- context [committed ?rk w ?d1 ?s] => destruct (committed_log rk w d1 s) as (evs & ->)
    end.
    rewrite !elem_of_app. left. right. set_solver.
  - exists cnodeUser, d. split; [done |]. by rewrite releaseLocks_db, committed_db.
Qed.

End FirstUser.

(** C9. A run in which the local clock is non-negative and the first
    fetched user has a clock above it and an empty [clockRecords] array.
    The loop body raises no non-contiguity error and opens the
    transaction, from any state, and so does [processSync]: its log
    holds the transaction, and with no further user in the export the
    error it returns, if any, is not the non-contiguity error. With
    wallets unique in the database, no rejected write, the failed-fetch
    gate passed (no failed fetch, or the failure count at the threshold)
    and no further user, [processSync] returns no error and has
    committed: the user's row carries the higher fetched clock, the
    ClockRecords table is as before, and the locks are as before the
    run. *)
Theorem empty_clockRecords_commit env w0 ws endpoint blockNumber st localUser resp data
    u rest w :
  let walletPublicKeys := w0 :: ws in
  locksFree walletPublicKeys st ->
  CNodeUser_findOne (Some w0) (db st) = Some localUser ->
  let localMaxClockVal := CNodeUser.clock localUser in
  0 <= localMaxClockVal ->
  let exportQueryParams := exportQueryParamsOf env walletPublicKeys localMaxClockVal in
  axios_export env endpoint exportQueryParams = AxiosResolves resp ->
  status resp = 200 -> export resp = Some data -> cnodeUsers data = u :: rest ->
  Fetched.walletPublicKey u = Some w -> w ∈ walletPublicKeys ->
  localMaxClockVal < Fetched.clock u ->
  Fetched.clockRecords u = [] ->
  let CIDs := CIDsThatFailedSaveFileOp env (userReplicaSetOf env w blockNumber) u in
  let run := processSync env walletPublicKeys endpoint blockNumber false st in
  let body := syncCNodeUser env walletPublicKeys blockNumber in
  (forall redisKey st1,
     (forall a b, (body redisKey localMaxClockVal u st1).1 <> inl (ErrNonContiguous a b)) /\
     (exists evs, log (body redisKey localMaxClockVal u st1).2
                  = log st1 ++ EvTransaction :: evs)) /\
  EvTransaction ∈ log run.2 /\
  (rest = [] -> forall a b, run.1 <> Some (ErrNonContiguous a b)) /\
  (walletsUnique (db st) ->
   sequelizeRejects env w = None ->
   (size CIDs = 0 \/
    syncRequestMaxUserFailureCountBeforeSkip env <= S (getFailureCount w st))%nat ->
   rest = [] ->
   run.1 = None /\
   (exists cnodeUser,
      CNodeUser_findOne (Some w) (db run.2) = Some cnodeUser /\
      CNodeUser.clock cnodeUser = Fetched.clock u /\
      localMaxClockVal < CNodeUser.clock cnodeUser) /\
   ClockRecords (db run.2) = ClockRecords (db st) /\
   EvCommit ∈ log run.2 /\
   redisLocks run.2 = redisLocks st).
Proof.
  intros walletPublicKeys Hfree Hlocal localMaxClockVal Hnonneg exportQueryParams
    Hresp Hstatus Hexport Husers Hw Hin Hahead Hrecords CIDs run body.
  assert (contiguous localMaxClockVal u) as Hcont
    by (unfold contiguous; by rewrite Hrecords).
  assert (localMaxClockValOf walletPublicKeys false (db st) = localMaxClockVal) as Hbase.
  { unfold localMaxClockValOf, walletPublicKeys. cbn [head]. by rewrite Hlocal. }
  assert (forall redisKey st1,
            (forall e, (body redisKey localMaxClockVal u st1).1 = inl e ->
                       exists e', e = ErrTransaction e') /\
            (exists evs, log (body redisKey localMaxClockVal u st1).2
                         = log st1 ++ EvTransaction :: evs)) as Hbody.
  { intros redisKey st1. unfold body.
    rewrite (syncCNodeUser_transaction _ _ _ _ _ _ w) by done.
    rewrite syncTransaction_eq.
    destruct (upsertCNodeUser env u w (db st1)) as [e0 | [cnodeUser d]].
    { cbn [fst snd]. split; [intros e [= <-]; eauto |].
      destruct (rolledBack_log redisKey st1) as (evs & ->). eauto. }
    cbv zeta. case_decide.
    { cbn [fst snd]. split; [intros e [= <-]; eauto |].
      match goal with
      | |- context [log (rolledBack redisKey ?s)] =>
          destruct (rolledBack_log redisKey s) as (evs & ->)
      end. eauto. }
    destruct (sequelizeRejects env w); cbn [fst snd].
    { split; [intros e [= <-]; eauto |].
      match goal with
      | |- context [log (rolledBack redisKey ?s)] =>
          destruct (rolledBack_log redisKey s) as (evs & ->)
      end. eauto. }
    split; [done |].
    match goal with
    | |- context [committed redisKey w ?d1 ?s] =>
        destruct (committed_log redisKey w d1 s) as (evs & ->)
    end. eauto. }
  assert (run =
            match body (getNodeSyncRedisKey <$> last walletPublicKeys) localMaxClockVal u
                    (record (EvExport endpoint exportQueryParams)
                       (lockAll walletPublicKeys st)) with
            | (inl e, st') =>
                (Some e, releaseLocks walletPublicKeys (recordSyncFails walletPublicKeys st'))
            | (inr _, st') =>
                match Eff.forEach
                        (body (getNodeSyncRedisKey <$> last walletPublicKeys) localMaxClockVal)
                        rest st' with
                | (inl e, st'') =>
                    (Some e,
                     releaseLocks walletPublicKeys (recordSyncFails walletPublicKeys st''))
                | (inr _, st'') => (None, releaseLocks walletPublicKeys st'')
                end
            end) as Hrun.
  { unfold run, body, exportQueryParams. rewrite <- Hbase.
    apply (processSync_first_user env walletPublicKeys endpoint blockNumber st resp data
             u rest); rewrite ?Hbase; done. }
  split; [| split; [| split]].
  - intros redisKey st1. destruct (Hbody redisKey st1) as [Herr Hlog]. split; [| done].
    intros a b Hab. by destruct (Herr _ Hab).
  - rewrite Hrun.
    set (st0 := record (EvExport endpoint exportQueryParams) (lockAll walletPublicKeys st)).
    destruct (Hbody (getNodeSyncRedisKey <$> last walletPublicKeys) st0) as [_ (evs & Hlog)].
    destruct (body _ localMaxClockVal u st0) as [[e | []] st'] eqn:Hstep; cbn [snd] in Hlog.
    + cbn [snd]. rewrite releaseLocks_log, recordSyncFails_log, Hlog. set_solver.
    + destruct (Eff.forEach _ rest st') as [[e | []] st''] eqn:Hloop; cbn [snd];
        destruct (forEach_syncCNodeUser_log _ _ _ _ _ _ _ _ _ Hloop) as (evs' & Hlog' & _);
        rewrite releaseLocks_log, ?recordSyncFails_log, Hlog', Hlog; set_solver.
  - intros -> a b. rewrite Hrun.
    set (st0 := record (EvExport endpoint exportQueryParams) (lockAll walletPublicKeys st)).
    destruct (Hbody (getNodeSyncRedisKey <$> last walletPublicKeys) st0) as [Herr _].
    destruct (body _ localMaxClockVal u st0) as [[e | []] st'] eqn:Hstep; cbn [fst].
    + destruct (Herr e eq_refl) as [e' ->]. done.
    + done.
  - intros Huniq Hwrites Hgate Hrest.
    destruct (processSync_gate_passes env walletPublicKeys endpoint blockNumber resp data
                u rest w localMaxClockVal Hresp Hstatus Hexport Husers Hw Hin Hahead Hcont
                st Hfree Hbase Huniq)
      as (Hnone & _ & Hlocks & Hcommit & cnodeUser & d & Hupsert & Hdb);
      [fold CIDs; lia | done | done |].
    fold run in Hnone, Hlocks, Hcommit, Hdb.
    destruct (upsertCNodeUser_unique env u w (db st) Huniq)
      as (cnodeUser' & d' & Hupsert' & Hfind & _ & Hclock & _ & Hrecs & _).
    rewrite Hupsert in Hupsert'. injection Hupsert' as <- <-.
    split; [done |]. rewrite Hdb. split; [| split; [| done]].
    + exists cnodeUser. cbn [CNodeUser_findOne CNodeUsers bulkCreateAll].
      split; [exact Hfind |]. split; [done | lia].
    + cbn [ClockRecords bulkCreateAll]. rewrite Hrecords, Hrecs. cbn. by rewrite app_nil_r.
Qed.


(** C4. In a run that found the locks free: with [forceResync] the
    baseline step deletes all data of the (first) wallet and the baseline
    is -1; without it the database is left as it is and the baseline is
    the clock of the stored user, or -1 when there is none; the run then
    issues exactly one export request, with [clock_range_min] the
    baseline plus 1. *)
Theorem clock_baseline_and_export_request env w ws endpoint blockNumber (forceResync : bool) st :
  let walletPublicKeys := w :: ws in
  locksFree walletPublicKeys st ->
  let baseline :=
    if forceResync then -1
    else match CNodeUser_findOne (Some w) (db st) with
         | Some cnodeUser => CNodeUser.clock cnodeUser
         | None => -1
         end in
  let locked := lockAll walletPublicKeys st in
  clockBaseline walletPublicKeys forceResync locked
    = (inr baseline, afterBaseline walletPublicKeys forceResync locked) /\
  db (afterBaseline walletPublicKeys forceResync locked)
    = (if forceResync then deleteAllCNodeUserDataFromDB w (db st) else db st) /\
  CNodeUser_findOne (Some w) (deleteAllCNodeUserDataFromDB w (db st)) = None /\
  (forall local r,
     local ∈ CNodeUsers (db st) -> CNodeUser.walletPublicKey local = w ->
     r ∈ ClockRecords (deleteAllCNodeUserDataFromDB w (db st)) ->
     ClockRecord.cnodeUserUUID r <> CNodeUser.cnodeUserUUID local) /\
  (forall local f,
     local ∈ CNodeUsers (db st) -> CNodeUser.walletPublicKey local = w ->
     f ∈ Files (deleteAllCNodeUserDataFromDB w (db st)) ->
     File.cnodeUserUUID f <> CNodeUser.cnodeUserUUID local) /\
  exists evs,
    log (processSync env walletPublicKeys endpoint blockNumber forceResync st).2 =
      log st
      ++ ((fun w => EvSetLock (getNodeSyncRedisKey w)) <$> walletPublicKeys)
      ++ (if forceResync then [EvDeleteAllCNodeUserData w] else [])
      ++ EvExport endpoint
           {| wallet_public_key := walletPublicKeys;
              clock_range_min := baseline + 1;
              source_endpoint := source_endpoint (exportQueryParamsOf env walletPublicKeys baseline) |}
         :: evs /\
    Forall isAfterExportEvent evs.
Proof.
  intros walletPublicKeys Hfree baseline locked.
  assert (localMaxClockValOf walletPublicKeys forceResync (db st) = baseline) as Hbase by done.
  split; [| split; [| split; [| split; [| split]]]].
  - rewrite clockBaseline_eq. unfold locked. by rewrite lockAll_db, Hbase.
  - unfold afterBaseline, locked, walletPublicKeys.
    destruct forceResync; cbn [head db record set_db]; by rewrite lockAll_db.
  - apply findOne_deleteAll.
  - intros local r Hin Hw Hr.
    by apply (deleteAll_no_rows w (db st) local Hin Hw).
  - intros local f Hin Hw Hf.
    by apply (deleteAll_no_rows w (db st) local Hin Hw).
  - destruct (processSync_log env w ws endpoint blockNumber forceResync st Hfree)
      as (evs & Hlog & Hevs).
    exists evs. split; [| done]. unfold walletPublicKeys in *. rewrite Hlog. by rewrite Hbase.
Qed.

(** C10. In a run for more than one wallet that found the locks free,
    a lock is set for every wallet of the list, while the baseline, the
    deletion under [forceResync] and the [clock_range_min] of the export
    request come from the first wallet alone: the user rows of the other
    walletPublicKeys are neither read nor deleted, and a run from any other state
    with the same row for the first wallet requests the same range. *)
Theorem first_wallet_decides_baseline env w w2 ws endpoint blockNumber (forceResync : bool) st :
  let walletPublicKeys := w :: w2 :: ws in
  locksFree walletPublicKeys st ->
  let baseline :=
    if forceResync then -1
    else match CNodeUser_findOne (Some w) (db st) with
         | Some cnodeUser => CNodeUser.clock cnodeUser
         | None => -1
         end in
  let request :=
    EvExport endpoint
      {| wallet_public_key := walletPublicKeys;
         clock_range_min := baseline + 1;
         source_endpoint := source_endpoint (exportQueryParamsOf env walletPublicKeys baseline) |} in
  (forall wallet, wallet ∈ walletPublicKeys ->
     getNodeSyncRedisKey wallet ∈ redisLocks (lockAll walletPublicKeys st)) /\
  (forall wallet, wallet <> w ->
     CNodeUser_findOne (Some wallet) (db (afterBaseline walletPublicKeys forceResync (lockAll walletPublicKeys st)))
       = CNodeUser_findOne (Some wallet) (db st)) /\
  (forall st2,
     locksFree walletPublicKeys st2 ->
     CNodeUser_findOne (Some w) (db st2) = CNodeUser_findOne (Some w) (db st) ->
     exists evs,
       log (processSync env walletPublicKeys endpoint blockNumber forceResync st2).2 =
         log st2
         ++ ((fun w => EvSetLock (getNodeSyncRedisKey w)) <$> walletPublicKeys)
         ++ (if forceResync then [EvDeleteAllCNodeUserData w] else [])
         ++ request :: evs /\
       Forall isAfterExportEvent evs).
Proof.
  intros walletPublicKeys Hfree baseline request.
  split; [| split].
  - intros wallet Hin. rewrite lockAll_locks. apply elem_of_union_l, elem_of_list_to_set.
    by apply list_elem_of_fmap_2.
  - intros wallet Hne. unfold afterBaseline.
    unfold walletPublicKeys.
    destruct forceResync; cbn [head db record set_db]; rewrite lockAll_db; [| done].
    by apply findOne_deleteAll_other.
  - intros st2 Hfree2 Hsame.
    destruct (processSync_log env w (w2 :: ws) endpoint blockNumber forceResync st2 Hfree2)
      as (evs & Hlog & Hevs).
    exists evs. split; [| done]. unfold walletPublicKeys in *. rewrite Hlog.
    unfold request, baseline, localMaxClockValOf. cbn [head]. by rewrite Hsame.
Qed.

(** C3 (the code departs from the claim). When the lock of a later
    wallet of the list is found held, the run returns the "sync in
    progress" error straight from the lock loop: every lock it has set
    for the walletPublicKeys before that one stays set. *)
Theorem early_return_keeps_locks env ws1 w ws2 endpoint blockNumber forceResync st :
  locksFree ws1 st ->
  getNodeSyncRedisKey w ∈ redisLocks (lockAll ws1 st) ->
  processSync env (ws1 ++ w :: ws2) endpoint blockNumber forceResync st
    = (Some (ErrSyncInProgress w), lockAll ws1 st) /\
  forall wallet, wallet ∈ ws1 ->
    (getNodeSyncRedisKey wallet ∉ redisLocks st) /\
    getNodeSyncRedisKey wallet ∈
      redisLocks (processSync env (ws1 ++ w :: ws2) endpoint blockNumber forceResync st).2.
Proof.
  intros Hfree Hheld.
  assert (processSync env (ws1 ++ w :: ws2) endpoint blockNumber forceResync st
            = (Some (ErrSyncInProgress w), lockAll ws1 st)) as Hrun.
  { unfold processSync. by rewrite acquireLocks_held. }
  split; [done |]. intros wallet Hin. split; [by apply Hfree |].
  rewrite Hrun. cbn [snd]. rewrite lockAll_locks.
  apply elem_of_union_l, elem_of_list_to_set. by apply list_elem_of_fmap_2.
Qed.


(** *** The scenarios *)

Lemma locksFree_Forall (wallets : list string) (st : State) :
  NoDup wallets ->
  Forall (fun wallet => getNodeSyncRedisKey wallet ∉ redisLocks st) wallets ->
  locksFree wallets st.
Proof. intros Hnodup Hfree. split; [done |]. by apply Forall_forall. Qed.

(** Non-contiguous rejection: the secondary is at clock 3 and the export
    starts at clock 5. The run fails, the local user stays at clock 3 and
    no lock is left. *)
Lemma scenario_non_contiguous :
  let env := secondaryEnv [exportedUser "0xAA" 7 [5; 6; 7] []] [] in
  let st := secondaryState [localUser "0xAA" 3] [] in
  let run := processSync env ["0xAA"] "http://primary" None false st in
  run.1 = Some (ErrNonContiguous 3 5) /\
  db run.2 = db st /\
  CNodeUser_findOne (Some "0xAA") (db run.2) = Some (localUser "0xAA" 3) /\
  redisLocks run.2 = ∅.
Proof.
  intros env st run.
  destruct (clock_checks env "0xAA" [] "http://primary" None st (localUser "0xAA" 3)
              {| status := 200; data_error := "";
                 export := Some {| cnodeUsers := [exportedUser "0xAA" 7 [5; 6; 7] []];
                                   ipfsIDObj_addresses := [] |} |}
              {| cnodeUsers := [exportedUser "0xAA" 7 [5; 6; 7] []];
                 ipfsIDObj_addresses := [] |}
              (exportedUser "0xAA" 7 [5; 6; 7] []) [] "0xAA")
    as (_ & _ & Hgap); try reflexivity.
  - apply locksFree_Forall; [apply NoDup_singleton |].
    repeat constructor. apply not_elem_of_empty.
  - cbn. lia.
  - apply list_elem_of_here.
  - destruct (Hgap (exportedClockRecord 5) [exportedClockRecord 6; exportedClockRecord 7])
      as (_ & Herr & Hdb & _ & Hlocks); try reflexivity; try (cbn; lia).
    split; [exact Herr |]. split; [exact Hdb |]. split.
    + exact (f_equal (CNodeUser_findOne (Some "0xAA")) Hdb).
    + exact Hlocks.
Defined.


(** The same scenario through [processSync]: the first two runs return
    the failed-fetch error and leave the user at clock 3; the third
    returns no error, the user is at clock 10, Qm03 and Qm08 are the
    skipped rows, the count is 0 and no lock is left. *)
Example scenario_partial_content_failure :
  let env := secondaryEnv [tenFilesUser] ["Qm03"; "Qm08"] in
  let run st := processSync env ["0xAA"] "http://primary" None false st in
  let st0 := secondaryState [localUser "0xAA" 3] [] in
  let r1 := run st0 in let r2 := run r1.2 in let r3 := run r2.2 in
  r1.1 = Some (ErrTransaction (ErrSaveFileFailed 2 1 3)) /\
  r2.1 = Some (ErrTransaction (ErrSaveFileFailed 2 2 3)) /\
  r3.1 = None /\
  db r1.2 = db st0 /\ db r2.2 = db st0 /\
  (CNodeUser.clock <$> CNodeUsers (db r3.2)) = [10] /\
  (File.multihash <$> filter (fun f => File.skipped f = true) (Files (db r3.2)))
    = ["Qm08"; "Qm03"] /\
  length (Files (db r3.2)) = 10%nat /\
  getFailureCount "0xAA" r3.2 = 0%nat /\
  redisLocks r3.2 = ∅.
Proof. vm_compute. repeat split. Qed.

(** A held lock of the second wallet: the run returns from the lock loop
    and the lock it set for the first wallet stays set. *)
Lemma scenario_lock_left_behind :
  let env := secondaryEnv [] [] in
  let st := secondaryState [] ["node_sync:0xBB"] in
  let run := processSync env ["0xAA"; "0xBB"] "http://primary" None false st in
  run.1 = Some (ErrSyncInProgress "0xBB") /\
  (("node_sync:0xAA" : string) ∉ redisLocks st) /\
  ("node_sync:0xAA" : string) ∈ redisLocks run.2.
Proof.
  intros env st run.
  destruct (early_return_keeps_locks env ["0xAA"] "0xBB" [] "http://primary" None false st)
    as (Hrun & Hleft).
  - apply locksFree_Forall; [apply NoDup_singleton |].
    repeat constructor. apply (bool_decide_unpack _). vm_compute. exact I.
  - apply (bool_decide_unpack _). vm_compute. exact I.
  - split; [exact (f_equal fst Hrun) |].
    apply (Hleft "0xAA"), list_elem_of_here.
Defined.

(** Force resync of a user at clock 10: the user's data is deleted and
    the export is requested from clock 0. *)
Lemma scenario_force_resync :
  let env := secondaryEnv [exportedUser "0xAA" 5 [0; 1; 2; 3; 4; 5] []] [] in
  let st := secondaryState [localUser "0xAA" 10] [] in
  exists evs,
    log (processSync env ["0xAA"] "http://primary" None true st).2 =
      [ EvSetLock "node_sync:0xAA"; EvDeleteAllCNodeUserData "0xAA";
        EvExport "http://primary"
          {| wallet_public_key := ["0xAA"]; clock_range_min := 0;
             source_endpoint := Some "http://secondary" |} ] ++ evs /\
    Forall isAfterExportEvent evs.
Proof.
  intros env st.
  destruct (clock_baseline_and_export_request env "0xAA" [] "http://primary" None true st)
    as (_ & _ & _ & _ & _ & Hlog).
  - apply locksFree_Forall; [apply NoDup_singleton |].
    repeat constructor. apply not_elem_of_empty.
  - exact Hlog.
Defined.

(** Empty clock records: the secondary is at clock 3, the export
    carries clock 7 and no clock record. The run commits. *)
Lemma scenario_empty_clockRecords :
  let env := secondaryEnv [exportedUser "0xAA" 7 [] []] [] in
  let st := secondaryState [localUser "0xAA" 3] [] in
  let run := processSync env ["0xAA"] "http://primary" None false st in
  run.1 = None /\
  (exists cnodeUser,
     CNodeUser_findOne (Some "0xAA") (db run.2) = Some cnodeUser /\
     CNodeUser.clock cnodeUser = 7 /\ 3 < CNodeUser.clock cnodeUser) /\
  ClockRecords (db run.2) = [] /\
  EvCommit ∈ log run.2 /\
  redisLocks run.2 = ∅.
Proof.
  intros env st run.
  destruct (empty_clockRecords_commit env "0xAA" [] "http://primary" None st
              (localUser "0xAA" 3)
              {| status := 200; data_error := "";
                 export := Some {| cnodeUsers := [exportedUser "0xAA" 7 [] []];
                                   ipfsIDObj_addresses := [] |} |}
              {| cnodeUsers := [exportedUser "0xAA" 7 [] []]; ipfsIDObj_addresses := [] |}
              (exportedUser "0xAA" 7 [] []) [] "0xAA")
    as (_ & _ & _ & Hcommit); try reflexivity.
  - apply locksFree_Forall; [apply NoDup_singleton |].
    repeat constructor. apply not_elem_of_empty.
  - cbn. lia.
  - apply list_elem_of_here.
  - apply Hcommit; [apply NoDup_singleton | reflexivity | by left | reflexivity].
Defined.

(** Two wallets, the first at clock 3 and the second at clock 7: both
    locks are set and the export is requested from clock 4. *)
Lemma scenario_two_wallets :
  let env := secondaryEnv [] [] in
  let st := secondaryState [localUser "0xAA" 3; localUser "0xBB" 7] [] in
  exists evs,
    log (processSync env ["0xAA"; "0xBB"] "http://primary" None false st).2 =
      [ EvSetLock "node_sync:0xAA"; EvSetLock "node_sync:0xBB";
        EvExport "http://primary"
          {| wallet_public_key := ["0xAA"; "0xBB"]; clock_range_min := 4;
             source_endpoint := Some "http://secondary" |} ] ++ evs /\
    Forall isAfterExportEvent evs.
Proof.
  intros env st.
  assert (locksFree ["0xAA"; "0xBB"] st) as Hfree.
  { apply locksFree_Forall.
    - apply (bool_decide_unpack _). vm_compute. exact I.
    - repeat constructor; apply not_elem_of_empty. }
  destruct (first_wallet_decides_baseline env "0xAA" "0xBB" [] "http://primary" None false st
              Hfree) as (_ & _ & Hlog).
  exact (Hlog st Hfree eq_refl).
Defined.


End SyncFacts.

(** ** Status records of the two queues *)
Module QueueMore.
Import FileProcessingQueue.

Lemma append_inj_l (s t1 t2 : string) : s +:+ t1 = s +:+ t2 -> t1 = t2.
Proof.
  induction s as [| a s IH]; [done |].
  change (String a (s +:+ t1) = String a (s +:+ t2) -> t1 = t2). intros [= H]. auto.
Qed.

(** The status keys of the three tasks do not collide. *)
Lemma constructProcessKey_inj taskType taskType' uuid uuid' :
  taskType ∈ [PROCESS_NAMES.trackContentUpload; PROCESS_NAMES.transcodeAndSegment;
              PROCESS_NAMES.processTranscodeAndSegments] ->
  taskType' ∈ [PROCESS_NAMES.trackContentUpload; PROCESS_NAMES.transcodeAndSegment;
               PROCESS_NAMES.processTranscodeAndSegments] ->
  constructProcessKey taskType uuid = constructProcessKey taskType' uuid' ->
  taskType = taskType' /\ uuid = uuid'.
Proof.
  unfold constructProcessKey.
  rewrite !elem_of_cons, !elem_of_nil.
  intros [-> | [-> | [-> | []]]] [-> | [-> | [-> | []]]] Hkey;
    try (split; [reflexivity |]; by do 2 apply append_inj_l in Hkey);
    exfalso; vm_compute in Hkey; discriminate Hkey.
Qed.

Section Facts.
Context {Response Req : Type}.
Implicit Types (func : ProcessingFn Response Req) (params : TaskParams Req).
Implicit Types (r : gmap string (RedisEntry Response)).

(** X1. The status records of different jobs are kept apart. The
    keys of two jobs agree only when their task and their request id
    agree, and running a job through [monitorProgress] leaves the record
    of every other job as the processing function left it. *)
Theorem status_records_are_isolated taskType taskType' uuid' func params r :
  let names := [PROCESS_NAMES.trackContentUpload; PROCESS_NAMES.transcodeAndSegment;
                PROCESS_NAMES.processTranscodeAndSegments] in
  let uuid := requestID (logContext params) in
  taskType ∈ names -> taskType' ∈ names ->
  (taskType', uuid') <> (taskType, uuid) ->
  let redisKey := constructProcessKey taskType uuid in
  let others := constructProcessKey taskType' uuid' in
  others <> redisKey /\
  (monitorProgress taskType func params r).2 !! others =
    (func (logContext params) (req params)
       (<[redisKey := statusEntry PROCESS_STATES.IN_PROGRESS None]> r)).2 !! others.
Proof.
  intros names uuid Htask Htask' Hne redisKey others.
  assert (others <> redisKey) as Hkeys.
  { intros Heq. apply constructProcessKey_inj in Heq as [-> ->]; done. }
  split; [done |].
  pose proof (QueueFacts.monitorProgress_unfold taskType func params r) as Hrun.
  cbv zeta in Hrun. fold uuid redisKey in Hrun. rewrite Hrun.
  destruct (func _ _ _) as [[e | response] r1]; cbn [snd]; unfold Redis in *;
    by rewrite lookup_insert_ne.
Qed.

End Facts.

(** Two uploads in flight: the failure of request r-2 leaves the record
    of request r-1 in progress. *)
Lemma status_records_are_isolated_scenario :
  let func : ProcessingFn nat unit :=
    fun _ _ => Eff.throw {| name := "Error"; message := "disk full" |} in
  let params := {| logContext := {| requestID := "r-2" |}; req := tt |} in
  let r : gmap string (RedisEntry nat) :=
    {[ "trackContentUpload:::r-1" := statusEntry PROCESS_STATES.IN_PROGRESS None ]} in
  (monitorProgress "trackContentUpload" func params r).2 !! "trackContentUpload:::r-1"
    = Some (statusEntry "IN_PROGRESS" None).
Proof.
  intros func params r.
  destruct (status_records_are_isolated "trackContentUpload" "trackContentUpload" "r-1"
              func params r) as [_ Hkept].
  - apply (bool_decide_unpack _). vm_compute. exact I.
  - apply (bool_decide_unpack _). vm_compute. exact I.
  - intros [= ?].
  - etransitivity; [exact Hkept |]. vm_compute. reflexivity.
Defined.

(** Without the restriction to the queue's task names the keys can
    collide. *)
Example constructProcessKey_collision :
  constructProcessKey "a" ":::b" = constructProcessKey "a:::" "b".
Proof. reflexivity. Qed.

End QueueMore.

(** ** AsyncProcessingQueue *)
Module AsyncQueueFacts.
Import FileProcessingQueue AsyncProcessingQueue.

Section Facts.
Context {Response Req : Type}.
Implicit Types (fns : ProcessingFns Response Req) (params : TaskParams Req).
Implicit Types (r : gmap string (RedisEntry Response)).

(** A job run by the processing function [func]. *)
Lemma process_unfold fns (job : JobData Req) r :
  let redisKey := constructProcessKey (task job) (requestID (logContext job)) in
  let inProgress := <[redisKey := statusEntry PROCESS_STATES.IN_PROGRESS None]> r in
  process fns job r =
    match getFn fns (task job) with
    | Some func =>
        match func (logContext job) (req job) inProgress with
        | (inr response, r1) =>
            (DoneResponse response,
             <[redisKey := statusEntry PROCESS_STATES.DONE (Some (RespValue response))]> r1)
        | (inl e, r1) =>
            (DoneError (toString e),
             <[redisKey := statusEntry PROCESS_STATES.FAILED
                             (Some (RespMessage (message e)))]> r1)
        end
    | None =>
        (DoneError "TypeError: func is not a function",
         <[redisKey := statusEntry PROCESS_STATES.FAILED
                         (Some (RespMessage "func is not a function"))]> r)
    end.
Proof.
  intros redisKey inProgress.
  unfold process, monitorProgress, Eff.bind, Eff.tryCatch, redisClient_set, Eff.modify,
    Eff.throw, Eff.ret.
  cbn. fold redisKey. fold inProgress.
  destruct (getFn fns (task job)) as [func |].
  - destruct (func _ _ _) as [[e | response] r1]; reflexivity.
  - unfold inProgress, Redis. by rewrite insert_insert_eq.
Qed.

(** X2. In the queue with one processor, a task added by one of the
    three [add...Task] methods is run by the processing function of its
    own name, on the request it was added with, and its status record
    is kept under its own name: IN_PROGRESS while the function runs,
    then DONE with the response or FAILED with the error's message. In
    particular a [transcodeAndSegment] task runs [transcodeAndSegment]. *)
Theorem async_task_runs_its_own_function fns params r :
  let uuid := requestID (FileProcessingQueue.logContext params) in
  let ran (name : string) (func : ProcessingFn Response Req) :=
    let redisKey := name +:+ ":::" +:+ uuid in
    match func (FileProcessingQueue.logContext params) (FileProcessingQueue.req params)
            (<[redisKey := statusEntry "IN_PROGRESS" None]> r) with
    | (inr response, r1) =>
        (DoneResponse response,
         <[redisKey := statusEntry "DONE" (Some (RespValue response))]> r1)
    | (inl e, r1) =>
        (DoneError (toString e),
         <[redisKey := statusEntry "FAILED" (Some (RespMessage (message e)))]> r1)
    end in
  process fns (addTrackContentUploadTask params) r
    = ran "trackContentUpload" (trackContentUpload fns) /\
  process fns (addTranscodeAndSegmentTask params) r
    = ran "transcodeAndSegment" (transcodeAndSegment fns) /\
  process fns (addProcessTranscodeAndSegmentTask params) r
    = ran "processTranscodeAndSegments" (processTranscodeAndSegments fns).
Proof.
  intros uuid ran. repeat split; rewrite process_unfold; reflexivity.
Qed.

(** X3. A job whose [task] is none of the three names has no
    processing function. No function runs: the job is done with the
    string of the TypeError, and its status record is FAILED with the
    message of that error. *)
Theorem async_unknown_task_fails fns (job : JobData Req) r :
  task job ∉ [PROCESS_NAMES.trackContentUpload; PROCESS_NAMES.transcodeAndSegment;
              PROCESS_NAMES.processTranscodeAndSegments] ->
  let redisKey := task job +:+ ":::" +:+ requestID (logContext job) in
  getFn fns (task job) = None /\
  process fns job r =
    (DoneError "TypeError: func is not a function",
     <[redisKey := {| value := {| status := "FAILED";
                                  resp := Some (RespMessage "func is not a function") |};
                      EX := 86400 |}]> r).
Proof.
  intros Hname redisKey.
  assert (getFn fns (task job) = None) as Hfn.
  { unfold getFn. repeat case_decide; set_solver. }
  split; [done |]. rewrite process_unfold. cbv zeta. by rewrite Hfn.
Qed.

End Facts.

Lemma async_unknown_task_fails_scenario :
  let fns : ProcessingFns nat unit :=
    {| trackContentUpload := fun _ _ => Eff.ret 1%nat;
       transcodeAndSegment := fun _ _ => Eff.ret 2%nat;
       processTranscodeAndSegments := fun _ _ => Eff.ret 3%nat |} in
  let job := {| logContext := {| requestID := "r-7" |}; task := "transcode"; req := tt |} in
  getFn fns "transcode" = None /\
  process fns job ∅ =
    (DoneError "TypeError: func is not a function",
     {[ "transcode:::r-7" :=
          {| value := {| status := "FAILED";
                         resp := Some (RespMessage "func is not a function") |};
             EX := 86400 |} ]}).
Proof.
  intros fns job. apply (async_unknown_task_fails fns job ∅).
  apply (bool_decide_unpack _). vm_compute. exact I.
Defined.

End AsyncQueueFacts.

(** ** Services that require the server *)
Module InitFacts.
Import ServiceRegistry ServiceRegistryInit BootstrapFacts.

Lemma snapback_body_Some services k n0 n' :
  initSnapbackSM_body services k n0 = Some n' <->
  snapbackSM_init services k = Returns tt /\ n' = n0.
Proof.
  unfold initSnapbackSM_body.
  destruct (snapbackSM_init services k) as [| []];
    (split; [intros H; split; congruence | intros [H1 H2]; congruence]).
Qed.

Lemma snapback_body_None services k n0 :
  initSnapbackSM_body services k n0 = None <-> snapbackSM_init services k = Throws.
Proof.
  unfold initSnapbackSM_body. destruct (snapbackSM_init services k); split; congruence.
Qed.

Lemma waited_spID ms k n : spID (waited ms k n) = spID n.
Proof. reflexivity. Qed.

Lemma waited_devMode ms k n : devMode (waited ms k n) = devMode n.
Proof. reflexivity. Qed.

Lemma recover_completed libs fuel n n' :
  _recoverNodeL1Identity libs fuel n = Completed n' ->
  exists k id, (k < fuel)%nat /\
    (forall j, (j < k)%nat -> unresolved libs j) /\
    getServiceProviderIdFromEndpoint libs k = Returns id /\ id <> 0 /\
    n' = nodeConfig_set_spID id (waited 5000 k n).
Proof.
  unfold _recoverNodeL1Identity. intros Hrun.
  apply retryLoop_completed in Hrun as (k & Hk & Hfail & Hsucc).
  cbn in Hsucc. apply recover_body_inv in Hsucc as (id & Hid & Hne & ->).
  exists k, id. repeat split; try done.
  intros j Hj. apply (recover_body_None_inv libs j (waited 5000 j n)). by apply Hfail.
Qed.

Lemma register_completed libs fuel n n' :
  _registerNodeOnL2URSM libs fuel n = Completed n' ->
  exists k1 k2,
    (forall j, (j < k1)%nat -> initUserReplicaSetManagerClient libs j <> Returns true) /\
    initUserReplicaSetManagerClient libs k1 = Returns true /\
    (forall j, (j < k2)%nat -> URSMRegistrationManager_run libs j = Throws) /\
    URSMRegistrationManager_run libs k2 = Returns tt /\
    n' = waited 10000 k2 (waited (if devMode n then 10000 else 600000) k1 n).
Proof.
  unfold _registerNodeOnL2URSM. intros Hrun.
  destruct (retryLoop fuel _ _ 0 n) as [n1 | n1] eqn:Hpoll; [| discriminate].
  apply retryLoop_completed in Hpoll as (k1 & Hk1 & Hfail1 & Hsucc1).
  apply retryLoop_completed in Hrun as (k2 & Hk2 & Hfail2 & Hsucc2).
  cbn in Hsucc1, Hsucc2.
  apply init_body_Some in Hsucc1 as [Hinit ->].
  apply register_body_Some in Hsucc2 as [Hreg ->].
  exists k1, k2. repeat split; try done.
  - intros j Hj. eapply init_body_None. by apply Hfail1.
  - intros j Hj. eapply register_body_None. by apply Hfail2.
Qed.

(** X4. [initServicesThatRequireServer] starts nothing before the
    node's identity is known and reports success only when everything
    has started. While the endpoint resolves to no id, the call is
    still in its first loop and no service has been constructed. When
    it returns, the registry holds a non-zero [spID], SnapbackSM, the
    SyncQueue and the SkippedCIDsRetryQueue exist, the flag is set, and
    the waits were, in this order: 5000 ms per failed identity lookup,
    10000 ms per failed SnapbackSM start, the poll interval per missing
    registry client and 10000 ms per failed registration. When
    [skippedCIDsRetryQueue.init()] throws, the call throws without a
    retry and the flag stays as it was. *)
Theorem services_start_after_identity services fuel reg :
  let pollMs := if devMode (node reg) then 10000 else 600000 in
  let run := initServicesThatRequireServer services fuel reg in
  ((forall k, (k < fuel)%nat -> unresolved (libs services) k) ->
   run = InitStillRunning (set_node (waited 5000 fuel (node reg)) reg)) /\
  (forall reg',
     run = InitCompleted reg' ->
     exists id k0 k1 k2 k3,
       id <> 0 /\ spID (node reg') = Some id /\
       getServiceProviderIdFromEndpoint (libs services) k0 = Returns id /\
       snapbackSM_init services k1 = Returns tt /\
       initUserReplicaSetManagerClient (libs services) k2 = Returns true /\
       URSMRegistrationManager_run (libs services) k3 = Returns tt /\
       skippedCIDsRetryQueue_init services = Returns tt /\
       timeouts (node reg') =
         timeouts (node reg) ++ replicate k0 5000 ++ replicate k1 10000
           ++ replicate k2 pollMs ++ replicate k3 10000 /\
       snapbackSM reg' = true /\ syncQueue reg' = true /\
       skippedCIDsRetryQueue reg' = true /\
       servicesThatRequireServerInitialized reg' = true) /\
  (forall reg',
     run = InitThrew reg' ->
     skippedCIDsRetryQueue_init services = Throws /\
     servicesThatRequireServerInitialized reg' = servicesThatRequireServerInitialized reg /\
     snapbackSM reg' = true /\ syncQueue reg' = true /\ skippedCIDsRetryQueue reg' = true).
Proof.
  intros pollMs run. subst run. unfold initServicesThatRequireServer. split; [| split].
  - intros Hzero. unfold onNode, _recoverNodeL1Identity.
    rewrite retryLoop_failing; [done |].
    intros j Hj. apply recover_body_unresolved. cbn. auto.
  - intros reg'. unfold onNode at 1.
    destruct (_recoverNodeL1Identity _ fuel (node reg)) as [n0 | n0] eqn:H0; [| done].
    apply recover_completed in H0 as (k0 & id & _ & _ & Hid & Hne & ->).
    cbn [andThen]. unfold _initSnapbackSM, onNode at 1. cbn [node set_node set_snapbackSM].
    destruct (retryLoop fuel 10000 _ 0 _) as [n1 | n1] eqn:H1; [| done].
    apply retryLoop_completed in H1 as (k1 & _ & _ & Hsnap). cbn in Hsnap.
    apply snapback_body_Some in Hsnap as [Hsnap ->].
    cbn [andThen]. unfold onNode at 1. cbn [node set_node set_syncQueue].
    destruct (_registerNodeOnL2URSM _ fuel _) as [n2 | n2] eqn:H2; [| done].
    apply register_completed in H2 as (k2 & k3 & _ & Hclient & _ & Hreg & ->).
    cbn [andThen].
    destruct (skippedCIDsRetryQueue_init services) as [| []] eqn:Hskipped; [done |].
    intros [= <-]. exists id, k0, k1, k2, k3. cbn.
    repeat (split; [done |]). split; [| done].
    fold pollMs. by rewrite <- !app_assoc.
  - intros reg'. unfold onNode at 1.
    destruct (_recoverNodeL1Identity _ fuel (node reg)) as [n0 | n0]; [| done].
    cbn [andThen]. unfold _initSnapbackSM, onNode at 1.
    destruct (retryLoop fuel 10000 _ 0 _) as [n1 | n1]; [| done].
    cbn [andThen]. unfold onNode at 1.
    destruct (_registerNodeOnL2URSM _ fuel _) as [n2 | n2]; [| done].
    cbn [andThen]. destruct (skippedCIDsRetryQueue_init services); [| done].
    by intros [= <-].
Qed.

Lemma services_start_after_identity_scenario :
  initServicesThatRequireServer slowServices 2 (freshRegistry false) =
    InitStillRunning
      {| node := {| spID := None; devMode := false; timeouts := [5000; 5000] |};
         snapbackSM := false; syncQueue := false; skippedCIDsRetryQueue := false;
         servicesThatRequireServerInitialized := false |}.
Proof.
  apply (proj1 (services_start_after_identity slowServices 2 (freshRegistry false))).
  intros [| [| k]] Hk; (left; reflexivity) || lia.
Defined.

(** X5. The start-up does complete: once the endpoint resolves to a
    non-zero id, SnapbackSM starts, the registry client appears and the
    registration succeeds, each after any number of failed rounds, a
    call that is given these rounds returns with the id stored and the
    flag set, unless [skippedCIDsRetryQueue.init()] throws. *)
Theorem services_start_completes services fuel reg id k0 k1 k2 k3 :
  (forall j, (j < k0)%nat -> unresolved (libs services) j) ->
  getServiceProviderIdFromEndpoint (libs services) k0 = Returns id -> id <> 0 ->
  (forall j, (j < k1)%nat -> snapbackSM_init services j = Throws) ->
  snapbackSM_init services k1 = Returns tt ->
  (forall j, (j < k2)%nat ->
     initUserReplicaSetManagerClient (libs services) j <> Returns true) ->
  initUserReplicaSetManagerClient (libs services) k2 = Returns true ->
  (forall j, (j < k3)%nat -> URSMRegistrationManager_run (libs services) j = Throws) ->
  URSMRegistrationManager_run (libs services) k3 = Returns tt ->
  skippedCIDsRetryQueue_init services = Returns tt ->
  (k0 < fuel)%nat -> (k1 < fuel)%nat -> (k2 < fuel)%nat -> (k3 < fuel)%nat ->
  let pollMs := if devMode (node reg) then 10000 else 600000 in
  initServicesThatRequireServer services fuel reg =
    InitCompleted
      {| node := waited 10000 k3 (waited pollMs k2 (waited 10000 k1
                   (nodeConfig_set_spID id (waited 5000 k0 (node reg)))));
         snapbackSM := true; syncQueue := true; skippedCIDsRetryQueue := true;
         servicesThatRequireServerInitialized := true |}.
Proof.
  intros Hzero Hid Hne Hsnapfail Hsnap Hclientfail Hclient Hregfail Hreg Hskipped
    Hk0 Hk1 Hk2 Hk3 pollMs.
  unfold initServicesThatRequireServer, onNode at 1, _recoverNodeL1Identity.
  rewrite (retryLoop_succeeds 5000 _ k0 0%nat (node reg)
             (nodeConfig_set_spID id (waited 5000 k0 (node reg))) fuel); [| | | done].
  2: { intros j Hj. apply recover_body_unresolved. cbn. auto. }
  2: { cbn. unfold recoverNodeL1Identity_body. rewrite Hid. by rewrite decide_True. }
  cbn [andThen]. unfold _initSnapbackSM, onNode at 1. cbn [node set_node set_snapbackSM].
  erewrite (retryLoop_succeeds 10000 _ k1 0%nat); [| | | done].
  2: { intros j Hj. apply snapback_body_None. by apply Hsnapfail. }
  2: { by apply snapback_body_Some. }
  cbn [andThen]. unfold onNode at 1, _registerNodeOnL2URSM. cbn [node set_node set_syncQueue].
  rewrite waited_devMode. cbn [devMode nodeConfig_set_spID]. rewrite waited_devMode.
  fold pollMs.
  erewrite (retryLoop_succeeds pollMs _ k2 0%nat); [| | | done].
  2: { intros j Hj. apply init_body_None. by apply Hclientfail. }
  2: { by apply init_body_Some. }
  erewrite (retryLoop_succeeds 10000 _ k3 0%nat); [| | | done].
  2: { intros j Hj. apply register_body_None. by apply Hregfail. }
  2: { by apply register_body_Some. }
  cbn [andThen]. by rewrite Hskipped.
Qed.

Lemma services_start_on_slowServices :
  initServicesThatRequireServer slowServices 3 (freshRegistry false) =
    InitCompleted
      {| node := {| spID := Some 7; devMode := false;
                    timeouts := [5000; 5000; 10000; 600000; 10000; 10000] |};
         snapbackSM := true; syncQueue := true; skippedCIDsRetryQueue := true;
         servicesThatRequireServerInitialized := true |}.
Proof.
  apply (services_start_completes slowServices 3 (freshRegistry false) 7 2 1 1 2);
    try reflexivity; try lia.
  - intros [| [| j]] Hj; (left; reflexivity) || lia.
  - intros [| j] Hj; [reflexivity | lia].
  - intros [| j] Hj; [discriminate | lia].
  - intros [| [| j]] Hj; reflexivity || lia.
Defined.

End InitFacts.

(** ** utils.js *)
Module UtilsMore.
Import ServiceRegistry Utils UtilsFacts.

Implicit Types (env : Env) (st : State) (filePath cid : string).

Lemma lookupLoop_frame env filePath cid trackId nodes : forall st,
  let run := lookupLoop env filePath cid trackId nodes st in
  all_registered_cnodes run.2 = all_registered_cnodes st /\
  attempted_fs_fixes run.2 = attempted_fs_fixes st /\
  (forall path, path <> filePath -> fs run.2 !! path = fs st !! path) /\
  (run.1 = true ->
   fs run.2 !! filePath = None \/
   exists bytes, fs run.2 !! filePath = Some bytes /\ generateNonImageMultihash env bytes = cid) /\
  (run.1 = false ->
   fs run.2 !! filePath = fs st !! filePath \/
   exists node bytes,
     node ∈ nodes /\
     file_lookup env (endpoint node) filePath trackId = LookupDataFault (Some bytes) /\
     fs run.2 !! filePath = Some bytes).
Proof.
  induction nodes as [| node nodes IH]; intros st; cbn [lookupLoop].
  { cbn. repeat split; auto. done. }
  destruct (file_lookup env (endpoint node) filePath trackId) as [| | data | onDisk] eqn:Hnode.
  1, 2: destruct (IH st) as (Hc & Ha & Hframe & Hhit & Hmiss); cbv zeta in *;
    repeat split; auto; intros Hrun; destruct (Hmiss Hrun) as [? | (n & b & ? & ? & ?)];
    [by left | right; exists n, b; set_solver].
  - cbv zeta. cbn [writeStreamToFileSystem set_fs fs]. rewrite lookup_insert_eq.
    case_decide as Hhash; cbn.
    + repeat split; [| | done].
      * intros path Hpath. by rewrite lookup_delete_ne, lookup_insert_ne.
      * intros _. left. by rewrite lookup_delete_eq.
    + repeat split; [| | done].
      * intros path Hpath. by rewrite lookup_insert_ne.
      * intros _. right. exists data. rewrite lookup_insert_eq.
        split; [done |]. by destruct (decide (cid = generateNonImageMultihash env data)).
  - cbv zeta. destruct onDisk as [bytes |].
    + destruct (IH (writeStreamToFileSystem bytes filePath st))
        as (Hc & Ha & Hframe & Hhit & Hmiss); cbv zeta in *.
      split; [done |]. split; [done |]. split; [| split; [done |]].
      * intros path Hpath. rewrite Hframe by done. cbn. by rewrite lookup_insert_ne.
      * intros Hrun. right. destruct (Hmiss Hrun) as [Hsame | (n & b & ? & ? & ?)].
        -- exists node, bytes. split; [set_solver |]. split; [done |].
           rewrite Hsame. cbn. by rewrite lookup_insert_eq.
        -- exists n, b. set_solver.
    + destruct (IH st) as (Hc & Ha & Hframe & Hhit & Hmiss); cbv zeta in *.
      repeat split; auto. intros Hrun. destruct (Hmiss Hrun) as [? | (n & b & ? & ? & ?)];
        [by left | right; exists n, b; set_solver].
Qed.

Lemma getAllRegisteredCNodes_frame env st :
  fs (getAllRegisteredCNodes env st).2 = fs st /\
  attempted_fs_fixes (getAllRegisteredCNodes env st).2 = attempted_fs_fixes st.
Proof.
  unfold getAllRegisteredCNodes.
  destruct (all_registered_cnodes st); [done |]. by destruct (getServiceProviderList env).
Qed.

Lemma findCIDInNetwork_marks_path env filePath cid trackId excludeList st :
  filePath ∈ attempted_fs_fixes (findCIDInNetwork env filePath cid trackId excludeList st).2.
Proof.
  unfold findCIDInNetwork, getIfAttemptedStateFix.
  destruct (negb (bool_decide (filePath ∉ attempted_fs_fixes st))); [cbn; set_solver |].
  set (st1 := {| fs := fs st; all_registered_cnodes := all_registered_cnodes st;
                 attempted_fs_fixes := {[filePath]} ∪ attempted_fs_fixes st |}).
  destruct (getAllRegisteredCNodes_frame env st1) as [_ Hfixes].
  destruct (getAllRegisteredCNodes env st1) as [creatorNodes st2]. cbn [snd] in *.
  case_decide; [cbn; rewrite Hfixes; cbn; set_solver |].
  pose proof (lookupLoop_frame env filePath cid trackId
                (filter (fun c => endpoint c ∉ excludeList) creatorNodes) st2)
    as (_ & Hfixes' & _). cbv zeta in *.
  destruct (lookupLoop _ _ _ _ _ st2) as [found st3]. cbn [fst snd] in *.
  rewrite Hfixes', Hfixes. cbn. set_solver.
Qed.

(** X6. A repair attempt touches one path only. Whatever the peers
    answer and whatever fails on the way, every other file is left as
    it was. When the attempt returns [true], the file at [filePath] is
    absent or holds bytes whose hash is [cid]. When it does not, the
    file is as it was, unless a pass that failed after the body had
    arrived left bytes there, which no check has passed. In every case
    the path is recorded as attempted. *)
Theorem findCIDInNetwork_touches_only_filePath env filePath cid trackId excludeList st :
  let run := findCIDInNetwork env filePath cid trackId excludeList st in
  (forall path, path <> filePath -> fs run.2 !! path = fs st !! path) /\
  (run.1 = Some true ->
   fs run.2 !! filePath = None \/
   exists bytes, fs run.2 !! filePath = Some bytes /\
                 generateNonImageMultihash env bytes = cid) /\
  (run.1 <> Some true ->
   fs run.2 !! filePath = fs st !! filePath \/
   exists endpoint bytes,
     (endpoint ∉ excludeList) /\
     file_lookup env endpoint filePath trackId = LookupDataFault (Some bytes) /\
     fs run.2 !! filePath = Some bytes) /\
  filePath ∈ attempted_fs_fixes run.2.
Proof.
  cbv zeta. split; [| split; [| split; [| apply findCIDInNetwork_marks_path]]];
    unfold findCIDInNetwork, getIfAttemptedStateFix;
    (destruct (negb (bool_decide (filePath ∉ attempted_fs_fixes st))); [cbn; by auto |]);
    set (st1 := {| fs := fs st; all_registered_cnodes := all_registered_cnodes st;
                   attempted_fs_fixes := {[filePath]} ∪ attempted_fs_fixes st |});
    destruct (getAllRegisteredCNodes_frame env st1) as [Hfs _];
    change (fs st1) with (fs st) in Hfs;
    destruct (getAllRegisteredCNodes env st1) as [creatorNodes st2]; cbn [snd] in *;
    (case_decide; [cbn; rewrite Hfs; by auto |]);
    pose proof (lookupLoop_frame env filePath cid trackId
                  (filter (fun c => endpoint c ∉ excludeList) creatorNodes) st2)
      as (_ & _ & Hframe & Hhit & Hmiss); cbv zeta in *;
    destruct (lookupLoop _ _ _ _ _ st2) as [found st3]; cbn [fst snd] in *;
    rewrite <- ?Hfs.
  - done.
  - intros [= ->]. by apply Hhit.
  - destruct found; [done |]. intros _.
    destruct (Hmiss eq_refl) as [? | (node & bytes & [? ?]%list_elem_of_filter & ? & ?)];
      [by left |]. right. by exists (endpoint node), bytes.
Qed.

(** A peer whose stream breaks after one byte: the attempt reports no
    success and leaves the byte on disk; the file next to it is kept. *)
Lemma findCIDInNetwork_touches_only_filePath_scenario :
  let st := writeStreamToFileSystem [Byte.x61] "/file_storage/Qma" emptyDisk in
  let run := findCIDInNetwork brokenStreamPeer "/file_storage/Qmab" "Qmab" None [] st in
  run.1 = Some false /\
  fs run.2 !! "/file_storage/Qma" = Some [Byte.x61] /\
  fs run.2 !! "/file_storage/Qmab" = Some [Byte.x61].
Proof.
  intros st run.
  destruct (findCIDInNetwork_touches_only_filePath brokenStreamPeer "/file_storage/Qmab" "Qmab"
              None [] st) as (Hframe & _).
  split; [reflexivity |]. split; [| reflexivity].
  etransitivity; [apply Hframe | reflexivity].
  intros [= ?].
Defined.

(** X7. A file path is repaired at most once a day: whatever the first
    attempt did, also when it found no node to ask, a second attempt for
    the same path, for any content hash and with any peers, returns
    without a value and changes nothing. *)
Theorem findCIDInNetwork_once_per_path env env' filePath cid cid' trackId trackId'
    excludeList excludeList' st :
  let st1 := (findCIDInNetwork env filePath cid trackId excludeList st).2 in
  findCIDInNetwork env' filePath cid' trackId' excludeList' st1 = (None, st1).
Proof.
  intros st1.
  assert (filePath ∈ attempted_fs_fixes st1) as Hin
    by apply findCIDInNetwork_marks_path.
  unfold findCIDInNetwork, getIfAttemptedStateFix.
  rewrite bool_decide_eq_false_2 by (intros Hn; by apply Hn). cbn.
  f_equal. destruct st1 as [f c a]. cbn in *. f_equal. set_solver.
Qed.


(** [env] with other answers to the file lookups. *)
Lemma lookupLoop_lookups env env' filePath cid trackId nodes : forall st,
  generateNonImageMultihash env' = generateNonImageMultihash env ->
  Forall (fun node => file_lookup env' (endpoint node) filePath trackId
                      = file_lookup env (endpoint node) filePath trackId) nodes ->
  lookupLoop env' filePath cid trackId nodes st = lookupLoop env filePath cid trackId nodes st.
Proof.
  intros st Hhash Hnodes. revert st.
  induction Hnodes as [| node nodes Hnode _ IH]; intros st; cbn [lookupLoop]; [done |].
  rewrite Hnode, Hhash.
  destruct (file_lookup env (endpoint node) filePath trackId); [apply IH .. | | apply IH].
  cbv zeta. destruct (fs _ !! filePath); [done | apply IH].
Qed.

(** X8. A repair attempt asks no excluded node. Its result and the
    state it leaves depend on the peers only through the answers of the
    nodes outside [excludeList] to the lookup of this path: with any
    other answers from the excluded nodes, or to other lookups, the
    attempt gives the same result. *)
Theorem findCIDInNetwork_skips_excluded env env' filePath cid trackId excludeList st :
  creatorNodeEndpoint env' = creatorNodeEndpoint env ->
  getServiceProviderList env' = getServiceProviderList env ->
  generateNonImageMultihash env' = generateNonImageMultihash env ->
  (forall endpoint, endpoint ∉ excludeList ->
     file_lookup env' endpoint filePath trackId = file_lookup env endpoint filePath trackId) ->
  findCIDInNetwork env' filePath cid trackId excludeList st =
    findCIDInNetwork env filePath cid trackId excludeList st.
Proof.
  intros Hself Hlist Hhash Hlookup. unfold findCIDInNetwork.
  destruct (getIfAttemptedStateFix filePath st) as [attempted st1].
  destruct attempted; [done |].
  assert (getAllRegisteredCNodes env' st1 = getAllRegisteredCNodes env st1) as ->.
  { unfold getAllRegisteredCNodes. by rewrite Hlist, Hself. }
  destruct (getAllRegisteredCNodes env st1) as [creatorNodes st2].
  case_decide; [done |].
  rewrite (lookupLoop_lookups env env'); [done | done |].
  apply Forall_forall. intros node [Hnode _]%list_elem_of_filter. by apply Hlookup.
Qed.

Lemma findCIDInNetwork_skips_excluded_scenario :
  let silent :=
    {| creatorNodeEndpoint := creatorNodeEndpoint corruptPeer;
       getServiceProviderList := getServiceProviderList corruptPeer;
       file_lookup := fun endpoint _ _ =>
         if bool_decide (endpoint = "http://cn2") then LookupRejects
         else LookupData [Byte.x78; Byte.x78];
       generateNonImageMultihash := generateNonImageMultihash corruptPeer |} in
  findCIDInNetwork silent "/file_storage/Qmab" "Qmab" None ["http://cn2"] emptyDisk =
    findCIDInNetwork corruptPeer "/file_storage/Qmab" "Qmab" None ["http://cn2"] emptyDisk.
Proof.
  intros silent.
  apply (findCIDInNetwork_skips_excluded corruptPeer silent); try reflexivity.
  intros endpoint Hendpoint. cbn.
  rewrite bool_decide_eq_false_2; [reflexivity | set_solver].
Defined.

(** X9. The list of registered nodes is read from the chain once and
    then served from the cache. A cached list is returned as it is,
    whatever the chain holds. With no cached list, the list of the
    chain without this node's own endpoint is returned and cached, so
    that the next call returns it again without asking the chain; when
    the chain cannot be read the result is empty and nothing is cached.
    The file system and the set of attempted fixes are never touched. *)
Theorem registered_nodes_are_cached env env' st :
  let run := getAllRegisteredCNodes env st in
  fs run.2 = fs st /\ attempted_fs_fixes run.2 = attempted_fs_fixes st /\
  (forall cnodesList, all_registered_cnodes st = Some cnodesList -> run = (cnodesList, st)) /\
  (all_registered_cnodes st = None ->
   match getServiceProviderList env with
   | Returns creatorNodes =>
       (forall node, node ∈ run.1 <->
                     node ∈ creatorNodes /\ endpoint node <> creatorNodeEndpoint env) /\
       all_registered_cnodes run.2 = Some run.1 /\
       getAllRegisteredCNodes env' run.2 = (run.1, run.2)
   | Throws => run = ([], st)
   end).
Proof.
  cbv zeta. unfold getAllRegisteredCNodes.
  destruct (all_registered_cnodes st) as [cached |] eqn:Hcache.
  - repeat split; try done. by intros ? [= ->].
  - destruct (getServiceProviderList env) as [| creatorNodes]; cbn.
    + repeat split; try done.
    + do 3 (split; [done |]). intros _. split; [| done].
      intros node. rewrite list_elem_of_filter. tauto.
Qed.

Lemma registered_nodes_are_cached_scenario :
  let unreachable :=
    {| creatorNodeEndpoint := "http://cn1"; getServiceProviderList := Throws;
       file_lookup := fun _ _ _ => LookupRejects;
       generateNonImageMultihash := generateNonImageMultihash corruptPeer |} in
  let st := {| fs := ∅; all_registered_cnodes := None; attempted_fs_fixes := ∅ |} in
  let run := getAllRegisteredCNodes corruptPeer st in
  run.1 = [{| endpoint := "http://cn2"; spID := 2 |}] /\
  getAllRegisteredCNodes unreachable run.2 = (run.1, run.2) /\
  getAllRegisteredCNodes unreachable st = ([], st).
Proof.
  intros unreachable st run.
  destruct (registered_nodes_are_cached corruptPeer unreachable st) as (_ & _ & _ & Hfirst).
  destruct (registered_nodes_are_cached unreachable unreachable st) as (_ & _ & _ & Hdown).
  split; [reflexivity |]. split.
  - apply (Hfirst eq_refl).
  - apply (Hdown eq_refl).
Defined.

End UtilsMore.

(** ** utils.js: validation of an image directory *)
Module ImageDirFacts.
Import ProcessSync UtilsImageDir.

(** X10. [validateStateForImageDirCIDAndReturnFileUUID] answers [null]
    exactly for a missing or empty CID. A file id it returns is the id
    of a directory row with that CID owned by the session's user, whose
    path exists on disk, and the path of every image row of that
    directory owned by the user exists on disk. A directory without
    image rows passes. *)
Theorem validated_image_dir files pathExists cnodeUserUUID imageDirCID :
  let result :=
    validateStateForImageDirCIDAndReturnFileUUID files pathExists cnodeUserUUID imageDirCID in
  (result = inr None <-> imageDirCID = None \/ imageDirCID = Some "") /\
  (forall fileUUID,
     result = inr (Some fileUUID) ->
     exists cid dirFile,
       imageDirCID = Some cid /\ dirFile ∈ files /\
       File.fileUUID dirFile = fileUUID /\ File.multihash dirFile = cid /\
       File.cnodeUserUUID dirFile = cnodeUserUUID /\ File.type dirFile = File.dir /\
       pathExists (File.storagePath dirFile) = true /\
       forall imageFile,
         imageFile ∈ files -> File.dirMultihash imageFile = Some cid ->
         File.cnodeUserUUID imageFile = cnodeUserUUID -> File.type imageFile = File.image ->
         pathExists (File.storagePath imageFile) = true) /\
  (forall cid dirFile,
     imageDirCID = Some cid -> cid <> "" ->
     File_findOne_dir cid cnodeUserUUID files = Some dirFile ->
     pathExists (File.storagePath dirFile) = true ->
     File_findAll_images cid cnodeUserUUID files = [] ->
     result = inr (Some (File.fileUUID dirFile))).
Proof.
  cbv zeta. unfold validateStateForImageDirCIDAndReturnFileUUID.
  destruct imageDirCID as [cid |]; [| split; [split; auto | split; [done | done]]].
  case_decide as Hcid;
    [subst cid; split; [split; auto | split; [done | intros ? ? [= <-] ?; done]] |].
  split; [| split].
  - split; [| intros [? | [= ?]]; done].
    destruct (File_findOne_dir cid cnodeUserUUID files); [| done].
    destruct (negb _); [done |]. by destruct (forallb _ _).
  - intros fileUUID.
    destruct (File_findOne_dir cid cnodeUserUUID files) as [dirFile |] eqn:Hdir; [| done].
    destruct (pathExists (File.storagePath dirFile)) eqn:Hdisk; cbn [negb]; [| done].
    destruct (forallb _ _) eqn:Himages; [| done]. intros [= <-].
    apply find_some in Hdir as [Hin Hdir]. apply bool_decide_eq_true in Hdir as (? & ? & ?).
    exists cid, dirFile. split; [done |]. split; [by apply list_elem_of_In |].
    repeat (split; [done |]).
    intros imageFile Himg ? ? ?. rewrite forallb_forall in Himages. apply Himages.
    apply filter_In. split; [by apply list_elem_of_In |]. by apply bool_decide_eq_true.
  - intros ? dirFile [= <-] _ -> -> ->. reflexivity.
Qed.

Lemma validated_image_dir_scenario_empty :
  validateStateForImageDirCIDAndReturnFileUUID imageDirTable (fun _ => true) "cnode-user-1"
    (Some "QmEmpty") = inr (Some "uuid-empty").
Proof.
  destruct (validated_image_dir imageDirTable (fun _ => true) "cnode-user-1" (Some "QmEmpty"))
    as (_ & _ & Hempty).
  apply (Hempty "QmEmpty" emptyDirFile); try reflexivity. intros [= ?].
Defined.

(** On [imageDirTable] with every path on disk but the image's: the
    directory with the image is refused, the empty one is accepted. *)
Example validated_image_dir_scenario :
  let pathExists path := negb (String.eqb path "/file_storage/QmDir/QmImg") in
  validateStateForImageDirCIDAndReturnFileUUID imageDirTable pathExists "cnode-user-1"
    (Some "QmDir") = inl (ErrNoImageFileOnDisk "QmDir") /\
  validateStateForImageDirCIDAndReturnFileUUID imageDirTable pathExists "cnode-user-1"
    (Some "QmEmpty") = inr (Some "uuid-empty") /\
  validateStateForImageDirCIDAndReturnFileUUID imageDirTable pathExists "cnode-user-2"
    (Some "QmDir") = inl (ErrNoDirFileInDB "QmDir").
Proof. vm_compute. repeat split. Qed.

End ImageDirFacts.

Module SyncMore.
Import ProcessSync SyncFacts.

Implicit Types (st : State) (wallet w : string) (wallets ws : list string).
Implicit Types (env : Env) (u : Fetched.t) (d : DB).

(** *** Locks through a user's step *)

Lemma syncTransaction_locks env redisKey u w urs st :
  redisLocks (syncTransaction env redisKey u w urs st).2 =
    redisLocks st ∖ from_option singleton ∅ redisKey.
Proof.
  rewrite syncTransaction_eq.
  destruct (upsertCNodeUser env u w (db st)) as [e | [cnodeUser d]].
  - cbn [snd]. unfold rolledBack. by rewrite removeLock_var_locks.
  - cbv zeta. case_decide; [| destruct (sequelizeRejects env w)]; cbn [snd];
      unfold rolledBack, committed; cbn [redisLocks record]; by rewrite removeLock_var_locks.
Qed.

(** The locks a step of the loop leaves: those it found, with or without
    the one named by [redisKey]. *)
Lemma syncCNodeUser_locks env wallets blockNumber redisKey local u st :
  let locks := redisLocks (syncCNodeUser env wallets blockNumber redisKey local u st).2 in
  locks = redisLocks st \/ locks = redisLocks st ∖ from_option singleton ∅ redisKey.
Proof.
  cbv zeta. unfold syncCNodeUser, Eff.throw, Eff.ret.
  destruct (Fetched.walletPublicKey u) as [w |]; [| by left].
  case_decide; [by left |]. case_decide; [by left |]. case_decide; [by left |].
  destruct (head (Fetched.clockRecords u)); [case_decide; [by left |] |];
    right; apply syncTransaction_locks.
Qed.

Lemma forEach_syncCNodeUser_locks env wallets blockNumber redisKey local users : forall st,
  let locks :=
    redisLocks (Eff.forEach (syncCNodeUser env wallets blockNumber redisKey local) users st).2 in
  locks = redisLocks st \/ locks = redisLocks st ∖ from_option singleton ∅ redisKey.
Proof.
  induction users as [| u users IH]; intros st; cbn [Eff.forEach]; [by left |].
  unfold Eff.bind.
  pose proof (syncCNodeUser_locks env wallets blockNumber redisKey local u st) as Hu.
  cbv zeta in *.
  destruct (syncCNodeUser _ _ _ _ _ u st) as [[e | []] st1]; cbn [snd] in *; [done |].
  destruct (IH st1) as [-> | ->]; destruct Hu as [-> | ->]; [by left | by right | by right |].
  right. set_solver.
Qed.

Lemma syncOperations_locks env wallets endpoint blockNumber forceResync redisKey st :
  let locks :=
    redisLocks (syncOperations env wallets endpoint blockNumber forceResync redisKey st).2 in
  locks = redisLocks st \/ locks = redisLocks st ∖ from_option singleton ∅ redisKey.
Proof.
  cbv zeta. rewrite syncOperations_eq. cbv zeta.
  set (st1 := record _ _).
  assert (redisLocks st1 = redisLocks st) as Hst1.
  { unfold st1, afterBaseline. destruct forceResync; [destruct (head wallets) |]; done. }
  destruct (axios_export env endpoint _) as [msg | resp]; [by left |].
  case_decide; [by left |]. destruct (export resp) as [data |]; [| by left].
  rewrite <- Hst1. apply forEach_syncCNodeUser_locks.
Qed.

(** X11. A run that found every lock free leaves the lock store exactly
    as it found it, whether it returns an error or not. *)
Theorem processSync_restores_locks env wallets endpoint blockNumber forceResync st :
  locksFree wallets st ->
  redisLocks (processSync env wallets endpoint blockNumber forceResync st).2 = redisLocks st.
Proof.
  intros Hfree. rewrite processSync_eq by done.
  pose proof (syncOperations_locks env wallets endpoint blockNumber forceResync
                (getNodeSyncRedisKey <$> last wallets) (lockAll wallets st)) as Hlocks.
  cbv zeta in Hlocks. rewrite lockAll_locks in Hlocks.
  assert (from_option singleton (∅ : gset string) (getNodeSyncRedisKey <$> last wallets)
            ⊆ list_to_set (getNodeSyncRedisKey <$> wallets)) as Hlast.
  { destruct (last wallets) as [w |] eqn:Hw; cbn; [| set_solver].
    apply last_Some in Hw as [ws' ->]. rewrite fmap_app. set_solver. }
  pose proof (locks_set_and_released wallets st Hfree) as Hback.
  assert (forall k, k ∈ (list_to_set (getNodeSyncRedisKey <$> wallets) : gset string) ->
                    k ∉ redisLocks st) as Hdisj.
  { intros k [w [-> Hw]]%elem_of_list_to_set%list_elem_of_fmap. by apply Hfree. }
  destruct (syncOperations _ _ _ _ _ _ _) as [[e | []] st2]; cbn [snd] in *;
    rewrite releaseLocks_locks, ?recordSyncFails_locks;
    destruct Hlocks as [-> | ->]; set_solver.
Qed.


Lemma processSync_restores_locks_scenario :
  let env := secondaryEnv [tenFilesUser] ["Qm03"; "Qm08"] in
  let st := secondaryState [localUser "0xAA" 3] ["node_sync:0xCC"] in
  let run := processSync env ["0xAA"; "0xBB"] "http://primary" None false st in
  run.1 = Some (ErrTransaction (ErrSaveFileFailed 2 1 3)) /\
  redisLocks run.2 = redisLocks st.
Proof.
  intros env st run. split; [vm_compute; reflexivity |].
  apply (processSync_restores_locks env ["0xAA"; "0xBB"] "http://primary" None false st).
  apply locksFree_Forall; [apply (bool_decide_unpack _); vm_compute; exact I |].
  repeat constructor; apply (bool_decide_unpack _); vm_compute; exact I.
Defined.

(** X12. A user's step that reaches its transaction ends with the lock
    named by [redisKey] released, whether the transaction committed or
    was rolled back; when it committed, the loop goes on to the users
    that follow from that state, in which the lock is no longer held. *)
Theorem lock_released_before_next_user env wallets blockNumber k local u users w st :
  Fetched.walletPublicKey u = Some w -> w ∈ wallets ->
  local < Fetched.clock u -> contiguous local u ->
  let step := syncCNodeUser env wallets blockNumber (Some k) local in
  (k ∉ redisLocks (step u st).2) /\
  ((step u st).1 = inr tt ->
   Eff.forEach step (u :: users) st = Eff.forEach step users (step u st).2).
Proof.
  intros Hw Hin Hclock Hcont step. split.
  - unfold step. rewrite (syncCNodeUser_transaction _ _ _ _ _ _ w) by done.
    rewrite syncTransaction_locks. cbn. set_solver.
  - intros Hok. cbn [Eff.forEach]. unfold Eff.bind.
    destruct (step u st) as [[e | []] st1]; cbn in *; [done | reflexivity].
Qed.

Lemma lock_released_before_next_user_scenario :
  let env := secondaryEnv [] [] in
  let st := lockAll ["0xAA"; "0xBB"] (secondaryState [] []) in
  let uA := exportedUser "0xAA" 2 [0; 1; 2] [] in
  let uB := exportedUser "0xBB" 1 [0; 1] [] in
  let step := syncCNodeUser env ["0xAA"; "0xBB"] None (Some "node_sync:0xBB") (-1) in
  (("node_sync:0xBB" : string) ∉ redisLocks (step uA st).2) /\
  ((step uA st).1 = inr tt ->
   Eff.forEach step [uA; uB] st = Eff.forEach step [uB] (step uA st).2).
Proof.
  intros env st uA uB step.
  apply (lock_released_before_next_user env ["0xAA"; "0xBB"] None "node_sync:0xBB" (-1)
           uA [uB] "0xAA" st).
  - reflexivity.
  - apply (bool_decide_unpack _). vm_compute. exact I.
  - reflexivity.
  - unfold contiguous. cbn. lia.
Defined.

(** *** What a throwing step leaves in the database *)






(** X14. With [forceResync], the local data of the first wallet is
    deleted before the export is requested and outside any transaction:
    when the export then fails, the run returns the error and the
    wallet's data is gone, with nothing fetched to replace it. *)
Theorem force_resync_deletes_before_export env w ws endpoint blockNumber st :
  let wallets := w :: ws in
  locksFree wallets st ->
  let exportQueryParams := exportQueryParamsOf env wallets (-1) in
  match axios_export env endpoint exportQueryParams with
  | AxiosRejects _ => True
  | AxiosResolves resp => status resp <> 200 \/ export resp = None
  end ->
  let run := processSync env wallets endpoint blockNumber true st in
  run.1 <> None /\
  db run.2 = deleteAllCNodeUserDataFromDB w (db st) /\
  CNodeUser_findOne (Some w) (db run.2) = None.
Proof.
  intros wallets Hfree exportQueryParams Hexport run. subst wallets.
  assert (run.1 <> None /\ db run.2 = deleteAllCNodeUserDataFromDB w (db st)) as [Herr Hdb].
  { subst run. rewrite processSync_eq by done. rewrite syncOperations_eq. cbv zeta.
    rewrite lockAll_db. cbn [localMaxClockValOf]. fold exportQueryParams.
    destruct (axios_export env endpoint exportQueryParams) as [msg | resp].
    - cbn [fst snd]. split; [done |].
      rewrite releaseLocks_db, recordSyncFails_db.
        cbn [db record afterBaseline head set_db]. by rewrite lockAll_db.
    - case_decide as Hstatus.
      + cbn [fst snd]. split; [done |].
        rewrite releaseLocks_db, recordSyncFails_db.
        cbn [db record afterBaseline head set_db]. by rewrite lockAll_db.
      + destruct Hexport as [Hexport | Hexport]; [done |]. rewrite Hexport.
        cbn [fst snd]. split; [done |].
        rewrite releaseLocks_db, recordSyncFails_db.
        cbn [db record afterBaseline head set_db]. by rewrite lockAll_db. }
  repeat split; [done | done |]. rewrite Hdb. apply findOne_deleteAll.
Qed.

Lemma force_resync_deletes_before_export_scenario :
  let env := secondaryEnv [] [] in
  let unreachable :=
    {| nodeSyncFileSaveMaxConcurrency := nodeSyncFileSaveMaxConcurrency env;
       syncRequestMaxUserFailureCountBeforeSkip := syncRequestMaxUserFailureCountBeforeSkip env;
       creatorNodeEndpoint := creatorNodeEndpoint env;
       axios_export := fun _ _ => AxiosRejects "connect ECONNREFUSED";
       getOwnEndpoint := getOwnEndpoint env;
       getCreatorNodeEndpoints := getCreatorNodeEndpoints env;
       saveFileForMultihashToFS := saveFileForMultihashToFS env;
       defaultCNodeUserUUID := defaultCNodeUserUUID env;
       sequelizeRejects := sequelizeRejects env |} in
  let st := secondaryState [localUser "0xAA" 10] [] in
  let run := processSync unreachable ["0xAA"] "http://primary" None true st in
  CNodeUser_findOne (Some "0xAA") (db st) = Some (localUser "0xAA" 10) /\
  run.1 <> None /\
  db run.2 = deleteAllCNodeUserDataFromDB "0xAA" (db st) /\
  CNodeUser_findOne (Some "0xAA") (db run.2) = None.
Proof.
  intros env unreachable st run. split; [reflexivity |].
  apply (force_resync_deletes_before_export unreachable "0xAA" [] "http://primary" None st).
  - apply locksFree_Forall; [apply (bool_decide_unpack _); vm_compute; exact I |].
    repeat constructor; apply (bool_decide_unpack _); vm_compute; exact I.
  - exact I.
Defined.

(** *** The rows a committed transaction leaves *)

Lemma find_map_same {A} (p : A -> bool) (h : A -> A) (l : list A) :
  (forall x, p (h x) = p x) -> (forall x, p x = true -> h x = x) ->
  List.find p (map h l) = List.find p l.
Proof.
  intros Hp Hh. induction l as [| x l IH]; [done |]. cbn. rewrite Hp.
  destruct (p x) eqn:Hx; [by rewrite Hh | done].
Qed.

Lemma find_snoc_other {A} (p : A -> bool) (l : list A) (x : A) :
  p x = false -> List.find p (l ++ [x]) = List.find p l.
Proof.
  intros Hx. induction l as [| y l IH]; cbn; [by rewrite Hx |]. by destruct (p y).
Qed.

(** What a successful update-or-create step has done. *)
Lemma upsertCNodeUser_inr env u w d cnodeUser d' :
  upsertCNodeUser env u w d = inr (cnodeUser, d') ->
  CNodeUser_findOne (Some w) d' = Some cnodeUser /\
  CNodeUser.cnodeUserUUID cnodeUser =
    match CNodeUser_findOne (Some w) d with
    | Some local => CNodeUser.cnodeUserUUID local
    | None => defaultCNodeUserUUID env w
    end /\
  CNodeUser.clock cnodeUser = Fetched.clock u /\
  (forall w', w' <> w -> CNodeUser_findOne (Some w') d' = CNodeUser_findOne (Some w') d) /\
  ClockRecords d' = ClockRecords d /\ Files d' = Files d /\
  Tracks d' = Tracks d /\ AudiusUsers d' = AudiusUsers d.
Proof.
  unfold upsertCNodeUser.
  destruct (CNodeUser_findOne (Some w) d) as [local |] eqn:Hfind.
  - unfold CNodeUser_update. cbn in Hfind. rewrite find_head_filter in Hfind.
    destruct (List.filter _ (CNodeUsers d)) as [| x [| y rest]] eqn:Hfilter; [done | | done].
    cbn in Hfind. injection Hfind as ->. cbn [map]. intros [= <- <-].
    split.
    { cbn [CNodeUser_findOne CNodeUsers].
      rewrite (find_map_updated _ (updatedCNodeUser u)) by done.
      by rewrite find_head_filter, Hfilter. }
    do 2 (split; [done |]). split; [| done].
    intros w' Hw'. cbn [CNodeUser_findOne CNodeUsers].
    apply find_map_same.
    + intros x. by destruct (bool_decide (CNodeUser.walletPublicKey x = w)).
    + intros x Hx%bool_decide_eq_true. rewrite bool_decide_eq_false_2; [done | congruence].
  - unfold CNodeUser_create. intros [= <- <-]. split.
    { cbn [CNodeUser_findOne CNodeUsers]. cbn in Hfind.
      apply find_snoc; [done |]. by apply bool_decide_eq_true. }
    do 2 (split; [done |]). split; [| done].
    intros w' Hw'. cbn [CNodeUser_findOne CNodeUsers].
    apply find_snoc_other. cbn. apply bool_decide_eq_false_2. congruence.
Qed.

Lemma syncTransaction_inr env redisKey u w urs st st' :
  syncTransaction env redisKey u w urs st = (inr tt, st') ->
  exists cnodeUser d,
    upsertCNodeUser env u w (db st) = inr (cnodeUser, d) /\
    db st' = bulkCreateAll u (CNodeUser.cnodeUserUUID cnodeUser)
               (nonTrackFilesOf u) (trackFilesOf u) (CIDsThatFailedSaveFileOp env urs u) d.
Proof.
  rewrite syncTransaction_eq.
  destruct (upsertCNodeUser env u w (db st)) as [e0 | [cnodeUser d]]; [done |].
  cbv zeta. case_decide; [done |]. destruct (sequelizeRejects env w); [done |].
  intros [= <-]. exists cnodeUser, d. split; [done |]. apply committed_db.
Qed.

Lemma Forall2_fmap_self {A B} (P : B -> A -> Prop) (f : A -> B) (l : list A) :
  (forall x, P (f x) x) -> Forall2 P (f <$> l) l.
Proof. intros HP. induction l; constructor; auto. Qed.

(** X15. A committed transaction stores the user's data under the local
    [cnodeUserUUID]: the one of the row the wallet already had, or the
    default of a new row, never the one found in the export. The user's
    row carries the fetched clock; the rows of other wallets and the
    rows every table already held are kept, the new rows follow them. *)
Theorem committed_rows_carry_local_uuid env wallets blockNumber redisKey local u w st :
  Fetched.walletPublicKey u = Some w -> w ∈ wallets ->
  local < Fetched.clock u -> contiguous local u ->
  let run := syncCNodeUser env wallets blockNumber redisKey local u st in
  run.1 = inr tt ->
  let uuid := match CNodeUser_findOne (Some w) (db st) with
              | Some cnodeUser => CNodeUser.cnodeUserUUID cnodeUser
              | None => defaultCNodeUserUUID env w
              end in
  (exists cnodeUser,
     CNodeUser_findOne (Some w) (db run.2) = Some cnodeUser /\
     CNodeUser.cnodeUserUUID cnodeUser = uuid /\
     CNodeUser.clock cnodeUser = Fetched.clock u) /\
  (forall w', w' <> w ->
     CNodeUser_findOne (Some w') (db run.2) = CNodeUser_findOne (Some w') (db st)) /\
  (exists rows,
     ClockRecords (db run.2) = ClockRecords (db st) ++ rows /\
     Forall2 (fun row r => ClockRecord.cnodeUserUUID row = uuid /\
                           ClockRecord.clock row = ClockRecord.clock r /\
                           ClockRecord.sourceTable row = ClockRecord.sourceTable r)
             rows (Fetched.clockRecords u)) /\
  (exists rows,
     Files (db run.2) = Files (db st) ++ rows /\
     Forall (fun row => File.cnodeUserUUID row = uuid) rows) /\
  (exists rows,
     Tracks (db run.2) = Tracks (db st) ++ rows /\
     Forall2 (fun row t => Track.cnodeUserUUID row = uuid /\
                           Track.trackBlockchainId row = Track.trackBlockchainId t /\
                           Track.metadataMultihash row = Track.metadataMultihash t)
             rows (Fetched.tracks u)) /\
  (exists rows,
     AudiusUsers (db run.2) = AudiusUsers (db st) ++ rows /\
     Forall2 (fun row a => AudiusUser.cnodeUserUUID row = uuid /\
                           AudiusUser.metadataMultihash row = AudiusUser.metadataMultihash a)
             rows (Fetched.audiusUsers u)).
Proof.
  intros Hw Hin Hclock Hcont run Hok uuid. subst run.
  rewrite (syncCNodeUser_transaction _ _ _ _ _ _ w) in * by done.
  destruct (syncTransaction _ _ _ _ _ st) as [[e | []] st'] eqn:Hrun; [done |].
  apply syncTransaction_inr in Hrun as (cnodeUser & d & Hupsert & Hdb).
  apply upsertCNodeUser_inr in Hupsert
    as (Hfind & Huuid & Hclk & Hothers & Hclocks & Hfiles & Htracks & Hausers).
  cbn [snd]. rewrite Hdb. fold uuid in Huuid. rewrite Huuid.
  split; [by exists cnodeUser |]. split; [done |].
  cbn [bulkCreateAll ClockRecords Files Tracks AudiusUsers].
  rewrite Hclocks, Hfiles, Htracks, Hausers.
  split; [eexists; split; [reflexivity | by apply Forall2_fmap_self] |].
  split.
  { rewrite <- app_assoc. eexists; split; [reflexivity |].
    apply Forall_app; split; apply Forall_fmap, Forall_forall; by intros. }
  split; eexists; (split; [reflexivity | by apply Forall2_fmap_self]).
Qed.

Lemma committed_rows_carry_local_uuid_scenario :
  let u := exportedUser "0xAA" 5 [4; 5] [exportedFile "Qm01" File.track] in
  let st := secondaryState [localUser "0xAA" 3; localUser "0xBB" 7] [] in
  let run := syncCNodeUser (secondaryEnv [u] []) ["0xAA"] None (Some "node_sync:0xAA") 3 u st in
  File.cnodeUserUUID <$> Fetched.files u = ["uuid-on-primary"] /\
  exists rows,
    Files (db run.2) = Files (db st) ++ rows /\
    Forall (fun row => File.cnodeUserUUID row = "uuid-0xAA") rows.
Proof.
  intros u st run. split; [reflexivity |].
  apply (committed_rows_carry_local_uuid (secondaryEnv [u] []) ["0xAA"] None
           (Some "node_sync:0xAA") 3 u "0xAA" st).
  - reflexivity.
  - apply (bool_decide_unpack _). vm_compute. exact I.
  - reflexivity.
  - unfold contiguous. cbn. lia.
  - vm_compute. reflexivity.
Defined.

Lemma files_partition_Permutation u :
  nonTrackFilesOf u ++ trackFilesOf u ≡ₚ Fetched.files u.
Proof.
  unfold nonTrackFilesOf, trackFilesOf.
  rewrite (list_filter_iff (fun file => File.type file ∈ File.NonTrackTypes)
             (fun file => ~ File.type file ∈ File.TrackTypes)).
  - rewrite Permutation_app_comm. apply filter_app_complement.
  - intros file. unfold File.TrackTypes, File.NonTrackTypes.
    destruct (File.type file); set_solver.
Qed.

(** X16. The file rows a committed transaction inserts are those of
    the exported files, one for one: the new rows are, in order, one row
    for each non-track file and then one for each track file, and
    these files are the exported files, each as often as the export
    holds it. A row keeps the file's [fileUUID], [multihash] and
    [type]; a non-track file is stored without [trackBlockchainId]; the
    row is marked skipped exactly when the export marked the file
    skipped or the fetch of some file with the same multihash failed. *)
Theorem inserted_file_rows env wallets blockNumber redisKey local u w st :
  Fetched.walletPublicKey u = Some w -> w ∈ wallets ->
  local < Fetched.clock u -> contiguous local u ->
  let run := syncCNodeUser env wallets blockNumber redisKey local u st in
  run.1 = inr tt ->
  let userReplicaSet := userReplicaSetOf env w blockNumber in
  let describes (row file : File.t) :=
    File.fileUUID row = File.fileUUID file /\
    File.multihash row = File.multihash file /\
    File.type row = File.type file /\
    (File.type file ∈ File.NonTrackTypes -> File.trackBlockchainId row = None) /\
    (File.skipped row = true <->
     File.skipped file = true \/
     exists failed, failed ∈ Fetched.files u /\ fetchFails env userReplicaSet failed /\
                    File.multihash failed = File.multihash file) in
  exists rows,
    Files (db run.2) = Files (db st) ++ rows /\
    Forall2 describes rows (nonTrackFilesOf u ++ trackFilesOf u) /\
    nonTrackFilesOf u ++ trackFilesOf u ≡ₚ Fetched.files u.
Proof.
  intros Hw Hin Hclock Hcont run Hok urs describes. subst run.
  rewrite (syncCNodeUser_transaction _ _ _ _ _ _ w) in * by done. fold urs in Hok |- *.
  destruct (syncTransaction _ _ _ _ _ st) as [[e | []] st'] eqn:Hrun; [done |].
  apply syncTransaction_inr in Hrun as (cnodeUser & d & Hupsert & Hdb).
  apply upsertCNodeUser_inr in Hupsert as (_ & _ & _ & _ & _ & Hfiles & _ & _).
  cbn [snd]. rewrite Hdb. cbn [bulkCreateAll Files]. rewrite Hfiles, <- app_assoc.
  set (CIDs := CIDsThatFailedSaveFileOp env urs u).
  set (uuid := CNodeUser.cnodeUserUUID cnodeUser).
  assert (forall file, File.type file ∈ File.TrackTypes ->
            describes (trackFileRow CIDs uuid file) file) as Htrack.
  { intros file Htype. unfold describes, trackFileRow, markSkipped.
    case_decide as Hfailed; cbn; (split; [done |]); (split; [done |]); (split; [done |]); split.
    - unfold File.TrackTypes, File.NonTrackTypes in *. destruct (File.type file); set_solver.
    - split; [intros _ | done]. right. by apply elem_of_CIDsThatFailedSaveFileOp.
    - unfold File.TrackTypes, File.NonTrackTypes in *. destruct (File.type file); set_solver.
    - split; [by left |]. intros [Hs | Hs]; [done |].
      by apply elem_of_CIDsThatFailedSaveFileOp in Hs. }
  assert (forall file, describes (nonTrackFileRow CIDs uuid file) file) as Hnon.
  { intros file. unfold describes, nonTrackFileRow, markSkipped.
    case_decide as Hfailed; cbn; (split; [done |]); (split; [done |]); (split; [done |]);
      (split; [done |]).
    - split; [intros _ | done]. right. by apply elem_of_CIDsThatFailedSaveFileOp.
    - split; [by left |]. intros [Hs | Hs]; [done |].
      by apply elem_of_CIDsThatFailedSaveFileOp in Hs. }
  eexists. split; [reflexivity |]. split; [| apply files_partition_Permutation].
  apply Forall2_app.
  - by apply Forall2_fmap_self.
  - apply Forall2_fmap_l, Forall_Forall2_diag, Forall_forall.
    intros file [Htype _]%list_elem_of_filter. by apply Htrack.
Qed.

Lemma inserted_file_rows_scenario :
  let u := tenFilesUser in
  let env := secondaryEnv [u] [] in
  let st := secondaryState [localUser "0xAA" 3] [] in
  let run := syncCNodeUser env ["0xAA"] None (Some "node_sync:0xAA") 3 u st in
  let describes (row file : File.t) :=
    File.fileUUID row = File.fileUUID file /\
    File.multihash row = File.multihash file /\
    File.type row = File.type file /\
    (File.type file ∈ File.NonTrackTypes -> File.trackBlockchainId row = None) /\
    (File.skipped row = true <->
     File.skipped file = true \/
     exists failed, failed ∈ Fetched.files u /\
                    fetchFails env (userReplicaSetOf env "0xAA" None) failed /\
                    File.multihash failed = File.multihash file) in
  length (Files (db run.2)) = 10%nat /\
  exists rows,
    Files (db run.2) = Files (db st) ++ rows /\
    Forall2 describes rows (nonTrackFilesOf u ++ trackFilesOf u) /\
    nonTrackFilesOf u ++ trackFilesOf u ≡ₚ Fetched.files u.
Proof.
  intros u env st run describes. split; [vm_compute; reflexivity |].
  apply (inserted_file_rows env ["0xAA"] None (Some "node_sync:0xAA") 3 u "0xAA" st).
  - reflexivity.
  - apply (bool_decide_unpack _). vm_compute. exact I.
  - reflexivity.
  - unfold contiguous. cbn. lia.
  - vm_compute. reflexivity.
Defined.

(** *** Batches *)

Lemma slicesFrom_bounded {A} (files : list A) n fuel : forall i,
  (0 < n)%nat ->
  Forall (fun filesSlice => (0 < length filesSlice <= n)%nat) (slicesFrom fuel n i files).
Proof.
  induction fuel as [| fuel IH]; intros i Hn; cbn [slicesFrom]; [constructor |].
  case_decide as Hi; constructor; [| by apply IH].
  rewrite length_take, length_drop. lia.
Qed.

Lemma slicesFrom_full {A} (files : list A) n fuel : forall i j filesSlice next,
  slicesFrom fuel n i files !! j = Some filesSlice ->
  slicesFrom fuel n i files !! S j = Some next ->
  length filesSlice = n.
Proof.
  induction fuel as [| fuel IH]; intros i j filesSlice next; cbn [slicesFrom]; [done |].
  case_decide as Hi; [| done].
  destruct j as [| j]; cbn.
  - intros [= <-] Hnext. destruct fuel as [| fuel]; [done |]. cbn [slicesFrom] in Hnext.
    case_decide as Hnexti; [| done]. rewrite length_take, length_drop. lia.
  - apply IH.
Qed.

(** X17. The save loops take the files in batches of at most
    [nodeSyncFileSaveMaxConcurrency]: the batches are the files in their
    order, none is empty, none is larger than the bound, and every batch
    but the last is full. *)
Theorem slices_are_bounded_batches {A} (FileSaveMaxConcurrency : positive) (files : list A) :
  let batches := slices FileSaveMaxConcurrency files in
  concat batches = files /\
  Forall (fun filesSlice =>
            (0 < length filesSlice <= Pos.to_nat FileSaveMaxConcurrency)%nat) batches /\
  forall j filesSlice next,
    batches !! j = Some filesSlice -> batches !! S j = Some next ->
    length filesSlice = Pos.to_nat FileSaveMaxConcurrency.
Proof.
  intros batches. split; [apply slices_concat |]. split.
  - apply slicesFrom_bounded. lia.
  - apply slicesFrom_full.
Qed.

Lemma slices_are_bounded_batches_scenario :
  slices 2 [1; 2; 3; 4; 5]%nat = [[1; 2]; [3; 4]; [5]]%nat /\
  concat (slices 2 [1; 2; 3; 4; 5]%nat) = [1; 2; 3; 4; 5]%nat /\
  length [1; 2]%nat = Pos.to_nat 2.
Proof.
  destruct (slices_are_bounded_batches 2 [1; 2; 3; 4; 5]%nat) as (Hconcat & _ & Hfull).
  split; [reflexivity |]. split; [exact Hconcat |].
  apply (Hfull 0%nat [1; 2]%nat [3; 4]%nat); reflexivity.
Defined.

(** *** The replica set *)

Lemma elem_of_uniq urls : forall seen url,
  url ∈ uniq seen urls <-> url ∈ urls /\ url ∉ seen.
Proof.
  induction urls as [| x urls IH]; intros seen url; cbn [uniq]; [set_solver |].
  case_decide as Hx.
  - rewrite IH. set_solver.
  - rewrite elem_of_cons, IH. destruct (decide (url = x)) as [-> |]; set_solver.
Qed.

Lemma NoDup_uniq urls : forall seen, NoDup (uniq seen urls).
Proof.
  induction urls as [| x urls IH]; intros seen; cbn [uniq]; [constructor |].
  case_decide; [apply IH |]. constructor; [| apply IH].
  rewrite elem_of_uniq. set_solver.
Qed.

(** X19. The gateways a user's files are fetched from are the endpoints
    of the user's replica set other than this node, each one once; there
    is none when the node's own endpoint or the replica set cannot be
    read. *)
Theorem replica_set_excludes_self env wallet blockNumber :
  let userReplicaSet := userReplicaSetOf env wallet blockNumber in
  NoDup userReplicaSet /\
  (forall myCnodeEndpoint,
     getOwnEndpoint env = Some myCnodeEndpoint -> myCnodeEndpoint ∉ userReplicaSet) /\
  (forall url,
     url ∈ userReplicaSet <->
     exists myCnodeEndpoint endpoints,
       getOwnEndpoint env = Some myCnodeEndpoint /\
       getCreatorNodeEndpoints env wallet blockNumber myCnodeEndpoint = Some endpoints /\
       url ∈ endpoints /\ url <> myCnodeEndpoint).
Proof.
  cbv zeta. unfold userReplicaSetOf.
  destruct (getOwnEndpoint env) as [own |]; [| split; [constructor | set_solver]].
  destruct (getCreatorNodeEndpoints env wallet blockNumber own) as [endpoints |] eqn:Hall.
  2: { split; [constructor |]. split; [set_solver |]. intros url. split; [set_solver |].
       intros (? & ? & [= <-] & ? & _). congruence. }
  split; [apply NoDup_uniq |]. split.
  - intros ? [= <-]. rewrite elem_of_uniq, list_elem_of_filter. set_solver.
  - intros url. rewrite elem_of_uniq, list_elem_of_filter. split.
    + intros [[Hne Hin] _]. by exists own, endpoints.
    + intros (? & ? & [= <-] & Hall' & Hin & Hne). rewrite Hall in Hall'.
      injection Hall' as <-. set_solver.
Qed.

Lemma replica_set_excludes_self_scenario :
  let userReplicaSet := userReplicaSetOf (secondaryEnv [] []) "0xAA" None in
  userReplicaSet = ["http://primary"; "http://tertiary"] /\
  NoDup userReplicaSet /\
  ("http://secondary" : string) ∉ userReplicaSet.
Proof.
  intros userReplicaSet.
  destruct (replica_set_excludes_self (secondaryEnv [] []) "0xAA" None)
    as (Hnodup & Hself & _).
  split; [reflexivity |]. split; [exact Hnodup |]. apply Hself. reflexivity.
Defined.

End SyncMore.

(** ** Peering with the primary's IPFS node *)
Module PeersFacts.
Import ServiceRegistry ProcessSyncPeers.

Lemma prefix_app s1 : forall s2,
  String.prefix s1 s2 = true <-> exists post, s2 = s1 +:+ post.
Proof.
  induction s1 as [| a s1 IH]; intros [| b s2]; cbn.
  - split; [intros _; by exists "" | done].
  - split; [intros _; by exists (String b s2) | done].
  - split; [done | intros [? [=]]].
  - destruct (Ascii.ascii_dec a b) as [-> | Hne].
    + rewrite IH. split; intros [post Hpost]; exists post.
      * by rewrite Hpost.
      * change (String b s2 = String b (s1 +:+ post)) in Hpost. congruence.
    + split; [done | intros [post [= ? _]]; done].
Qed.

(** [includes] finds exactly the strings that have an occurrence. *)
Lemma includes_occurs searchString s :
  includes searchString s = true <-> exists pre post, s = pre +:+ searchString +:+ post.
Proof.
  induction s as [| a s IH]; cbn [includes].
  - rewrite orb_false_r, prefix_app. split.
    + intros [post ->]. by exists "", post.
    + intros ([| ? ?] & post & Hs); [by exists post | done].
  - rewrite orb_true_iff, prefix_app, IH. split.
    + intros [[post ->] | (pre & post & ->)]; [by exists "", post |].
      by exists (String a pre), post.
    + intros ([| b pre] & post & Hs); [left; by exists post |].
      right. injection Hs as -> ->. by exists pre, post.
Qed.

Lemma connectPeer_calls ipfs own target calls :
  exists made,
    (connectPeer ipfs own target calls).2 = calls ++ made /\
    (made = [] \/ dialled own target = true) /\
    Forall (fun c => address c = target) made /\
    ((connectPeer ipfs own target calls).1 = inr tt ->
     made = if dialled own target then [BootstrapAdd target; SwarmConnect target] else []).
Proof.
  unfold connectPeer, dialled.
  destruct (includes "ip6" target || includes "127.0.0.1" target).
  { exists []. cbn. rewrite app_nil_r. auto. }
  case_bool_decide.
  { exists []. cbn. rewrite app_nil_r. auto. }
  cbn. unfold Eff.bind, call, Eff.modify.
  destruct (ipfs_bootstrap_add ipfs target) as [| []].
  { exists [BootstrapAdd target]. cbn. repeat split; auto. done. }
  destruct (ipfs_swarm_connect ipfs target) as [| []];
    exists [BootstrapAdd target; SwarmConnect target]; cbn; rewrite <- app_assoc;
    repeat split; auto; done.
Qed.

Lemma forEach_connectPeer_calls ipfs own targets : forall calls,
  let run := Eff.forEach (connectPeer ipfs own) targets calls in
  exists made,
    run.2 = calls ++ made /\
    Forall (fun c => address c ∈ targets /\ dialled own (address c) = true) made /\
    (run.1 = inr tt ->
     made = flat_map (fun target => [BootstrapAdd target; SwarmConnect target])
              (List.filter (dialled own) targets)).
Proof.
  induction targets as [| target targets IH]; intros calls; cbn [Eff.forEach].
  { exists []. cbn. rewrite app_nil_r. auto. }
  cbv zeta. unfold Eff.bind.
  destruct (connectPeer_calls ipfs own target calls) as (made1 & Hcalls1 & Hdial & Haddr & Hok1).
  destruct (connectPeer ipfs own target calls) as [[e | []] calls1]; cbn [fst snd] in *.
  - exists made1. split; [done |]. split; [| done].
    destruct Hdial as [-> | Hdial]; [constructor |].
    eapply Forall_impl; [exact Haddr |]. intros c <-. split; [set_solver | done].
  - destruct (IH calls1) as (made2 & Hcalls2 & Hall2 & Hok2). cbv zeta in *.
    exists (made1 ++ made2). split; [by rewrite Hcalls2, Hcalls1, app_assoc |]. split.
    + apply Forall_app. split.
      * destruct Hdial as [-> | Hdial]; [constructor |].
        eapply Forall_impl; [exact Haddr |]. intros c <-. split; [set_solver | done].
      * eapply Forall_impl; [exact Hall2 |]. intros c [? ?]. split; [set_solver | done].
    + intros Hok. rewrite (Hok1 eq_refl), (Hok2 Hok). cbn [List.filter].
      by destruct (dialled own target).
Qed.

(** X20. Peering with the primary's IPFS node dials only addresses the
    primary sent, never one that contains [ip6] or [127.0.0.1] and never
    one of this node's own addresses; no call is made when the node's
    own addresses cannot be read. When it returns, it has added every
    other address to the bootstrap list and connected to it, in the
    order the primary gave them. *)
Theorem peering_dials_only_foreign_addresses ipfs targetIPFSPeerAddresses calls :
  let run := _initBootstrapAndRefreshPeers ipfs targetIPFSPeerAddresses calls in
  exists made,
    run.2 = calls ++ made /\
    Forall (fun c =>
              address c ∈ targetIPFSPeerAddresses /\
              (forall pre post, address c <> pre +:+ "ip6" +:+ post) /\
              (forall pre post, address c <> pre +:+ "127.0.0.1" +:+ post) /\
              exists ipfsPeerAddresses,
                ipfs_id ipfs = Returns (Some ipfsPeerAddresses) /\
                address c ∉ ipfsPeerAddresses) made /\
    (run.1 = inr tt ->
     exists ipfsPeerAddresses,
       ipfs_id ipfs = Returns (Some ipfsPeerAddresses) /\
       made = flat_map (fun target => [BootstrapAdd target; SwarmConnect target])
                (List.filter (dialled ipfsPeerAddresses) targetIPFSPeerAddresses)).
Proof.
  cbv zeta. unfold _initBootstrapAndRefreshPeers.
  destruct (ipfs_id ipfs) as [| [own |]].
  1, 3: exists []; cbn; rewrite app_nil_r; repeat split; [constructor | done].
  destruct (forEach_connectPeer_calls ipfs own targetIPFSPeerAddresses calls)
    as (made & Hcalls & Hall & Hok). cbv zeta in *.
  exists made. split; [done |]. split; [| intros H; exists own; auto].
  eapply Forall_impl; [exact Hall |]. intros c [Hin Hdial].
  unfold dialled in Hdial. apply andb_true_iff in Hdial as [Hlocal Hown].
  apply negb_true_iff, orb_false_iff in Hlocal as [Hip6 Hloop].
  apply negb_true_iff, bool_decide_eq_false in Hown.
  split; [done |]. split; [| split; [| by exists own]].
  - intros pre post Heq. assert (includes "ip6" (address c) = true) as Hyes; [| congruence].
    apply includes_occurs. eauto.
  - intros pre post Heq. assert (includes "127.0.0.1" (address c) = true) as Hyes; [| congruence].
    apply includes_occurs. eauto.
Qed.

(** On [localIpfs], of four addresses sent by the primary only the
    routable IPv4 address of the primary is dialled. *)
Lemma peering_dials_only_foreign_addresses_scenario :
  let targets :=
    ["/ip4/127.0.0.1/tcp/4001/p2p/QmPrimary"; "/ip6/::1/tcp/4001/p2p/QmPrimary";
     "/ip4/10.0.0.5/tcp/4001/p2p/QmSelf"; "/ip4/10.0.0.9/tcp/4001/p2p/QmPrimary"] in
  let run := _initBootstrapAndRefreshPeers localIpfs targets [] in
  run.1 = inr tt /\
  exists ipfsPeerAddresses,
    ipfs_id localIpfs = Returns (Some ipfsPeerAddresses) /\
    run.2 = flat_map (fun target => [BootstrapAdd target; SwarmConnect target])
              (List.filter (dialled ipfsPeerAddresses) targets).
Proof.
  intros targets run.
  destruct (peering_dials_only_foreign_addresses localIpfs targets [])
    as (made & Hcalls & _ & Hok).
  split; [reflexivity |].
  destruct (Hok eq_refl) as (ipfsPeerAddresses & Hid & ->).
  exists ipfsPeerAddresses. split; [exact Hid | exact Hcalls].
Defined.

Example peering_scenario :
  _initBootstrapAndRefreshPeers localIpfs
    ["/ip4/127.0.0.1/tcp/4001/p2p/QmPrimary"; "/ip6/::1/tcp/4001/p2p/QmPrimary";
     "/ip4/10.0.0.5/tcp/4001/p2p/QmSelf"; "/ip4/10.0.0.9/tcp/4001/p2p/QmPrimary"] []
  = (inr tt, [BootstrapAdd "/ip4/10.0.0.9/tcp/4001/p2p/QmPrimary";
              SwarmConnect "/ip4/10.0.0.9/tcp/4001/p2p/QmPrimary"]).
Proof. vm_compute. reflexivity. Qed.

End PeersFacts.
